(** * AppSyncModelJavaVisitor: the Java model generator of the AppSync codegen plugin

    A shallow embedding of
    [packages/amplify-codegen-appsync-model-plugin/src/visitors/appsync-java-visitor.ts]
    together with the properties its specification states about it.

    The visitor emits Java source text through a declaration buffer and
    keeps one piece of state, the set of additional imports.  It is
    embedded as functions into a small monad (import set + thrown error)
    over records that mirror the buffer; the collaborators it inherits or
    imports are a record the development is parametric in.

    Layout: text utilities, the schema model, the declaration buffer, the
    collaborators, the generator monad, the visitor's methods in source
    order, a reading of the emitted Java statements (tokens, statement
    trees and their execution), a sample schema, the vocabulary of the
    statements, and then the properties. *)

From Stdlib Require Import String Ascii List ZArith Bool Arith Lia DecimalString.
Import ListNotations.
Local Open Scope list_scope.
Local Open Scope string_scope.

Set Implicit Arguments.

(* ================================================================== *)
(** ** Text utilities *)
(* ================================================================== *)

Module Text.

Definition nl_char : ascii := "010"%char.
Definition dq_char : ascii := "034"%char.

(** A line feed and a double quote, as one-character strings. *)
Definition nl : string := String nl_char EmptyString.
Definition dq : string := String dq_char EmptyString.

(** [`"${s}"`] *)
Definition quoted (s : string) : string := dq ++ s ++ dq.

(** [Array.prototype.join] *)
Fixpoint join (sep : string) (xs : list string) : string :=
  match xs with
  | [] => ""
  | [x] => x
  | x :: rest => x ++ sep ++ join sep rest
  end.

(** [String.prototype.split] on a one-character separator. *)
Fixpoint split (c : ascii) (s : string) : list string :=
  match s with
  | EmptyString => [""]
  | String a rest =>
      if Ascii.eqb a c then "" :: split c rest
      else match split c rest with
           | [] => [String a ""]
           | hd :: tl => String a hd :: tl
           end
  end.

(** [s.includes(c)] for a one-character needle. *)
Fixpoint includes_char (c : ascii) (s : string) : bool :=
  match s with
  | EmptyString => false
  | String a rest => Ascii.eqb a c || includes_char c rest
  end.

(** [s.includes(needle)] *)
Fixpoint includes (needle s : string) : bool :=
  String.prefix needle s
  || match s with
     | EmptyString => false
     | String _ rest => includes needle rest
     end.

(** [Array.prototype.includes] on strings. *)
Definition mem (x : string) (xs : list string) : bool :=
  existsb (String.eqb x) xs.

(** The lines of a text: [s.split('\n')]. *)
Definition lines (s : string) : list string := split nl_char s.

(** [indent(str, count)] of visitor-plugin-common: [count] times two
    spaces in front of [str]. *)
Fixpoint indentation (count : nat) : string :=
  match count with
  | O => ""
  | S n => "  " ++ indentation n
  end.

Definition indentN (count : nat) (str : string) : string :=
  indentation count ++ str.

Definition indent (str : string) : string := indentN 1 str.

(** [indentMultiline(str, count)] of visitor-plugin-common:
    [indentation + str.replace(/\n/g, '\n' + indentation)]. *)
Fixpoint replace_nl (by_ : string) (s : string) : string :=
  match s with
  | EmptyString => ""
  | String a rest =>
      if Ascii.eqb a nl_char then by_ ++ replace_nl by_ rest
      else String a (replace_nl by_ rest)
  end.

Definition indentMultilineN (count : nat) (str : string) : string :=
  indentation count ++ replace_nl (nl ++ indentation count) str.

Definition indentMultiline (str : string) : string := indentMultilineN 1 str.

(** No line feed in a string. *)
Definition nl_free (s : string) : bool := negb (includes_char nl_char s).

(** The lines of [join (sep ++ nl) xs ++ last]: every item but the last is
    followed by [sep], the last one by [last]. *)
Fixpoint punctuate (sep last : string) (xs : list string) : list string :=
  match xs with
  | [] => [last]
  | [x] => [x ++ last]
  | x :: rest => (x ++ sep) :: punctuate sep last rest
  end.

(** [String(n)] for an integer. *)
Definition string_of_Z (z : Z) : string := NilEmpty.string_of_int (Z.to_int z).

End Text.
Import Text.

(* ================================================================== *)
(** ** The schema model handed over by the base visitor *)
(* ================================================================== *)

(** A directive argument value: a scalar, a string or a list of strings.
    A number is an integer (a GraphQL [Int], as the [limit] of a
    connection is), which JS prints with all its digits. *)
Inductive ArgValue : Type :=
| ANull
| ABool (b : bool)
| ANum (n : Z)
| AStr (s : string)
| AList (l : list string).

(** A JS object used as an ordered map (its keys are distinct). *)
Definition DirectiveArgs : Type := list (string * ArgValue).

Record CodeGenDirective : Type := mkDirective {
  d_name : string;
  d_arguments : DirectiveArgs
}.

Record CodeGenField : Type := mkField {
  f_name : string;
  f_type : string;
  f_isNullable : bool;
  f_isList : bool;
  f_directives : list CodeGenDirective
}.

Record CodeGenModel : Type := mkModel {
  m_name : string;
  m_directives : list CodeGenDirective;
  m_fields : list CodeGenField
}.

Record CodeGenEnum : Type := mkEnum {
  e_name : string;
  e_values : list (string * string)
}.

(** [CodeGenModelMap]: model name to model, in insertion order. *)
Definition CodeGenModelMap : Type := list (string * CodeGenModel).

Definition values {A : Type} (m : list (string * A)) : list A := map snd m.
Definition keys {A : Type} (m : list (string * A)) : list string := map fst m.

(** [obj[key]]: [None] stands for [undefined]. *)
Fixpoint lookup {A : Type} (key : string) (m : list (string * A)) : option A :=
  match m with
  | [] => None
  | (k, v) :: rest => if String.eqb k key then Some v else lookup key rest
  end.

(* ================================================================== *)
(** ** The declaration buffer *)
(* ================================================================== *)

Record MemberFlags : Type := mkFlags {
  fl_final : bool;
  fl_static : bool;
  fl_synchronized : bool
}.

Definition noFlags : MemberFlags := mkFlags false false false.

Record ClassMember : Type := mkMember {
  member_name : string;
  member_type : string;
  member_value : string;
  member_annotations : list string;
  member_access : string;
  member_flags : MemberFlags
}.

Record MethodArgument : Type := mkArg {
  arg_name : string;
  arg_type : string
}.

Record ClassMethod : Type := mkMethod {
  method_name : string;
  method_returnType : option string;   (* [None] is the source's [null] *)
  method_implementation : string;
  method_args : list MethodArgument;
  method_annotations : list string;
  method_access : string;
  method_flags : MemberFlags;
  method_methodAnnotations : list string;
  method_exceptions : list string;
  method_comment : string
}.

(** Modelled from the spec: [JavaDeclarationBlock]
    ([../languages/java-declaration-block]) is the declaration builder, "a
    generic, language-shape-aware buffer that accumulates members, methods,
    nested types, annotations, and comments".  The record keeps what the
    visitor hands to it, members, methods and nested types in the order of
    the calls; its rendering to text stays a collaborator
    ([blockString] below). *)
#[warnings="-register-all"]
Inductive JavaDeclarationBlock : Type := mkBlock {
  _kind : string;
  _name : string;
  _access : string;
  _final : bool;
  _static : bool;
  _implements : list string;
  _annotations : list string;
  _comment : string;
  _block : string;
  _members : list ClassMember;
  _methods : list ClassMethod;
  _nestedClasses : list JavaDeclarationBlock
}.

Module Block.

(** [new JavaDeclarationBlock()] *)
Definition new : JavaDeclarationBlock :=
  mkBlock "" "" "" false false [] [] "" "" [] [] [].

Definition asKind (k : string) (b : JavaDeclarationBlock) :=
  mkBlock k (_name b) (_access b) (_final b) (_static b) (_implements b)
    (_annotations b) (_comment b) (_block b) (_members b) (_methods b) (_nestedClasses b).

Definition withName (n : string) (b : JavaDeclarationBlock) :=
  mkBlock (_kind b) n (_access b) (_final b) (_static b) (_implements b)
    (_annotations b) (_comment b) (_block b) (_members b) (_methods b) (_nestedClasses b).

Definition access (a : string) (b : JavaDeclarationBlock) :=
  mkBlock (_kind b) (_name b) a (_final b) (_static b) (_implements b)
    (_annotations b) (_comment b) (_block b) (_members b) (_methods b) (_nestedClasses b).

Definition final (b : JavaDeclarationBlock) :=
  mkBlock (_kind b) (_name b) (_access b) true (_static b) (_implements b)
    (_annotations b) (_comment b) (_block b) (_members b) (_methods b) (_nestedClasses b).

Definition static (b : JavaDeclarationBlock) :=
  mkBlock (_kind b) (_name b) (_access b) (_final b) true (_implements b)
    (_annotations b) (_comment b) (_block b) (_members b) (_methods b) (_nestedClasses b).

Definition implements (l : list string) (b : JavaDeclarationBlock) :=
  mkBlock (_kind b) (_name b) (_access b) (_final b) (_static b) l
    (_annotations b) (_comment b) (_block b) (_members b) (_methods b) (_nestedClasses b).

Definition annotate (l : list string) (b : JavaDeclarationBlock) :=
  mkBlock (_kind b) (_name b) (_access b) (_final b) (_static b) (_implements b)
    l (_comment b) (_block b) (_members b) (_methods b) (_nestedClasses b).

Definition withComment (c : string) (b : JavaDeclarationBlock) :=
  mkBlock (_kind b) (_name b) (_access b) (_final b) (_static b) (_implements b)
    (_annotations b) c (_block b) (_members b) (_methods b) (_nestedClasses b).

Definition withBlock (t : string) (b : JavaDeclarationBlock) :=
  mkBlock (_kind b) (_name b) (_access b) (_final b) (_static b) (_implements b)
    (_annotations b) (_comment b) t (_members b) (_methods b) (_nestedClasses b).

Definition pushMember (m : ClassMember) (b : JavaDeclarationBlock) :=
  mkBlock (_kind b) (_name b) (_access b) (_final b) (_static b) (_implements b)
    (_annotations b) (_comment b) (_block b) (_members b ++ [m]) (_methods b)
    (_nestedClasses b).

Definition pushMethod (m : ClassMethod) (b : JavaDeclarationBlock) :=
  mkBlock (_kind b) (_name b) (_access b) (_final b) (_static b) (_implements b)
    (_annotations b) (_comment b) (_block b) (_members b) (_methods b ++ [m])
    (_nestedClasses b).

Definition addClassMember (name type value : string) (typeAnnotations : list string)
    (acc : string) (flags : MemberFlags) (b : JavaDeclarationBlock) :=
  pushMember (mkMember name type value typeAnnotations acc flags) b.

Definition addClassMethod (name : string) (returnType : option string) (impl : string)
    (args : list MethodArgument) (annotations : list string) (acc : string)
    (flags : MemberFlags) (methodAnnotations exceptions : list string) (comment : string)
    (b : JavaDeclarationBlock) :=
  pushMethod (mkMethod name returnType impl args annotations acc flags
                methodAnnotations exceptions comment) b.

Definition nestedClass (n : JavaDeclarationBlock) (b : JavaDeclarationBlock) :=
  mkBlock (_kind b) (_name b) (_access b) (_final b) (_static b) (_implements b)
    (_annotations b) (_comment b) (_block b) (_members b) (_methods b)
    (_nestedClasses b ++ [n]).

(** The first method of a block with a given name. *)
Definition findMethod (name : string) (b : JavaDeclarationBlock) : option ClassMethod :=
  find (fun m => String.eqb (method_name m) name) (_methods b).

End Block.

(* ================================================================== *)
(** ** Collaborators *)
(* ================================================================== *)

(** What the visitor takes from outside this file: the case conversions of
    [change-case], [transformComment], the declaration buffer's rendering,
    the Java configuration constants, and the members it inherits from
    [AppSyncModelVisitor] (the parsed schema and configuration, the model
    and enum selection, name and type mapping, the version hash).  The
    generator is stated for every choice of them.  [super_getNativeType]
    is the name the inherited [getNativeType] answers for a field; the
    visitor is followed on the fields the inherited method answers for
    (the Java type mapping the specification describes), not on a field
    of a type it does not know. *)
Record Collaborators : Type := mkCollaborators {
  pascalCase : string -> string;
  camelCase : string -> string;
  constantCase : string -> string;
  transformComment : string -> string;
  blockString : JavaDeclarationBlock -> string;
  GENERATED_PACKAGE_NAME : string;
  LOADER_CLASS_NAME : string;
  CLASS_IMPORT_PACKAGES : list string;
  LOADER_IMPORT_PACKAGES : list string;
  config_generate : string;
  typeMap : CodeGenModelMap;
  getSelectedModels : CodeGenModelMap;
  selectedTypeIsEnum : bool;
  getSelectedEnums : list (string * CodeGenEnum);
  getEnumName : CodeGenEnum -> string;
  computeVersion : string;
  getModelName : CodeGenModel -> string;
  getFieldName : CodeGenField -> string;
  super_getNativeType : CodeGenField -> string
}.

(** Modelled from the spec: [READ_ONLY_FIELDS] is declared in the base
    visitor; the identity field convention is "id". *)
Definition READ_ONLY_FIELDS : list string := ["id"].

(* ================================================================== *)
(** ** The generator monad *)
(* ================================================================== *)

(** [additionalPackages : Set<string>]: insertion ordered, no duplicates. *)
Definition Packages : Type := list string.

Definition set_add (x : string) (s : Packages) : Packages :=
  if mem x s then s else (s ++ [x])%list.

(** The errors the visitor's own code raises: reading a property of
    [undefined] and calling a method a value does not have. *)
Inductive JsError : Type :=
| TypeError (message : string).

Inductive Outcome (A : Type) : Type :=
| Returned (a : A)
| Thrown (e : JsError).
Arguments Thrown {A} e.

(** A computation of the visitor: it reads and extends the import set and
    either returns or throws; what it added before throwing stays. *)
Definition Gen (A : Type) : Type := Packages -> Outcome A * Packages.

Definition ret {A : Type} (a : A) : Gen A := fun pk => (Returned a, pk).

Definition throw {A : Type} (e : JsError) : Gen A := fun pk => (Thrown e, pk).

Definition bind {A B : Type} (c : Gen A) (k : A -> Gen B) : Gen B :=
  fun pk =>
    match c pk with
    | (Returned a, pk') => k a pk'
    | (Thrown e, pk') => (Thrown e, pk')
    end.

Notation "x <- c ;; k" := (bind c (fun x => k))
  (at level 61, c at next level, right associativity).

(** [xs.map((x, idx) => f x idx)] with an effectful callback, [idx]
    counting from [start]. *)
Fixpoint mapiM_from {A B : Type} (start : nat) (f : A -> nat -> Gen B) (xs : list A)
  : Gen (list B) :=
  match xs with
  | [] => ret []
  | x :: rest =>
      y <- f x start ;;
      ys <- mapiM_from (S start) f rest ;;
      ret (y :: ys)
  end.

Definition mapiM {A B : Type} (f : A -> nat -> Gen B) (xs : list A) : Gen (list B) :=
  mapiM_from 0 f xs.

Definition mapM {A B : Type} (f : A -> Gen B) (xs : list A) : Gen (list B) :=
  mapiM (fun x _ => f x) xs.

(** [xs.forEach((x, idx) => ...)] updating an accumulator [acc]. *)
Fixpoint foldiM_from {A St : Type} (start : nat) (f : St -> A -> nat -> Gen St)
    (xs : list A) (acc : St) : Gen St :=
  match xs with
  | [] => ret acc
  | x :: rest => acc' <- f acc x start ;; foldiM_from (S start) f rest acc'
  end.

Definition foldiM {A St : Type} (f : St -> A -> nat -> Gen St) (xs : list A) (acc : St)
  : Gen St :=
  foldiM_from 0 f xs acc.

Definition foldM {A St : Type} (f : St -> A -> Gen St) (xs : list A) (acc : St) : Gen St :=
  foldiM (fun s x _ => f s x) xs acc.

(** [arr[i].name]: reading a property of [undefined] throws. *)
Definition nameAt (xs : list CodeGenField) (i : nat) : Gen string :=
  match nth_error xs i with
  | Some f => ret (f_name f)
  | None => throw (TypeError "Cannot read property 'name' of undefined")
  end.

(* ================================================================== *)
(** ** JS values of directive arguments *)
(* ================================================================== *)

(** Truthiness, as tested by [if (value)]; [None] is [undefined]. *)
Definition truthy (v : option ArgValue) : bool :=
  match v with
  | None => false
  | Some ANull => false
  | Some (ABool b) => b
  | Some (ANum n) => negb (Z.eqb n 0)
  | Some (AStr s) => negb (String.eqb s "")
  | Some (AList _) => true
  end.

(** [`${value}`] *)
Definition toString (v : option ArgValue) : string :=
  match v with
  | None => "undefined"
  | Some ANull => "null"
  | Some (ABool true) => "true"
  | Some (ABool false) => "false"
  | Some (ANum n) => string_of_Z n
  | Some (AStr s) => s
  | Some (AList l) => join "," l
  end.

(** [isArray(value)] *)
Definition isArray (v : option ArgValue) : bool :=
  match v with
  | Some (AList _) => true
  | _ => false
  end.

(** [(value as string[]).map(f)]: only an array has [map]. *)
Definition mapArray (f : string -> string) (v : option ArgValue) : Gen (list string) :=
  match v with
  | Some (AList l) => ret (map f l)
  | None | Some ANull => throw (TypeError "Cannot read property 'map' of undefined")
  | Some _ => throw (TypeError "map is not a function")
  end.

(** Leading white space removed: [trimStart], [trimLeft]. *)
Definition isSpace (c : ascii) : bool :=
  let n := nat_of_ascii c in
  Nat.eqb n 32 || (Nat.leb 9 n && Nat.leb n 13).

Fixpoint trimStart (s : string) : string :=
  match s with
  | EmptyString => ""
  | String c rest => if isSpace c then trimStart rest else s
  end.

(* ================================================================== *)
(** ** The visitor *)
(* ================================================================== *)

Section Visitor.

Variable E : Collaborators.

(** The static flags used by the visitor. *)
Definition flags_final : MemberFlags := mkFlags true false false.
Definition flags_static : MemberFlags := mkFlags false true false.
Definition flags_final_static : MemberFlags := mkFlags true true false.
Definition flags_static_synchronized : MemberFlags := mkFlags false true true.

Definition getStepInterfaceName (nextFieldName : string) : string :=
  "I" ++ pascalCase E nextFieldName ++ "Step".

Definition getFieldGetterName (field : CodeGenField) : string :=
  "get" ++ pascalCase E (f_name field).

Definition getStepFunctionName (field : CodeGenField) : string :=
  camelCase E (f_name field).

Definition getStepFunctionArgumentName (field : CodeGenField) : string :=
  camelCase E (f_name field).

(** [getNativeType]: a qualified name is registered in
    [additionalPackages] and shortened to its last segment. *)
Definition getNativeType (field : CodeGenField) : Gen string :=
  let nativeType := super_getNativeType E field in
  if includes "." nativeType then
    let classSplit := split "."%char nativeType in
    fun pk => (Returned (last classSplit ""), set_add nativeType pk)
  else ret nativeType.

Definition generatePackageName : string :=
  "package " ++ GENERATED_PACKAGE_NAME E ++ ";".

Definition generateImportStatements (packages : list string) : string :=
  join nl (map (fun pkg => if String.eqb pkg "" then "" else "import " ++ pkg ++ ";")
               packages).

(** [generatePackageHeader] reads the import set; it does not empty it. *)
Definition generatePackageHeader : Gen string :=
  fun pk =>
    let imports :=
      generateImportStatements (pk ++ [""] ++ CLASS_IMPORT_PACKAGES E)%list in
    (Returned (join nl [generatePackageName; ""; imports]), pk).

Definition generateQueryFields (field : CodeGenField) (classDeclarationBlock : JavaDeclarationBlock)
  : JavaDeclarationBlock :=
  let queryFieldName := constantCase E (f_name field) in
  Block.addClassMember queryFieldName "QueryField"
    ("field(" ++ quoted (getFieldName E field) ++ ")") [] "public" flags_final_static
    classDeclarationBlock.

(** *** Annotations *)

Definition connectionStringKeys : list string := ["name"; "keyField"; "sortField"; "keyName"].

(** The argument list of a [connection] directive, before it is joined. *)
Definition connectionArgs (arguments : DirectiveArgs) : list string :=
  let stringArgs :=
    flat_map (fun argName =>
                if mem argName connectionStringKeys
                then [argName ++ " = " ++ quoted (toString (lookup argName arguments))]
                else [])
             (keys arguments) in
  let limitArgs :=
    if truthy (lookup "limit" arguments)
    then ["limit = " ++ toString (lookup "limit" arguments)]
    else [] in
  let fieldsArgs :=
    if truthy (lookup "fields" arguments) && isArray (lookup "fields" arguments)
    then match lookup "fields" arguments with
         | Some (AList l) => ["fields = {{" ++ join ", " (map quoted l) ++ "}"]
         | _ => []
         end
    else [] in
  (stringArgs ++ limitArgs ++ fieldsArgs)%list.

(** The annotations one field directive adds. *)
Definition directiveAnnotations (annotation : CodeGenDirective) : list string :=
  if String.eqb (d_name annotation) "connection" then
    let args := connectionArgs (d_arguments annotation) in
    match args with
    | [] => []
    | _ => ["Connection(" ++ join ", " args ++ ")"]
    end
  else [].

Definition generateFieldAnnotations (field : CodeGenField) : list string :=
  let annotationArgs :=
    filter (fun arg => negb (String.eqb arg ""))
      [ "targetName=" ++ quoted (f_name field);
        "targetType=" ++ quoted (f_type field);
        if negb (f_isNullable field) then "isRequired = true" else "" ] in
  ("ModelField(" ++ join ", " annotationArgs ++ ")")
    :: flat_map directiveAnnotations (f_directives field).

Definition generateModelAnnotations (model : CodeGenModel) : Gen (list string) :=
  annotations <-
    mapM (fun directive =>
            if String.eqb (d_name directive) "model" then
              ret ("ModelConfig(targetName = " ++ quoted (m_name model) ++ ")")
            else if String.eqb (d_name directive) "key" then
              let arg1 := "name = " ++ quoted (toString (lookup "name" (d_arguments directive))) in
              fs <- mapArray quoted (lookup "fields" (d_arguments directive)) ;;
              let arg2 := "fields = {" ++ join "," fs ++ "}" in
              ret ("Index(" ++ join ", " [arg1; arg2] ++ ")")
            else ret "")
         (m_directives model) ;;
  ret (filter (fun a => negb (String.eqb a ""))
              (("SuppressWarnings(" ++ quoted "all" ++ ")") :: annotations)).

(** [generateField]: one private final member per field. *)
Definition generateField (field : CodeGenField) (classDeclarationBlock : JavaDeclarationBlock)
  : Gen JavaDeclarationBlock :=
  let annotations := generateFieldAnnotations field in
  fieldType <- getNativeType field ;;
  let fieldName := getFieldName E field in
  ret (Block.addClassMember fieldName fieldType "" annotations "private" flags_final
         classDeclarationBlock).

(** *** The step builder *)

Definition nonNullableFieldsOf (model : CodeGenModel) : list CodeGenField :=
  filter (fun field => negb (f_isNullable field)) (m_fields model).

Definition nullableFieldsOf (model : CodeGenModel) : list CodeGenField :=
  filter (fun field => f_isNullable field) (m_fields model).

(** [nonIdFields] / [stepFields] *)
Definition stepFieldsOf (model : CodeGenModel) : list CodeGenField :=
  filter (fun field => negb (mem (f_name field) READ_ONLY_FIELDS))
         (nonNullableFieldsOf model).

Definition isLast {A : Type} (xs : list A) (idx : nat) : bool :=
  (Z.of_nat (length xs) - 1 =? Z.of_nat idx)%Z.

Definition generateStepBuilderInterfaces (model : CodeGenModel)
  : Gen (list JavaDeclarationBlock) :=
  let nullableFields := nullableFieldsOf model in
  let nonIdFields := stepFieldsOf model in
  interfaces <-
    mapiM (fun field idx =>
             let isLastField := isLast nonIdFields idx in
             returnType <- (if isLastField then ret "Build" else nameAt nonIdFields (idx + 1)) ;;
             let interfaceName := getStepInterfaceName (f_name field) in
             let methodName := getStepFunctionName field in
             argumentType <- getNativeType field ;;
             let argumentName := getStepFunctionArgumentName field in
             let interfaceDeclaration :=
               Block.access "public"
                 (Block.withName interfaceName (Block.asKind "interface" Block.new)) in
             ret (Block.withBlock
                    (indent (getStepInterfaceName returnType ++ " " ++ methodName ++ "("
                             ++ argumentType ++ " " ++ argumentName ++ ");"))
                    interfaceDeclaration))
          nonIdFields ;;
  let builder :=
    Block.access "public"
      (Block.withName (getStepInterfaceName "Build") (Block.asKind "interface" Block.new)) in
  let builderBody :=
    [ getModelName E model ++ " build();";
      getStepInterfaceName "Build" ++ " id(String id) throws AmplifyException;" ] in
  builderBody <-
    foldM (fun body field =>
             let fieldName := getFieldName E field in
             nativeType <- getNativeType field ;;
             let signature :=
               getStepInterfaceName "Build" ++ " " ++ fieldName ++ "("
               ++ nativeType ++ " " ++ fieldName ++ ");" in
             ret (body ++ [signature])%list)
          nullableFields builderBody ;;
  let builder := Block.withBlock (indentMultiline (join nl builderBody)) builder in
  ret (interfaces ++ [builder])%list.

(** The body of the builder's [id] method (the source's dedented
    template). *)
Definition idBuildStepBody : string :=
  join nl
    [ "this.id = id;";
      "";
      "try {";
      "    UUID.fromString(id); // Check that ID is in the UUID format - if not an exception is thrown";
      "} catch (Exception exception) {";
      "    throw new AmplifyException(" ++ dq ++ "Model IDs must be unique in the format of UUID." ++ dq ++ ",";
      "            exception,";
      "            " ++ dq ++ "If you are creating a new object, leave ID blank and one will be auto generated for you. " ++ dq ++ " +";
      "            " ++ dq ++ "Otherwise, if you are referencing an existing object, be sure you are getting the correct " ++ dq ++ " +";
      "            " ++ dq ++ "id for it. It's also possible you are referring to an item created outside of Amplify." ++ dq ++ " +";
      "            " ++ dq ++ "It is currently not supported." ++ dq ++ ",";
      "            false);";
      "}";
      "";
      "return this;" ].

Definition idComment : string :=
  join nl
    [ "WARNING: Do not set ID when creating a new object. Leave this blank and one will be auto generated for you.";
      "This should only be set when referring to an already existing object.";
      "@param id id";
      "@return Current Builder instance, for fluent method chaining";
      "@throws AmplifyException Checks that ID is in the proper format" ].

(** The first statement of [build()]. *)
Definition buildIdStatement : string :=
  "String id = this.id != null ? this.id : UUID.randomUUID().toString();".

(** The text of [build()] before it is indented. *)
Definition buildImplementation (model : CodeGenModel) : list string :=
  let buildParams := join ("," ++ nl) (map (getFieldName E) (m_fields model)) in
  [ buildIdStatement;
    "";
    "return new " ++ getModelName E model ++ "(" ++ nl ++ indentMultiline buildParams ++ ");" ].

(** [generateBuilderClass]: the nested [Builder] class, added to
    [classDeclaration]. *)
Definition generateBuilderClass (model : CodeGenModel) (classDeclaration : JavaDeclarationBlock)
  : Gen JavaDeclarationBlock :=
  let nonNullableFields := nonNullableFieldsOf model in
  let nullableFields := nullableFieldsOf model in
  let stepFields := stepFieldsOf model in
  let stepInterfaces := map (fun field => getStepInterfaceName (f_name field)) stepFields in
  let builderClassDeclaration :=
    Block.implements (stepInterfaces ++ [getStepInterfaceName "Build"])%list
      (Block.withName "Builder"
         (Block.asKind "class" (Block.static (Block.access "public" Block.new)))) in
  (* Add private instance fields *)
  builderClassDeclaration <-
    foldM (fun decl field =>
             let fieldName := getFieldName E field in
             nativeType <- getNativeType field ;;
             ret (Block.addClassMember fieldName nativeType "" [] "private" noFlags decl))
          (nonNullableFields ++ nullableFields)%list builderClassDeclaration ;;
  (* builder() *)
  firstName <- nameAt stepFields 0 ;;
  let builderClassDeclaration :=
    Block.addClassMethod "builder" (Some (getStepInterfaceName firstName))
      (indentMultiline "return new Builder();") [] [] "public" flags_static [] [] ""
      builderClassDeclaration in
  (* build() *)
  let builderClassDeclaration :=
    Block.addClassMethod "build" (Some (getModelName E model))
      (indentMultiline (join nl (buildImplementation model))) [] [] "public" noFlags
      ["Override"] [] "" builderClassDeclaration in
  (* non-nullable fields *)
  builderClassDeclaration <-
    foldiM (fun decl field idx =>
              let isLastStep := (Z.of_nat idx =? Z.of_nat (length stepFields) - 1)%Z in
              let fieldName := getFieldName E field in
              let methodName := getStepFunctionName field in
              returnType <- (if isLastStep then ret (getStepInterfaceName "Build")
                             else nextName <- nameAt stepFields (idx + 1) ;;
                                  ret (getStepInterfaceName nextName)) ;;
              argumentType <- getNativeType field ;;
              let argumentName := getStepFunctionArgumentName field in
              let body :=
                join nl [ "Objects.requireNonNull(" ++ fieldName ++ ");";
                          "this." ++ fieldName ++ " = " ++ argumentName ++ ";";
                          "return this;" ] in
              ret (Block.addClassMethod methodName (Some returnType) (indentMultiline body)
                     [mkArg argumentName argumentType] [] "public" noFlags ["Override"] [] ""
                     decl))
           stepFields builderClassDeclaration ;;
  (* nullable fields *)
  builderClassDeclaration <-
    foldM (fun decl field =>
             let fieldName := getFieldName E field in
             let methodName := getStepFunctionName field in
             let returnType := getStepInterfaceName "Build" in
             argumentType <- getNativeType field ;;
             let argumentName := getStepFunctionArgumentName field in
             let body :=
               join nl [ "this." ++ fieldName ++ " = " ++ argumentName ++ ";";
                         "return this;" ] in
             ret (Block.addClassMethod methodName (Some returnType) (indentMultiline body)
                    [mkArg argumentName argumentType] [] "public" noFlags ["Override"] [] ""
                    decl))
          nullableFields builderClassDeclaration ;;
  (* Add id builder *)
  let builderClassDeclaration :=
    Block.addClassMethod "id" (Some (getStepInterfaceName "Build"))
      (indentMultiline idBuildStepBody) [mkArg "id" "String"] [] "public" noFlags []
      ["AmplifyException"] idComment builderClassDeclaration in
  ret (Block.nestedClass builderClassDeclaration classDeclaration).

(** *** Getters, constructor, equals, hashCode *)

Definition generateGetters (model : CodeGenModel) (declarationsBlock : JavaDeclarationBlock)
  : Gen JavaDeclarationBlock :=
  foldM (fun decl field =>
           let fieldName := getFieldName E field in
           returnType <- getNativeType field ;;
           let methodName := getFieldGetterName field in
           let body := indent ("return " ++ fieldName ++ ";") in
           ret (Block.addClassMethod methodName (Some returnType) body [] [] "public" noFlags
                  [] [] "" decl))
        (m_fields model) declarationsBlock.

Definition generateConstructor (model : CodeGenModel) (declarationsBlock : JavaDeclarationBlock)
  : Gen JavaDeclarationBlock :=
  let name := getModelName E model in
  let body :=
    join nl (map (fun field =>
                    let fieldName := getFieldName E field in
                    "this." ++ fieldName ++ " = " ++ fieldName ++ ";")
                 (m_fields model)) in
  constructorArguments <-
    mapM (fun field =>
            let argName := getFieldName E field in
            argType <- getNativeType field ;;
            ret (mkArg argName argType))
         (m_fields model) ;;
  ret (Block.addClassMethod name None body constructorArguments [] "private" noFlags
         [] [] "" declarationsBlock).

(** One conjunct of [equals] per field. *)
Definition equalsCheck (instanceName : string) (field : CodeGenField) : string :=
  let getterName := getFieldGetterName field in
  "ObjectsCompat.equals(" ++ getterName ++ "(), " ++ instanceName ++ "." ++ getterName ++ "())".

Definition generateEqualsMethod (model : CodeGenModel) (declarationBlock : JavaDeclarationBlock)
  : JavaDeclarationBlock :=
  let paramName := "obj" in
  let className := getModelName E model in
  let instanceName := camelCase E (m_name model) in
  let body :=
    [ "if (this == " ++ paramName ++ ") {";
      "  return true;";
      "} else if(" ++ paramName ++ " == null || getClass() != " ++ paramName ++ ".getClass()) {";
      "  return false;";
      "} else {" ] in
  let cast := className ++ " " ++ instanceName ++ " = (" ++ className ++ ") " ++ paramName ++ ";" in
  let body := (body ++ [cast])%list in
  let propCheck :=
    trimStart (indentMultilineN 4
                 (join (" &&" ++ nl) (map (equalsCheck instanceName) (m_fields model)))) in
  let result := "return " ++ propCheck ++ ";" in
  let body := (body ++ [result])%list in
  let body := (body ++ ["}"])%list in
  Block.addClassMethod "equals" (Some "boolean") (indentMultiline (join nl body))
    [mkArg paramName "Object"] [] "public" noFlags ["Override"] [] "" declarationBlock.

(** One [append] of [hashCode] per field. *)
Definition hashAppend (field : CodeGenField) : string :=
  ".append(" ++ getFieldGetterName field ++ "())".

Definition generateHashCodeMethod (model : CodeGenModel) (declarationBlock : JavaDeclarationBlock)
  : JavaDeclarationBlock :=
  let body :=
    join nl (["return new StringBuilder()"] ++ map hashAppend (m_fields model)
             ++ [".hashCode();"])%list in
  Block.addClassMethod "hashCode" (Some "int") (trimStart (indentMultiline body)) [] []
    "public" noFlags ["Override"] [] "" declarationBlock.

(** *** One model class *)

(** [generateClass] up to the rendering of the declaration. *)
Definition generateClassDeclaration (model : CodeGenModel) : Gen JavaDeclarationBlock :=
  let classDeclarationBlock :=
    Block.final
      (Block.withComment
         ("This is an auto generated class representing the " ++ m_name model
          ++ " type in your schema.")
         (Block.implements ["Model"]
            (Block.withName (getModelName E model)
               (Block.access "public" (Block.asKind "class" Block.new))))) in
  annotations <- generateModelAnnotations model ;;
  let classDeclarationBlock := Block.annotate annotations classDeclarationBlock in
  let classDeclarationBlock :=
    fold_left (fun decl field => generateQueryFields field decl) (m_fields model)
      classDeclarationBlock in
  classDeclarationBlock <- foldM (fun decl field => generateField field decl) (m_fields model)
                             classDeclarationBlock ;;
  (* step interface declarations *)
  builderInterfaces <- generateStepBuilderInterfaces model ;;
  let classDeclarationBlock :=
    fold_left (fun decl builderInterface => Block.nestedClass builderInterface decl)
      builderInterfaces classDeclarationBlock in
  (* builder *)
  classDeclarationBlock <- generateBuilderClass model classDeclarationBlock ;;
  (* getters *)
  classDeclarationBlock <- generateGetters model classDeclarationBlock ;;
  (* constructor *)
  classDeclarationBlock <- generateConstructor model classDeclarationBlock ;;
  (* equals *)
  let classDeclarationBlock := generateEqualsMethod model classDeclarationBlock in
  (* hash code *)
  let classDeclarationBlock := generateHashCodeMethod model classDeclarationBlock in
  ret classDeclarationBlock.

Definition generateClass (model : CodeGenModel) : Gen string :=
  classDeclarationBlock <- generateClassDeclaration model ;;
  ret (blockString E classDeclarationBlock).

(** [generateClasses]: every selected model, then the package header. *)
Definition generateClasses : Gen string :=
  result <- mapM generateClass (values (getSelectedModels E)) ;;
  packageDeclaration <- generatePackageHeader ;;
  ret (join nl (packageDeclaration :: result)).

(** *** Enums *)

Definition generateEnums : string :=
  let result :=
    map (fun enumValue =>
           let enumDeclaration :=
             Block.withComment "Auto generated enum from GraphQL schema."
               (Block.annotate ["SuppressWarnings(" ++ quoted "all" ++ ")"]
                  (Block.withName (getEnumName E enumValue)
                     (Block.access "public" (Block.asKind "enum" Block.new)))) in
           let body := values (e_values enumValue) in
           blockString E (Block.withBlock (indentMultiline (join ("," ++ nl) body))
                            enumDeclaration))
        (values (getSelectedEnums E)) in
  join nl (generatePackageName :: result).

(** *** The loader *)

Definition AMPLIFY_MODEL_VERSION : string := "AMPLIFY_MODEL_VERSION".

(** The class references listed by the loader's [models()]. *)
Definition classList : string :=
  join ", " (map (fun model => getModelName E model ++ ".class") (values (typeMap E))).

Definition getInstanceBody : string :=
  join nl
    [ "if (amplifyGeneratedModelInstance == null) {";
      "  amplifyGeneratedModelInstance = new " ++ LOADER_CLASS_NAME E ++ "();";
      "}";
      "return amplifyGeneratedModelInstance;" ].

Definition modelsMethodDocString : string :=
  join nl [ "Get a set of the model classes."; ""; "@return a set of the model classes." ].

Definition modelsMethodImplementation : string :=
  join nl
    [ "final Set<Class<? extends Model>> modifiableSet = new HashSet<>(";
      "      Arrays.<Class<? extends Model>>asList(" ++ classList ++ ")";
      "    );";
      "";
      "    return Immutable.of(modifiableSet);";
      "    " ].

Definition versionMethodDocString : string :=
  join nl [ "Get the version of the models."; ""; "@return the version string of the models." ].

Definition loaderClassDeclaration : JavaDeclarationBlock :=
  let decl :=
    Block.implements ["ModelProvider"]
      (Block.asKind "class"
         (Block.final (Block.access "public" (Block.withName (LOADER_CLASS_NAME E) Block.new)))) in
  (* Schema version *)
  let decl :=
    Block.addClassMember AMPLIFY_MODEL_VERSION "String" (quoted (computeVersion E)) []
      "private" flags_final_static decl in
  (* singleton instance *)
  let decl :=
    Block.addClassMember "amplifyGeneratedModelInstance" (LOADER_CLASS_NAME E) "" []
      "private" flags_static decl in
  (* private constructor for singleton *)
  let decl :=
    Block.addClassMethod (LOADER_CLASS_NAME E) None "" [] [] "private" noFlags [] [] "" decl in
  (* getInstance *)
  let decl :=
    Block.addClassMethod "getInstance" (Some (LOADER_CLASS_NAME E)) getInstanceBody [] []
      "public" flags_static_synchronized [] [] "" decl in
  (* models method *)
  let decl :=
    Block.addClassMethod "models" (Some "Set<Class<? extends Model>>")
      modelsMethodImplementation [] [] "public" noFlags ["Override"] []
      modelsMethodDocString decl in
  (* version method *)
  Block.addClassMethod "version" (Some "String") ("return " ++ AMPLIFY_MODEL_VERSION ++ ";")
    [] [] "public" noFlags ["Override"] [] versionMethodDocString decl.

Definition generateClassLoader : string :=
  let result :=
    [ generatePackageName; ""; generateImportStatements (LOADER_IMPORT_PACKAGES E) ] in
  let result :=
    (result ++ [transformComment E
                  (join nl [ " Contains the set of model classes that implement {@link Model}";
                             "interface." ])])%list in
  let result := (result ++ [blockString E loaderClassDeclaration])%list in
  join nl result.

(** *** Entry point *)

Definition generate : Gen string :=
  if String.eqb (config_generate E) "loader" then ret generateClassLoader
  else if selectedTypeIsEnum E then ret generateEnums
  else generateClasses.

End Visitor.

(* ================================================================== *)
(** ** Reading the emitted Java statements *)
(* ================================================================== *)

(** The bodies of [build()] and [id(String)] are emitted as text.  To state
    what they do when the generated class runs, the text is cut into
    tokens, compared with the tokens of a small statement tree, and the
    tree is run on a builder's slots. *)
Module Java.

Inductive Token : Type :=
| TWord (w : string)
| TString (s : string)
| TSym (c : ascii).

Definition isWordChar (c : ascii) : bool :=
  let n := nat_of_ascii c in
  (Nat.leb 48 n && Nat.leb n 57) || (Nat.leb 65 n && Nat.leb n 90)
  || (Nat.leb 97 n && Nat.leb n 122) || Nat.eqb n 95 || Nat.eqb n 36.

Definition snoc (w : string) (c : ascii) : string := w ++ String c EmptyString.

Inductive LexState : Type :=
| InCode
| InWord (w : string)
| InString (s : string)
| InComment.

(** The tokens of a text: white space and [//] comments are dropped,
    words, string literals and single symbols are kept. *)
Fixpoint lexFrom (st : LexState) (s : string) : list Token :=
  match s with
  | EmptyString =>
      match st with
      | InWord w => [TWord w]
      | InString w => [TString w]
      | _ => []
      end
  | String c rest =>
      let code (_ : unit) :=
        if isSpace c then lexFrom InCode rest
        else if Ascii.eqb c dq_char then lexFrom (InString "") rest
        else if isWordChar c then lexFrom (InWord (String c "")) rest
        else if Ascii.eqb c "/"%char then
               match rest with
               | String "/"%char _ => lexFrom InComment rest
               | _ => TSym c :: lexFrom InCode rest
               end
        else TSym c :: lexFrom InCode rest in
      match st with
      | InCode => code tt
      | InWord w =>
          if isWordChar c then lexFrom (InWord (snoc w c)) rest else TWord w :: code tt
      | InString w =>
          if Ascii.eqb c dq_char then TString w :: lexFrom InCode rest
          else lexFrom (InString (snoc w c)) rest
      | InComment => if Ascii.eqb c nl_char then lexFrom InCode rest else lexFrom InComment rest
      end
  end.

Definition lex (s : string) : list Token := lexFrom InCode s.

(** *** Statement trees *)

#[warnings="-register-all"]
Inductive Expr : Type :=
| ENull
| EThis
| EBool (b : bool)
| EStr (s : string)
| EName (x : string)                       (* a local, else a slot of [this] *)
| EField (f : string)                      (* [this.f] *)
| ENe (a b : Expr)                         (* [a != b] *)
| ECond (c a b : Expr)                     (* [c ? a : b] *)
| EPlus (a b : Expr)                       (* [a + b] *)
| EStatic (cls m : string) (args : list Expr)   (* [Cls.m(args)] *)
| ECall (target : Expr) (m : string) (args : list Expr)
| ENew (cls : string) (args : list Expr).

#[warnings="-register-all"]
Inductive Stmt : Type :=
| SLocal (ty x : string) (e : Expr)        (* [Ty x = e;] *)
| SSet (f : string) (e : Expr)             (* [this.f = e;] *)
| SDo (e : Expr)                           (* [e;] *)
| STry (body : list Stmt) (exTy exVar : string) (handler : list Stmt)
| SThrow (e : Expr)
| SReturn (e : Expr).

Definition sym (c : ascii) : Token := TSym c.

Fixpoint commaSep (xs : list (list Token)) : list Token :=
  match xs with
  | [] => []
  | [x] => x
  | x :: rest => x ++ sym "," :: commaSep rest
  end.

Fixpoint exprTokens (e : Expr) : list Token :=
  match e with
  | ENull => [TWord "null"]
  | EThis => [TWord "this"]
  | EBool true => [TWord "true"]
  | EBool false => [TWord "false"]
  | EStr s => [TString s]
  | EName x => [TWord x]
  | EField f => [TWord "this"; sym "."; TWord f]
  | ENe a b => exprTokens a ++ [sym "!"; sym "="] ++ exprTokens b
  | ECond c a b => exprTokens c ++ [sym "?"] ++ exprTokens a ++ [sym ":"] ++ exprTokens b
  | EPlus a b => exprTokens a ++ [sym "+"] ++ exprTokens b
  | EStatic cls m args =>
      [TWord cls; sym "."; TWord m; sym "("] ++ commaSep (map exprTokens args) ++ [sym ")"]
  | ECall target m args =>
      exprTokens target ++ [sym "."; TWord m; sym "("] ++ commaSep (map exprTokens args)
      ++ [sym ")"]
  | ENew cls args =>
      [TWord "new"; TWord cls; sym "("] ++ commaSep (map exprTokens args) ++ [sym ")"]
  end%list.

Fixpoint stmtTokens (s : Stmt) : list Token :=
  match s with
  | SLocal ty x e => [TWord ty; TWord x; sym "="] ++ exprTokens e ++ [sym ";"]
  | SSet f e => [TWord "this"; sym "."; TWord f; sym "="] ++ exprTokens e ++ [sym ";"]
  | SDo e => exprTokens e ++ [sym ";"]
  | STry body exTy exVar handler =>
      [TWord "try"; sym "{"] ++ flat_map stmtTokens body
      ++ [sym "}"; TWord "catch"; sym "("; TWord exTy; TWord exVar; sym ")"; sym "{"]
      ++ flat_map stmtTokens handler ++ [sym "}"]
  | SThrow e => [TWord "throw"] ++ exprTokens e ++ [sym ";"]
  | SReturn e => [TWord "return"] ++ exprTokens e ++ [sym ";"]
  end%list.

Definition programTokens (p : list Stmt) : list Token := flat_map stmtTokens p.

(** *** Running a statement tree *)

#[warnings="-register-all"]
Inductive Value : Type :=
| VNull
| VBool (b : bool)
| VStr (s : string)
| VThis
| VUuid (s : string)                          (* a [java.util.UUID] *)
| VObject (cls : string) (args : list Value). (* the result of [new cls(args)] *)

Definition Env : Type := list (string * Value).

Fixpoint assign (x : string) (v : Value) (env : Env) : Env :=
  match env with
  | [] => [(x, v)]
  | (y, w) :: rest => if String.eqb y x then (x, v) :: rest else (y, w) :: assign x v rest
  end.

(** The builder's slots and the locals of the running method. *)
Record State : Type := mkState {
  slots : Env;
  locals : Env
}.

Inductive Result (A : Type) : Type :=
| Val (a : A)
| Raise (ex : Value)
| Stuck.
Arguments Raise {A} ex.
Arguments Stuck {A}.

Definition isNull (v : Value) : bool :=
  match v with VNull => true | _ => false end.

Section Runtime.

(** What [java.util.UUID] does at run time: which strings
    [UUID.fromString] accepts, the token [UUID.randomUUID] draws, and the
    exception [UUID.fromString] raises on a string it rejects.  The three
    belong to the Java library and are left open. *)
Variable validUUID : string -> bool.
Variable randomUUID : string.
Variable invalidUUID : string -> Value.

Definition callStatic (cls m : string) (args : list Value) : Result Value :=
  if String.eqb cls "UUID" && String.eqb m "fromString" then
    match args with
    | [VStr s] => if validUUID s then Val (VUuid s) else Raise (invalidUUID s)
    | [VNull] => Raise (VObject "NullPointerException" [])
    | _ => Stuck
    end
  else if String.eqb cls "UUID" && String.eqb m "randomUUID" then
    match args with
    | [] => Val (VUuid randomUUID)
    | _ => Stuck
    end
  else Stuck.

Definition callMethod (target : Value) (m : string) (args : list Value) : Result Value :=
  match target, args with
  | VUuid s, [] => if String.eqb m "toString" then Val (VStr s) else Stuck
  | VStr s, [] => if String.eqb m "toString" then Val (VStr s) else Stuck
  | _, _ => Stuck
  end.

Fixpoint eval (st : State) (e : Expr) {struct e} : Result Value :=
  let evalArgs :=
    fix evalArgs (es : list Expr) : Result (list Value) :=
      match es with
      | [] => Val []
      | a :: rest =>
          match eval st a with
          | Val v => match evalArgs rest with
                     | Val vs => Val (v :: vs)
                     | Raise ex => Raise ex
                     | Stuck => Stuck
                     end
          | Raise ex => Raise ex
          | Stuck => Stuck
          end
      end in
  match e with
  | ENull => Val VNull
  | EThis => Val VThis
  | EBool b => Val (VBool b)
  | EStr s => Val (VStr s)
  | EName x =>
      match lookup x (locals st) with
      | Some v => Val v
      | None => match lookup x (slots st) with
                | Some v => Val v
                | None => Stuck
                end
      end
  | EField f =>
      match lookup f (slots st) with
      | Some v => Val v
      | None => Stuck
      end
  | ENe a b =>
      match eval st a with
      | Val va => match eval st b with
                  | Val VNull => Val (VBool (negb (isNull va)))
                  | Val _ => Stuck
                  | Raise ex => Raise ex
                  | Stuck => Stuck
                  end
      | r => r
      end
  | ECond c a b =>
      match eval st c with
      | Val (VBool true) => eval st a
      | Val (VBool false) => eval st b
      | Val _ => Stuck
      | r => r
      end
  | EPlus a b =>
      match eval st a with
      | Val (VStr sa) => match eval st b with
                         | Val (VStr sb) => Val (VStr (sa ++ sb))
                         | Val _ => Stuck
                         | r => r
                         end
      | Val _ => Stuck
      | r => r
      end
  | EStatic cls m args =>
      match evalArgs args with
      | Val vs => callStatic cls m vs
      | Raise ex => Raise ex
      | Stuck => Stuck
      end
  | ECall target m args =>
      match eval st target with
      | Val vt => match evalArgs args with
                  | Val vs => callMethod vt m vs
                  | Raise ex => Raise ex
                  | Stuck => Stuck
                  end
      | r => r
      end
  | ENew cls args =>
      match evalArgs args with
      | Val vs => Val (VObject cls vs)
      | Raise ex => Raise ex
      | Stuck => Stuck
      end
  end.

(** How a statement ends. *)
Inductive Completion : Type :=
| Normal
| Returns (v : Value)
| Throws (ex : Value)
| Wrong.

Definition setSlot (f : string) (v : Value) (st : State) : State :=
  mkState (assign f v (slots st)) (locals st).

Definition setLocal (x : string) (v : Value) (st : State) : State :=
  mkState (slots st) (assign x v (locals st)).

Definition andThen (r : Result Value) (st : State) (k : Value -> Completion * State)
  : Completion * State :=
  match r with
  | Val v => k v
  | Raise ex => (Throws ex, st)
  | Stuck => (Wrong, st)
  end.

Fixpoint exec (s : Stmt) (st : State) {struct s} : Completion * State :=
  let execAll :=
    fix execAll (ss : list Stmt) (st : State) : Completion * State :=
      match ss with
      | [] => (Normal, st)
      | s' :: rest =>
          match exec s' st with
          | (Normal, st') => execAll rest st'
          | r => r
          end
      end in
  match s with
  | SLocal _ x e => andThen (eval st e) st (fun v => (Normal, setLocal x v st))
  | SSet f e => andThen (eval st e) st (fun v => (Normal, setSlot f v st))
  | SDo e => andThen (eval st e) st (fun _ => (Normal, st))
  | STry body _ exVar handler =>
      match execAll body st with
      | (Throws ex, st') => execAll handler (setLocal exVar ex st')
      | r => r
      end
  | SThrow e => andThen (eval st e) st (fun v => (Throws v, st))
  | SReturn e => andThen (eval st e) st (fun v => (Returns v, st))
  end.

Fixpoint run (p : list Stmt) (st : State) : Completion * State :=
  match p with
  | [] => (Normal, st)
  | s :: rest =>
      match exec s st with
      | (Normal, st') => run rest st'
      | r => r
      end
  end.

(** Calling a method of a builder whose slots are [sl], with the
    parameters bound as locals. *)
Definition invoke (body : list Stmt) (params : Env) (sl : Env) : Completion * State :=
  run body (mkState sl params).

End Runtime.

End Java.

(* ================================================================== *)
(** ** The statement trees of [id(String)] and [build()] *)
(* ================================================================== *)

Section EmittedPrograms.

Import Java.

Variable E : Collaborators.

Definition idErrorMessage : string := "Model IDs must be unique in the format of UUID.".

Definition idErrorHintParts : list string :=
  [ "If you are creating a new object, leave ID blank and one will be auto generated for you. ";
    "Otherwise, if you are referencing an existing object, be sure you are getting the correct ";
    "id for it. It's also possible you are referring to an item created outside of Amplify.";
    "It is currently not supported." ].

Definition idErrorHint : string := String.concat "" idErrorHintParts.

(** The tree of [idBuildStepBody]. *)
Definition idSetterProgram : list Stmt :=
  [ SSet "id" (EName "id");
    STry [ SDo (EStatic "UUID" "fromString" [EName "id"]) ]
         "Exception" "exception"
         [ SThrow (ENew "AmplifyException"
                     [ EStr idErrorMessage;
                       EName "exception";
                       EPlus (EPlus (EPlus (EStr (nth 0 idErrorHintParts ""))
                                           (EStr (nth 1 idErrorHintParts "")))
                                    (EStr (nth 2 idErrorHintParts "")))
                             (EStr (nth 3 idErrorHintParts ""));
                       EBool false ]) ];
    SReturn EThis ].

(** The tree of [buildImplementation model]. *)
Definition buildProgram (model : CodeGenModel) : list Stmt :=
  [ SLocal "String" "id"
      (ECond (ENe (EField "id") ENull)
             (EField "id")
             (ECall (EStatic "UUID" "randomUUID" []) "toString" []));
    SReturn (ENew (getModelName E model)
                  (map (fun field => EName (getFieldName E field)) (m_fields model))) ].

End EmittedPrograms.

(* ================================================================== *)
(** ** A sample schema *)
(* ================================================================== *)

Module Sample.

Definition mapFirst (f : ascii -> ascii) (s : string) : string :=
  match s with
  | EmptyString => ""
  | String c rest => String (f c) rest
  end.

Definition upper (c : ascii) : ascii :=
  let n := nat_of_ascii c in
  if Nat.leb 97 n && Nat.leb n 122 then ascii_of_nat (n - 32) else c.

Definition lower (c : ascii) : ascii :=
  let n := nat_of_ascii c in
  if Nat.leb 65 n && Nat.leb n 90 then ascii_of_nat (n + 32) else c.

Fixpoint mapChars (f : ascii -> ascii) (s : string) : string :=
  match s with
  | EmptyString => ""
  | String c rest => String (f c) (mapChars f rest)
  end.

(** The schema scalars mapped to Java types; a date is a qualified type. *)
Definition nativeType (field : CodeGenField) : string :=
  if String.eqb (f_type field) "ID" then "String"
  else if String.eqb (f_type field) "AWSDateTime" then "java.util.Date"
  else f_type field.

Definition header (b : JavaDeclarationBlock) : string :=
  _access b ++ " " ++ _kind b ++ " " ++ _name b.

(** Collaborators that behave like the real ones on one-word names:
    [pascalCase] and [camelCase] change the case of the first letter. *)
Definition collaborators (types selected : CodeGenModelMap) : Collaborators :=
  {| pascalCase := mapFirst upper;
     camelCase := mapFirst lower;
     constantCase := mapChars upper;
     transformComment := fun c => "/** " ++ c ++ " */";
     blockString := header;
     GENERATED_PACKAGE_NAME := "com.amplifyframework.datastore.generated.model";
     LOADER_CLASS_NAME := "AmplifyModelProvider";
     CLASS_IMPORT_PACKAGES := ["java.util.UUID"; "java.util.Objects"];
     LOADER_IMPORT_PACKAGES := ["java.util.Set"];
     config_generate := "";
     typeMap := types;
     getSelectedModels := selected;
     selectedTypeIsEnum := false;
     getSelectedEnums := [];
     getEnumName := e_name;
     computeVersion := "0123456789abcdef";
     getModelName := m_name;
     getFieldName := f_name;
     super_getNativeType := nativeType |}.

Definition field (name type : string) (nullable : bool) : CodeGenField :=
  mkField name type nullable false [].

Definition idField : CodeGenField := field "id" "ID" false.

(** [type Post { id: ID!, title: String!, content: String }] *)
Definition Post : CodeGenModel :=
  mkModel "Post" [mkDirective "model" []]
    [idField; field "title" "String" false; field "content" "String" true].

(** [type Comment { id: ID!, postId: ID!, text: String! }] *)
Definition Comment : CodeGenModel :=
  mkModel "Comment" [mkDirective "model" []]
    [idField; field "postId" "ID" false; field "text" "String" false].

(** [type Note { id: ID!, body: String }]: nothing is required but the
    identity. *)
Definition Note : CodeGenModel :=
  mkModel "Note" [mkDirective "model" []] [idField; field "body" "String" true].

(** [type Draft { summary: String, id: ID!, title: String! }]: an
    optional field declared before the required ones. *)
Definition Draft : CodeGenModel :=
  mkModel "Draft" [mkDirective "model" []]
    [field "summary" "String" true; idField; field "title" "String" false].

(** [type Event { id: ID!, name: String!, startsAt: AWSDateTime! }] *)
Definition Event : CodeGenModel :=
  mkModel "Event" [mkDirective "model" []]
    [idField; field "name" "String" false; field "startsAt" "AWSDateTime" false].

Definition schema : CodeGenModelMap :=
  [("Post", Post); ("Comment", Comment)].

Definition env : Collaborators := collaborators schema schema.

(** The canonical textual form of a UUID: 8-4-4-4-12 hexadecimal digits. *)
Definition isHex (c : ascii) : bool :=
  let n := nat_of_ascii c in
  (Nat.leb 48 n && Nat.leb n 57) || (Nat.leb 65 n && Nat.leb n 70)
  || (Nat.leb 97 n && Nat.leb n 102).

Fixpoint canonicalFrom (pos : nat) (s : string) : bool :=
  match s with
  | EmptyString => Nat.eqb pos 36
  | String c rest =>
      (if Nat.eqb pos 8 || Nat.eqb pos 13 || Nat.eqb pos 18 || Nat.eqb pos 23
       then Ascii.eqb c "-"%char else isHex c)
      && canonicalFrom (S pos) rest
  end.

Definition canonicalUUID (s : string) : bool := canonicalFrom 0 s.

Definition aUUID : string := "123e4567-e89b-12d3-a456-426614174000".

(** An exception for a rejected string, naming the string. *)
Definition invalidUUID (s : string) : Java.Value :=
  Java.VObject "IllegalArgumentException" [Java.VStr ("Invalid UUID string: " ++ s)].

End Sample.

(* ================================================================== *)
(** ** Vocabulary of the statements *)
(* ================================================================== *)

(** [xs.map((x, idx) => g idx x)] without effects. *)
Fixpoint mapi_from {A B : Type} (start : nat) (g : nat -> A -> B) (xs : list A) : list B :=
  match xs with
  | [] => []
  | x :: rest => g start x :: mapi_from (S start) g rest
  end.

Section Vocabulary.

Variable E : Collaborators.

(** The simple type name [getNativeType] answers for a field. *)
Definition nativeTypeName (field : CodeGenField) : string :=
  let nativeType := super_getNativeType E field in
  if includes "." nativeType then last (split "."%char nativeType) "" else nativeType.

(** The import set after [getNativeType] ran on a field. *)
Definition registerType (field : CodeGenField) (pk : Packages) : Packages :=
  let nativeType := super_getNativeType E field in
  if includes "." nativeType then set_add nativeType pk else pk.

(** The filtered required-field list: the non-nullable fields, the
    identity field "id" left out. *)
Definition requiredFields (model : CodeGenModel) : list CodeGenField :=
  filter (fun field => negb (f_isNullable field) && negb (String.eqb (f_name field) "id"))
         (m_fields model).

(** The step interface that follows the [i]-th required field: the next
    field's, and the terminal interface after the last one. *)
Definition nextStepName (required : list CodeGenField) (i : nat) : string :=
  match nth_error required (S i) with
  | Some next => getStepInterfaceName E (f_name next)
  | None => getStepInterfaceName E "Build"
  end.

(** The one method a step interface declares. *)
Definition stepSignature (required : list CodeGenField) (i : nat) (field : CodeGenField)
  : string :=
  nextStepName required i ++ " " ++ getStepFunctionName E field ++ "("
  ++ nativeTypeName field ++ " " ++ getStepFunctionArgumentName E field ++ ");".

(** The declaration of the [i]-th step interface. *)
Definition stepInterfaceDecl (required : list CodeGenField) (i : nat) (field : CodeGenField)
  : JavaDeclarationBlock :=
  Block.withBlock (indent (stepSignature required i field))
    (Block.access "public"
       (Block.withName (getStepInterfaceName E (f_name field))
          (Block.asKind "interface" Block.new))).

(** *** The builder class, member by member *)

Definition builderSlot (field : CodeGenField) : ClassMember :=
  mkMember (getFieldName E field) (nativeTypeName field) "" [] "private" noFlags.

(** [builder()], entering the chain at the step of [first]. *)
Definition builderEntry (first : string) : ClassMethod :=
  mkMethod "builder" (Some (getStepInterfaceName E first))
    (indentMultiline "return new Builder();") [] [] "public" flags_static [] [] "".

Definition buildMethod (model : CodeGenModel) : ClassMethod :=
  mkMethod "build" (Some (getModelName E model))
    (indentMultiline (join nl (buildImplementation E model))) [] [] "public" noFlags
    ["Override"] [] "".

Definition stepMethod (required : list CodeGenField) (i : nat) (field : CodeGenField)
  : ClassMethod :=
  mkMethod (getStepFunctionName E field) (Some (nextStepName required i))
    (indentMultiline
       (join nl [ "Objects.requireNonNull(" ++ getFieldName E field ++ ");";
                  "this." ++ getFieldName E field ++ " = "
                  ++ getStepFunctionArgumentName E field ++ ";";
                  "return this;" ]))
    [mkArg (getStepFunctionArgumentName E field) (nativeTypeName field)] [] "public" noFlags
    ["Override"] [] "".

Definition optionalMethod (field : CodeGenField) : ClassMethod :=
  mkMethod (getStepFunctionName E field) (Some (getStepInterfaceName E "Build"))
    (indentMultiline
       (join nl [ "this." ++ getFieldName E field ++ " = "
                  ++ getStepFunctionArgumentName E field ++ ";";
                  "return this;" ]))
    [mkArg (getStepFunctionArgumentName E field) (nativeTypeName field)] [] "public" noFlags
    ["Override"] [] "".

Definition idMethod : ClassMethod :=
  mkMethod "id" (Some (getStepInterfaceName E "Build")) (indentMultiline idBuildStepBody)
    [mkArg "id" "String"] [] "public" noFlags [] ["AmplifyException"] idComment.

(** The order in which the builder declares its slots. *)
Definition builderSlotFields (model : CodeGenModel) : list CodeGenField :=
  (nonNullableFieldsOf model ++ nullableFieldsOf model)%list.

(** The [Builder] class of a model whose chain starts at [first]. *)
Definition builderClassOf (model : CodeGenModel) (first : string) : JavaDeclarationBlock :=
  mkBlock "class" "Builder" "public" false true
    (map (fun field => getStepInterfaceName E (f_name field)) (requiredFields model)
     ++ [getStepInterfaceName E "Build"])%list
    [] "" ""
    (map builderSlot (builderSlotFields model))
    ([builderEntry first; buildMethod model]
     ++ mapi_from 0 (stepMethod (requiredFields model)) (requiredFields model)
     ++ map optionalMethod (nullableFieldsOf model)
     ++ [idMethod])%list
    [].

(** The lines of the [return] statement of [equals]: the first conjunct
    follows [return], every further conjunct has a line of its own. *)
Definition equalsReturnLines (checks : list string) : list string :=
  match punctuate " &&" ";" checks with
  | [] => []
  | p :: ps => ("return " ++ p) :: map (indentN 4) ps
  end.

(** The lines of [equals] before the [return] statement. *)
Definition equalsHeadLines (model : CodeGenModel) : list string :=
  [ "if (this == obj) {";
    "  return true;";
    "} else if(obj == null || getClass() != obj.getClass()) {";
    "  return false;";
    "} else {";
    getModelName E model ++ " " ++ camelCase E (m_name model) ++ " = ("
    ++ getModelName E model ++ ") obj;" ].

(** A text that starts with a visible character. *)
Definition startsVisible (s : string) : bool :=
  match s with
  | EmptyString => false
  | String c _ => negb (isSpace c)
  end.

(** The import set after [getNativeType] ran on each field of a list. *)
Definition registerTypes (fields : list CodeGenField) (pk : Packages) : Packages :=
  fold_left (fun p field => registerType field p) fields pk.

End Vocabulary.

(** *** The emitted statements at run time *)

(** The error [id(String)] raises when [UUID.fromString] fails with
    [cause]. *)
Definition malformedIdError (cause : Java.Value) : Java.Value :=
  Java.VObject "AmplifyException"
    [ Java.VStr idErrorMessage; cause; Java.VStr idErrorHint; Java.VBool false ].

(** A text made of word characters, and a non-empty one. *)
Fixpoint allWordChars (s : string) : bool :=
  match s with
  | EmptyString => true
  | String c rest => Java.isWordChar c && allWordChars rest
  end.

Definition isWord (s : string) : bool :=
  match s with
  | EmptyString => false
  | _ => allWordChars s
  end.

(** The argument lines of the constructor call in [build()]. *)
Definition argumentLines (names : list string) : list string :=
  map (fun p => indentN 1 (indentN 1 p)) (punctuate "," ");" names).

(** The value of a builder slot. *)
Definition slotValue (sl : Java.Env) (x : string) : Java.Value :=
  match lookup x sl with
  | Some v => v
  | None => Java.VNull
  end.

(** The argument [build()] passes for a slot: the identity is replaced by
    a fresh token when it is null, every other slot is passed as it is. *)
Definition buildArgument (randomUUID : string) (sl : Java.Env) (x : string) : Java.Value :=
  if String.eqb "id" x then
    (if Java.isNull (slotValue sl "id") then Java.VStr randomUUID else slotValue sl "id")
  else slotValue sl x.

(** *** Objects of an emitted class *)

(** The slots of an object of an emitted class: one per declared member,
    in the order of the declarations. *)
Definition slotNames (cls : JavaDeclarationBlock) : list string :=
  map member_name (_members cls).

Fixpoint sameNames (xs ys : list string) : bool :=
  match xs, ys with
  | [], [] => true
  | x :: xs', y :: ys' => String.eqb x y && sameNames xs' ys'
  | _, _ => false
  end.

(** [sl] is the state of an object of [cls]: it holds exactly the slots the
    class declares. *)
Definition instanceOf (cls : JavaDeclarationBlock) (sl : Java.Env) : bool :=
  sameNames (keys sl) (slotNames cls).

(** A Java argument of type [String]: [None] is [null]. *)
Definition stringArgument (a : option string) : Java.Value :=
  match a with
  | Some s => Java.VStr s
  | None => Java.VNull
  end.

(** *** Connection arguments *)

(** The rendered argument list holds an argument for [key]. *)
Definition rendersArgument (key : string) (rendered : list string) : bool :=
  existsb (String.prefix (key ++ " = ")) rendered.

(** [key in arguments] *)
Definition present (key : string) (arguments : DirectiveArgs) : bool :=
  mem key (keys arguments).

(** The string arguments rendered for the keys of a directive. *)
Definition stringArgsOf (arguments : DirectiveArgs) (ks : list string) : list string :=
  flat_map (fun argName =>
              if mem argName connectionStringKeys
              then [argName ++ " = " ++ quoted (toString (lookup argName arguments))]
              else [])
           ks.

(** *** The loader's [models()] *)

(** The text of [models()] before and after the class list. *)
Definition modelsPrefix : string :=
  "final Set<Class<? extends Model>> modifiableSet = new HashSet<>(" ++ nl
  ++ "      Arrays.<Class<? extends Model>>asList(".

Definition modelsSuffix : string :=
  ")" ++ nl ++ "    );" ++ nl ++ nl ++ "    return Immutable.of(modifiableSet);" ++ nl ++ "    ".

(** The tokens of one class reference, [Name.class]. *)
Definition classReference (name : string) : list Java.Token :=
  [Java.TWord name; Java.sym "."; Java.TWord "class"].

(** The same collaborators with another selection of models. *)
Definition withSelection (selected : CodeGenModelMap) (E : Collaborators) : Collaborators :=
  {| pascalCase := pascalCase E;
     camelCase := camelCase E;
     constantCase := constantCase E;
     transformComment := transformComment E;
     blockString := blockString E;
     GENERATED_PACKAGE_NAME := GENERATED_PACKAGE_NAME E;
     LOADER_CLASS_NAME := LOADER_CLASS_NAME E;
     CLASS_IMPORT_PACKAGES := CLASS_IMPORT_PACKAGES E;
     LOADER_IMPORT_PACKAGES := LOADER_IMPORT_PACKAGES E;
     config_generate := config_generate E;
     typeMap := typeMap E;
     getSelectedModels := selected;
     selectedTypeIsEnum := selectedTypeIsEnum E;
     getSelectedEnums := getSelectedEnums E;
     getEnumName := getEnumName E;
     computeVersion := computeVersion E;
     getModelName := getModelName E;
     getFieldName := getFieldName E;
     super_getNativeType := super_getNativeType E |}.

(** *** The import set *)

Section ImportSetVocabulary.

Variable E : Collaborators.

(** [x] is the qualified native type of one of the fields. *)
Definition qualifiedTypeOf (fields : list CodeGenField) (x : string) : Prop :=
  exists field,
    In field fields /\ super_getNativeType E field = x /\ includes "." x = true.

(** From [pk] to [pk']: nothing was removed, and what was added is the
    qualified native type of one of the fields. *)
Definition Grows (fields : list CodeGenField) (pk pk' : Packages) : Prop :=
  (forall x, In x pk -> In x pk')
  /\ (forall x, In x pk' -> In x pk \/ qualifiedTypeOf fields x).

(** A computation that only registers qualified types of the fields. *)
Definition Registers (fields : list CodeGenField) {A : Type} (c : Gen A) : Prop :=
  forall pk, Grows fields pk (snd (c pk)).

End ImportSetVocabulary.

(** *** The members of a model class *)

Section ClassVocabulary.

Variable E : Collaborators.

(** The query constant [generateQueryFields] adds for a field. *)
Definition queryMember (field : CodeGenField) : ClassMember :=
  mkMember (constantCase E (f_name field)) "QueryField"
    ("field(" ++ quoted (getFieldName E field) ++ ")") [] "public" flags_final_static.

(** The data member [generateField] adds for a field. *)
Definition dataMember (field : CodeGenField) : ClassMember :=
  mkMember (getFieldName E field) (nativeTypeName E field) ""
    (generateFieldAnnotations field) "private" flags_final.

(** The getter [generateGetters] adds for a field. *)
Definition getterMethod (field : CodeGenField) : ClassMethod :=
  mkMethod (getFieldGetterName E field) (Some (nativeTypeName E field))
    (indent ("return " ++ getFieldName E field ++ ";")) [] [] "public" noFlags [] [] "".

(** One assignment of the constructor's body. *)
Definition constructorAssignment (field : CodeGenField) : string :=
  "this." ++ getFieldName E field ++ " = " ++ getFieldName E field ++ ";".

Definition constructorArgument (field : CodeGenField) : MethodArgument :=
  mkArg (getFieldName E field) (nativeTypeName E field).

Definition constructorMethod (model : CodeGenModel) : ClassMethod :=
  mkMethod (getModelName E model) None
    (join nl (map constructorAssignment (m_fields model)))
    (map constructorArgument (m_fields model)) [] "private" noFlags [] [] "".

(** The setter the terminal interface declares for an optional field. *)
Definition optionalSignature (field : CodeGenField) : string :=
  getStepInterfaceName E "Build" ++ " " ++ getFieldName E field ++ "("
  ++ nativeTypeName E field ++ " " ++ getFieldName E field ++ ");".

(** The method signatures of the terminal interface. *)
Definition terminalSignatures (model : CodeGenModel) : list string :=
  (getModelName E model ++ " build();")
    :: (getStepInterfaceName E "Build" ++ " id(String id) throws AmplifyException;")
    :: map optionalSignature (nullableFieldsOf model).

Definition terminalInterface (model : CodeGenModel) : JavaDeclarationBlock :=
  Block.withBlock (indentMultiline (join nl (terminalSignatures model)))
    (Block.access "public"
       (Block.withName (getStepInterfaceName E "Build")
          (Block.asKind "interface" Block.new))).

(** The signature a builder method implements, read off its record. *)
Definition signatureOf (m : ClassMethod) : string :=
  match method_returnType m, method_args m with
  | Some returnType, [a] =>
      returnType ++ " " ++ method_name m ++ "(" ++ arg_type a ++ " " ++ arg_name a ++ ");"
  | _, _ => ""
  end.

End ClassVocabulary.

(** *** Model annotations *)

(** Every "key" directive carries an array of fields. *)
Definition keyDirectivesWellFormed (model : CodeGenModel) : bool :=
  forallb (fun d => String.eqb (d_name d) "model"
                    || negb (String.eqb (d_name d) "key")
                    || isArray (lookup "fields" (d_arguments d)))
          (m_directives model).

(** A directive the model annotations render. *)
Definition isModelOrKey (d : CodeGenDirective) : bool :=
  String.eqb (d_name d) "model" || String.eqb (d_name d) "key".

(** The annotation of one model directive with well-formed arguments. *)
Definition modelAnnotationOf (model : CodeGenModel) (d : CodeGenDirective) : string :=
  if String.eqb (d_name d) "model" then
    "ModelConfig(targetName = " ++ quoted (m_name model) ++ ")"
  else if String.eqb (d_name d) "key" then
    match lookup "fields" (d_arguments d) with
    | Some (AList l) =>
        "Index(" ++ join ", " [ "name = " ++ quoted (toString (lookup "name" (d_arguments d)));
                                "fields = {" ++ join "," (map quoted l) ++ "}" ] ++ ")"
    | _ => ""
    end
  else "".

(** *** The class of a model *)

Section ClassShape.

Variable E : Collaborators.

(** The nested types of a model class whose chain starts at [first]: the
    step interfaces, the terminal interface, the builder. *)
Definition nestedTypesOf (model : CodeGenModel) (first : string) : list JavaDeclarationBlock :=
  (mapi_from 0 (stepInterfaceDecl E (requiredFields model)) (requiredFields model)
   ++ [terminalInterface E model; builderClassOf E model first])%list.

(** The import set after the class of a model was emitted. *)
Definition registeredByClass (model : CodeGenModel) (pk : Packages) : Packages :=
  registerTypes E (m_fields model)
    (registerTypes E (m_fields model)
       (registerTypes E (nullableFieldsOf model)
          (registerTypes E (requiredFields model)
             (registerTypes E (builderSlotFields model)
                (registerTypes E (nullableFieldsOf model)
                   (registerTypes E (requiredFields model)
                      (registerTypes E (m_fields model) pk))))))).

End ClassShape.

(** A model whose class can be emitted: its "key" directives are well
    formed and a required field is left once the identity is set aside. *)
Definition emittable (model : CodeGenModel) : bool :=
  keyDirectivesWellFormed model && negb (Nat.eqb (length (requiredFields model)) 0).

(** *** Enums and field annotations *)

(** The declaration [generateEnums] renders for one enum. *)
Definition enumDeclarationOf (E : Collaborators) (enumValue : CodeGenEnum)
  : JavaDeclarationBlock :=
  Block.withBlock (indentMultiline (join ("," ++ nl) (values (e_values enumValue))))
    (Block.withComment "Auto generated enum from GraphQL schema."
       (Block.annotate ["SuppressWarnings(" ++ quoted "all" ++ ")"]
          (Block.withName (getEnumName E enumValue)
             (Block.access "public" (Block.asKind "enum" Block.new))))).

Definition isConnection (d : CodeGenDirective) : bool :=
  String.eqb (d_name d) "connection".

(** The field-metadata annotation every field receives. *)
Definition modelFieldAnnotation (field : CodeGenField) : string :=
  "ModelField(targetName=" ++ quoted (f_name field) ++ ", targetType="
  ++ quoted (f_type field)
  ++ (if f_isNullable field then "" else ", isRequired = true") ++ ")".

(* ================================================================== *)
(** * Properties *)
(* ================================================================== *)

(* ================================================================== *)
(** ** Facts about lines of text *)
(* ================================================================== *)

Section TextFacts.

Lemma nl_free_app (a b : string) :
  nl_free (a ++ b) = nl_free a && nl_free b.
Proof.
  unfold nl_free. induction a as [|c a IH]; simpl; [reflexivity|].
  destruct (Ascii.eqb c nl_char); simpl; [reflexivity|]. exact IH.
Qed.

Lemma nl_free_indentation (n : nat) : nl_free (indentation n) = true.
Proof.
  induction n as [|n IH]; [reflexivity|].
  change (indentation (S n)) with ("  " ++ indentation n).
  now rewrite nl_free_app, IH.
Qed.

Lemma nl_free_indentN (n : nat) (s : string) : nl_free (indentN n s) = nl_free s.
Proof.
  unfold indentN. now rewrite nl_free_app, nl_free_indentation.
Qed.

Lemma string_app_assoc (a b c : string) : (a ++ b) ++ c = a ++ (b ++ c).
Proof.
  induction a as [|x a IH]; simpl; [reflexivity|]. now rewrite IH.
Qed.

Lemma string_app_nil_r (a : string) : a ++ "" = a.
Proof.
  induction a as [|x a IH]; simpl; [reflexivity|]. now rewrite IH.
Qed.

(** A text without line feed is one line. *)
Lemma lines_one (x : string) : nl_free x = true -> lines x = [x].
Proof.
  unfold lines, nl_free. induction x as [|c x IH]; [reflexivity|].
  cbn [includes_char split]. destruct (Ascii.eqb c nl_char); cbn [orb negb]; [discriminate|].
  intros H. now rewrite (IH H).
Qed.

(** A first line is cut at the first line feed. *)
Lemma lines_cons (x rest : string) :
  nl_free x = true -> lines (x ++ nl ++ rest) = x :: lines rest.
Proof.
  unfold lines, nl_free. induction x as [|c x IH].
  - intros _. reflexivity.
  - change (String c x ++ nl ++ rest) with (String c (x ++ nl ++ rest)).
    cbn [includes_char split]. destruct (Ascii.eqb c nl_char); cbn [orb negb]; [discriminate|].
    intros H. now rewrite (IH H).
Qed.

Lemma lines_join (x : string) (xs : list string) :
  forallb nl_free (x :: xs) = true -> lines (join nl (x :: xs)) = x :: xs.
Proof.
  revert x; induction xs as [|y ys IH]; intros x H.
  - simpl in *. apply lines_one. now rewrite andb_true_r in H.
  - change (join nl (x :: y :: ys)) with (x ++ nl ++ join nl (y :: ys)).
    simpl in H. apply andb_true_iff in H as [Hx H].
    rewrite (lines_cons _ _ Hx). f_equal. now apply IH.
Qed.

Lemma replace_nl_app (by_ a b : string) :
  replace_nl by_ (a ++ b) = replace_nl by_ a ++ replace_nl by_ b.
Proof.
  induction a as [|c a IH]; simpl; [reflexivity|].
  destruct (Ascii.eqb c nl_char); rewrite IH; [|reflexivity].
  now rewrite string_app_assoc.
Qed.

Lemma replace_nl_free (by_ a : string) : nl_free a = true -> replace_nl by_ a = a.
Proof.
  unfold nl_free. induction a as [|c a IH]; simpl; [reflexivity|].
  destruct (Ascii.eqb c nl_char); simpl; [discriminate|].
  intros H. now rewrite (IH H).
Qed.

Lemma replace_nl_nl (by_ : string) : replace_nl by_ nl = by_.
Proof.
  simpl. apply string_app_nil_r.
Qed.

(** Indenting a text indents each of its lines. *)
Lemma indentMultilineN_join (n : nat) (x : string) (xs : list string) :
  forallb nl_free (x :: xs) = true ->
  indentMultilineN n (join nl (x :: xs)) = join nl (map (indentN n) (x :: xs)).
Proof.
  unfold indentMultilineN.
  revert x; induction xs as [|y ys IH]; intros x H.
  - simpl in *. rewrite andb_true_r in H. now rewrite (replace_nl_free _ _ H).
  - change (join nl (x :: y :: ys)) with (x ++ nl ++ join nl (y :: ys)).
    simpl in H. apply andb_true_iff in H as [Hx H].
    rewrite !replace_nl_app, replace_nl_nl, (replace_nl_free _ _ Hx).
    change (map (indentN n) (x :: y :: ys))
      with (indentN n x :: map (indentN n) (y :: ys)).
    change (join nl (indentN n x :: map (indentN n) (y :: ys)))
      with (indentN n x ++ nl ++ join nl (map (indentN n) (y :: ys))).
    rewrite <- (IH y H). unfold indentN.
    now rewrite !string_app_assoc.
Qed.

Lemma forallb_nl_free_indent (n : nat) (xs : list string) :
  forallb nl_free (map (indentN n) xs) = forallb nl_free xs.
Proof.
  induction xs as [|x xs IH]; simpl; [reflexivity|].
  now rewrite nl_free_indentN, IH.
Qed.

(** Joining with a separator that ends a line, and closing the last line. *)
Lemma join_punctuate (sep last : string) (xs : list string) :
  join (sep ++ nl) xs ++ last = join nl (punctuate sep last xs).
Proof.
  induction xs as [|x [|y ys] IH]; try reflexivity.
  change (join (sep ++ nl) (x :: y :: ys)) with (x ++ (sep ++ nl) ++ join (sep ++ nl) (y :: ys)).
  change (punctuate sep last (x :: y :: ys)) with ((x ++ sep) :: punctuate sep last (y :: ys)).
  assert (Hne : exists p ps, punctuate sep last (y :: ys) = p :: ps).
  { destruct ys; simpl; eauto. }
  destruct Hne as (p & ps & Hp). rewrite Hp in *.
  change (join nl ((x ++ sep) :: p :: ps)) with ((x ++ sep) ++ nl ++ join nl (p :: ps)).
  rewrite <- IH. now rewrite !string_app_assoc.
Qed.

Lemma punctuate_nl_free (sep last : string) (xs : list string) :
  nl_free sep = true -> nl_free last = true -> forallb nl_free xs = true ->
  forallb nl_free (punctuate sep last xs) = true.
Proof.
  intros Hs Hl. induction xs as [|x [|y ys] IH]; intros H.
  - simpl. now rewrite Hl.
  - simpl in *. rewrite andb_true_r in *. now rewrite nl_free_app, H, Hl.
  - change (punctuate sep last (x :: y :: ys)) with ((x ++ sep) :: punctuate sep last (y :: ys)).
    simpl in H. apply andb_true_iff in H as [Hx H].
    change (forallb nl_free ((x ++ sep) :: punctuate sep last (y :: ys)))
      with (nl_free (x ++ sep) && forallb nl_free (punctuate sep last (y :: ys))).
    rewrite nl_free_app, Hx, Hs. simpl. apply IH. exact H.
Qed.

Lemma lines_not_nil (s : string) : lines s <> [].
Proof.
  unfold lines. induction s as [|c s IH]; [discriminate|].
  cbn [split]. destruct (Ascii.eqb c nl_char); [discriminate|].
  destruct (split nl_char s); [contradiction|discriminate].
Qed.

(** The lines of two texts put on consecutive lines. *)
Lemma lines_app_nl (a b : string) : lines (a ++ nl ++ b) = (lines a ++ lines b)%list.
Proof.
  unfold lines. induction a as [|c a IH]; [reflexivity|].
  change (String c a ++ nl ++ b) with (String c (a ++ nl ++ b)).
  cbn [split]. destruct (Ascii.eqb c nl_char).
  - now rewrite IH.
  - rewrite IH. pose proof (lines_not_nil a) as Hne. unfold lines in Hne.
    destruct (split nl_char a); [contradiction|reflexivity].
Qed.

Lemma lines_join_flat (x : string) (xs : list string) :
  lines (join nl (x :: xs)) = flat_map lines (x :: xs).
Proof.
  revert x; induction xs as [|y ys IH]; intros x.
  - cbn [join flat_map]. now rewrite app_nil_r.
  - change (join nl (x :: y :: ys)) with (x ++ nl ++ join nl (y :: ys)).
    rewrite lines_app_nl, IH. reflexivity.
Qed.

Lemma nl_free_snoc (p : string) (c : ascii) :
  nl_free p = true -> Ascii.eqb c nl_char = false -> nl_free (p ++ String c "") = true.
Proof.
  intros Hp Hc. rewrite nl_free_app, Hp. unfold nl_free. cbn [includes_char].
  now rewrite Hc.
Qed.

(** The lines of a text with every line feed followed by [ind], after a
    prefix [p]. *)
Lemma lines_replace_nl (ind : string) (s : string) :
  nl_free ind = true ->
  forall p : string, nl_free p = true ->
    lines (p ++ replace_nl (nl ++ ind) s)
    = match lines s with
      | [] => []
      | h :: t => (p ++ h) :: map (append ind) t
      end.
Proof.
  intros Hind. induction s as [|c s IH]; intros p Hp.
  - cbn [replace_nl]. change (lines "") with [""]. cbn [map].
    rewrite string_app_nil_r. now apply lines_one.
  - cbn [replace_nl]. unfold lines at 2. cbn [split]. fold (lines s).
    destruct (Ascii.eqb c nl_char) eqn:Hc.
    + rewrite string_app_assoc, (lines_cons _ _ Hp), (IH ind Hind).
      rewrite string_app_nil_r.
      pose proof (lines_not_nil s) as Hne. destruct (lines s); [contradiction|reflexivity].
    + change (p ++ String c (replace_nl (nl ++ ind) s))
        with (p ++ (String c "" ++ replace_nl (nl ++ ind) s)).
      rewrite <- string_app_assoc, (IH _ (nl_free_snoc _ _ Hp Hc)).
      pose proof (lines_not_nil s) as Hne. destruct (lines s); [contradiction|].
      now rewrite string_app_assoc.
Qed.

(** Indenting a text indents each of its lines. *)
Lemma lines_indentMultiline (n : nat) (s : string) :
  lines (indentMultilineN n s) = map (indentN n) (lines s).
Proof.
  unfold indentMultilineN.
  rewrite (lines_replace_nl _ s (nl_free_indentation n) _ (nl_free_indentation n)).
  pose proof (lines_not_nil s) as Hne. destruct (lines s); [contradiction|reflexivity].
Qed.

End TextFacts.

(* ================================================================== *)
(** ** Facts about the generator monad *)
(* ================================================================== *)

Lemma mapi_from_length {A B : Type} (g : nat -> A -> B) (xs : list A) (start : nat) :
  length (mapi_from start g xs) = length xs.
Proof.
  revert start; induction xs as [|x rest IH]; intros start; simpl; [reflexivity|].
  now rewrite IH.
Qed.

Lemma mapi_from_nth {A B : Type} (g : nat -> A -> B) (xs : list A) (start i : nat) :
  nth_error (mapi_from start g xs) i = option_map (g (start + i)) (nth_error xs i).
Proof.
  revert start i; induction xs as [|x rest IH]; intros start [|i]; simpl; try reflexivity.
  - now rewrite Nat.add_0_r.
  - rewrite IH. now rewrite Nat.add_succ_r.
Qed.

(** A callback that returns at every index it is called with makes
    [mapiM_from] return the list of its results. *)
Lemma mapiM_from_returns {A B : Type} (f : A -> nat -> Gen B) (g : nat -> A -> B)
    (xs : list A) :
  forall (start : nat) (pk : Packages),
    (forall i x pk', nth_error xs i = Some x -> fst (f x (start + i) pk') = Returned (g (start + i) x)) ->
    fst (mapiM_from start f xs pk) = Returned (mapi_from start g xs).
Proof.
  induction xs as [|x rest IH]; intros start pk H; simpl; [reflexivity|].
  unfold bind.
  pose proof (H 0 x pk eq_refl) as H0. rewrite Nat.add_0_r in H0.
  destruct (f x start pk) as [[y|e] pk1]; simpl in H0; [|discriminate].
  injection H0 as ->.
  assert (IH' : fst (mapiM_from (S start) f rest pk1) = Returned (mapi_from (S start) g rest)).
  { apply IH. intros i x' pk' Hi.
    rewrite Nat.add_succ_l, <- Nat.add_succ_r. now apply (H (S i)). }
  destruct (mapiM_from (S start) f rest pk1) as [[ys|e] pk2]; simpl in *; [|discriminate].
  now injection IH' as ->.
Qed.

(** A loop whose rounds push one item each onto the accumulator and
    register one field each pushes the items in order. *)
Lemma foldiM_from_pushes {A B St : Type} (push : B -> St -> St) (f : St -> A -> nat -> Gen St)
    (item : nat -> A -> B) (reg : A -> Packages -> Packages) (xs : list A) :
  forall (start : nat) (acc : St) (pk : Packages),
    (forall i x acc' pk', nth_error xs i = Some x ->
       f acc' x (start + i) pk' = (Returned (push (item (start + i) x) acc'), reg x pk')) ->
    foldiM_from start f xs acc pk
    = (Returned (fold_left (fun s y => push y s) (mapi_from start item xs) acc),
       fold_left (fun p x => reg x p) xs pk).
Proof.
  induction xs as [|x rest IH]; intros start acc pk H; simpl; [reflexivity|].
  unfold bind. pose proof (H 0 x acc pk eq_refl) as H0. rewrite Nat.add_0_r in H0.
  rewrite H0. apply IH. intros i x' acc' pk' Hi.
  rewrite Nat.add_succ_l, <- Nat.add_succ_r. now apply (H (S i)).
Qed.

Lemma mapi_from_const {A B : Type} (g : A -> B) (xs : list A) (start : nat) :
  mapi_from start (fun _ x => g x) xs = map g xs.
Proof.
  revert start; induction xs as [|x rest IH]; intros start; simpl; [reflexivity|].
  now rewrite IH.
Qed.

(** A loop body that always returns makes the whole loop return. *)
Lemma foldiM_from_returns {A St : Type} (f : St -> A -> nat -> Gen St) (xs : list A) :
  (forall acc x i pk, exists acc', fst (f acc x i pk) = Returned acc') ->
  forall (start : nat) (acc : St) (pk : Packages),
    exists acc', fst (foldiM_from start f xs acc pk) = Returned acc'.
Proof.
  intros H. induction xs as [|x rest IH]; intros start acc pk; simpl.
  - now exists acc.
  - unfold bind. destruct (H acc x start pk) as [acc1 H1].
    destruct (f acc x start pk) as [[a|e] pk1]; simpl in H1; [|discriminate].
    apply IH.
Qed.

(* ================================================================== *)
(** ** The step-interface chain *)
(* ================================================================== *)

Section StepChain.

Variable E : Collaborators.

Lemma getNativeType_returns (field : CodeGenField) (pk : Packages) :
  getNativeType E field pk = (Returned (nativeTypeName E field), registerType E field pk).
Proof.
  unfold getNativeType, nativeTypeName, registerType, ret.
  now destruct (includes "." (super_getNativeType E field)).
Qed.

Lemma mem_read_only (name : string) :
  mem name READ_ONLY_FIELDS = String.eqb name "id".
Proof.
  unfold mem, READ_ONLY_FIELDS; simpl. now rewrite orb_false_r.
Qed.

(** The source's two filters select the filtered required-field list. *)
Lemma stepFieldsOf_required (model : CodeGenModel) :
  stepFieldsOf model = requiredFields model.
Proof.
  unfold stepFieldsOf, nonNullableFieldsOf, requiredFields.
  induction (m_fields model) as [|f rest IH]; cbn [filter]; [reflexivity|].
  destruct (f_isNullable f); cbn [negb andb filter]; [exact IH|].
  rewrite mem_read_only. destruct (String.eqb (f_name f) "id"); cbn [negb]; now rewrite IH.
Qed.

Lemma isLast_spec {A : Type} (xs : list A) (i : nat) (x : A) :
  nth_error xs i = Some x ->
  isLast xs i = match nth_error xs (S i) with Some _ => false | None => true end.
Proof.
  intros Hi. unfold isLast.
  assert (Hlt : i < length xs) by (apply nth_error_Some; congruence).
  destruct (nth_error xs (S i)) eqn:Hn.
  - assert (S i < length xs) by (apply nth_error_Some; congruence).
    apply Z.eqb_neq. lia.
  - apply nth_error_None in Hn. apply Z.eqb_eq. lia.
Qed.

(** One round of the interface loop returns the declaration of its step. *)
Lemma stepInterface_round (all : list CodeGenField) (i : nat) (field : CodeGenField)
    (pk : Packages) :
  nth_error all i = Some field ->
  fst ((returnType <- (if isLast all i then ret "Build" else nameAt all (i + 1)) ;;
        argumentType <- getNativeType E field ;;
        ret (Block.withBlock
               (indent (getStepInterfaceName E returnType ++ " " ++ getStepFunctionName E field
                        ++ "(" ++ argumentType ++ " " ++ getStepFunctionArgumentName E field
                        ++ ");"))
               (Block.access "public"
                  (Block.withName (getStepInterfaceName E (f_name field))
                     (Block.asKind "interface" Block.new))))) pk)
  = Returned (stepInterfaceDecl E all i field).
Proof.
  intros Hi. rewrite (isLast_spec _ _ Hi).
  unfold stepInterfaceDecl, stepSignature, nextStepName, nameAt.
  rewrite Nat.add_1_r.
  destruct (nth_error all (S i)) as [next|]; unfold bind, ret;
    rewrite getNativeType_returns; reflexivity.
Qed.

Lemma generateStepBuilderInterfaces_returns (model : CodeGenModel) (pk : Packages) :
  exists terminal,
    fst (generateStepBuilderInterfaces E model pk)
    = Returned (mapi_from 0 (stepInterfaceDecl E (requiredFields model)) (requiredFields model)
                ++ [terminal])%list
    /\ _kind terminal = "interface"
    /\ _name terminal = getStepInterfaceName E "Build"
    /\ _access terminal = "public".
Proof.
  unfold generateStepBuilderInterfaces. rewrite stepFieldsOf_required.
  set (required := requiredFields model).
  unfold bind at 1.
  match goal with |- context [mapiM ?f required pk] =>
    pose proof (@mapiM_from_returns _ _ f (stepInterfaceDecl E required) required 0 pk) as Hmap
  end.
  unfold mapiM.
  match type of Hmap with ?P -> _ => assert (Hround : P) end.
  { intros i x pk' Hi. simpl. now apply stepInterface_round. }
  specialize (Hmap Hround). clear Hround.
  match goal with |- context [mapiM_from 0 ?f required pk] =>
    destruct (mapiM_from 0 f required pk) as [[interfaces|e] pk1]
  end; simpl in Hmap; [|discriminate].
  injection Hmap as ->.
  unfold bind at 1.
  match goal with |- context [foldM ?f ?xs ?a0 pk1] =>
    destruct (fun H => @foldiM_from_returns _ _ (fun s x (_ : nat) => f s x) xs H 0 a0 pk1)
      as [body Hbody]
  end.
  { intros acc x i pk'. unfold bind. rewrite getNativeType_returns. simpl. eauto. }
  unfold foldM, foldiM.
  match goal with |- context [foldiM_from 0 ?f ?xs ?acc pk1] =>
    destruct (foldiM_from 0 f xs acc pk1) as [[body'|e] pk2]
  end; simpl in Hbody; [|discriminate].
  eexists. split; [reflexivity|]. simpl. auto.
Qed.

(** C1.  For a model whose filtered required-field list (the non-nullable
    fields, "id" left out) has k entries, [generateStepBuilderInterfaces]
    returns k step interfaces followed by the terminal "Build" interface.
    The i-th step interface is named after field i, "I" + PascalCase(name)
    + "Step", and its block is one method signature: the method is named
    after field i (camelCase(name)), takes that field's value under the
    same name, and its return type is the step interface of field i+1, or
    the terminal interface "I" + PascalCase("Build") + "Step" when field i
    is the last.  (It holds for every k, so for every k >= 1.) *)
Theorem C1_step_interface_chain (model : CodeGenModel) (pk : Packages) :
  exists decls : list JavaDeclarationBlock,
    fst (generateStepBuilderInterfaces E model pk) = Returned decls
    /\ length decls = length (requiredFields model) + 1
    /\ (forall (i : nat) (field : CodeGenField),
          nth_error (requiredFields model) i = Some field ->
          exists d,
            nth_error decls i = Some d
            /\ _kind d = "interface"
            /\ _name d = "I" ++ pascalCase E (f_name field) ++ "Step"
            /\ _block d
               = indent ("I" ++ pascalCase E
                                  (match nth_error (requiredFields model) (S i) with
                                   | Some next => f_name next
                                   | None => "Build"
                                   end) ++ "Step"
                         ++ " " ++ camelCase E (f_name field) ++ "("
                         ++ nativeTypeName E field ++ " "
                         ++ camelCase E (f_name field) ++ ");")
            /\ _methods d = [] /\ _members d = [] /\ _nestedClasses d = [])
    /\ (exists terminal,
          nth_error decls (length (requiredFields model)) = Some terminal
          /\ _kind terminal = "interface"
          /\ _name terminal = "I" ++ pascalCase E "Build" ++ "Step").
Proof.
  destruct (generateStepBuilderInterfaces_returns model pk)
    as (terminal & Hret & Hkind & Hname & _).
  set (required := requiredFields model) in *.
  exists (mapi_from 0 (stepInterfaceDecl E required) required ++ [terminal])%list.
  split; [exact Hret|]. split; [|split].
  - rewrite length_app, mapi_from_length. reflexivity.
  - intros i field Hi.
    exists (stepInterfaceDecl E required i field). split.
    + rewrite nth_error_app1.
      * rewrite mapi_from_nth, Hi. reflexivity.
      * rewrite mapi_from_length. apply nth_error_Some. congruence.
    + split; [reflexivity|]. split; [reflexivity|].
      split; [|repeat split].
      unfold stepInterfaceDecl, stepSignature, nextStepName, getStepInterfaceName,
        getStepFunctionName, getStepFunctionArgumentName.
      cbn [Block.withBlock _block]. f_equal.
      destruct (nth_error required (S i)); now rewrite !string_app_assoc.
  - exists terminal. split; [|now split].
    rewrite nth_error_app2; rewrite mapi_from_length; [|lia].
    now rewrite Nat.sub_diag.
Qed.

End StepChain.

(* ================================================================== *)
(** ** The builder class *)
(* ================================================================== *)

Section BuilderClass.

Variable E : Collaborators.

Lemma pushMembers_fold (ms : list ClassMember) k n a f st i an c bl mem meth nest :
  fold_left (fun s y => Block.pushMember y s) ms (mkBlock k n a f st i an c bl mem meth nest)
  = mkBlock k n a f st i an c bl (mem ++ ms) meth nest.
Proof.
  revert mem; induction ms as [|m rest IH]; intros mem; simpl.
  - now rewrite app_nil_r.
  - unfold Block.pushMember at 2; simpl. rewrite IH. now rewrite <- app_assoc.
Qed.

Lemma pushMethods_fold (ms : list ClassMethod) k n a f st i an c bl mem meth nest :
  fold_left (fun s y => Block.pushMethod y s) ms (mkBlock k n a f st i an c bl mem meth nest)
  = mkBlock k n a f st i an c bl mem (meth ++ ms) nest.
Proof.
  revert meth; induction ms as [|m rest IH]; intros meth; simpl.
  - now rewrite app_nil_r.
  - unfold Block.pushMethod at 2; simpl. rewrite IH. now rewrite <- app_assoc.
Qed.

Lemma pushMethod_mk (m : ClassMethod) k n a f st i an c bl mem meth nest :
  Block.pushMethod m (mkBlock k n a f st i an c bl mem meth nest)
  = mkBlock k n a f st i an c bl mem (meth ++ [m]) nest.
Proof. reflexivity. Qed.

(** The slot loop of [generateBuilderClass]. *)
Lemma builder_slots_loop (fields : list CodeGenField) (b : JavaDeclarationBlock)
    (pk : Packages) :
  foldM (fun decl field =>
           nativeType <- getNativeType E field ;;
           ret (Block.addClassMember (getFieldName E field) nativeType "" [] "private"
                  noFlags decl))
        fields b pk
  = (Returned (fold_left (fun s y => Block.pushMember y s) (map (builderSlot E) fields) b),
     registerTypes E fields pk).
Proof.
  unfold foldM, foldiM.
  rewrite (@foldiM_from_pushes _ _ _ Block.pushMember _ (fun _ f => builderSlot E f)
             (registerType E)).
  - now rewrite mapi_from_const.
  - intros i x acc' pk' _. unfold bind. now rewrite getNativeType_returns.
Qed.

Lemma isLastStep_spec {A : Type} (xs : list A) (i : nat) (x : A) :
  nth_error xs i = Some x ->
  (Z.of_nat i =? Z.of_nat (length xs) - 1)%Z
  = match nth_error xs (S i) with Some _ => false | None => true end.
Proof.
  intros Hi. rewrite <- (isLast_spec _ _ Hi). unfold isLast. apply Z.eqb_sym.
Qed.

(** The loop over the required fields. *)
Lemma builder_steps_loop (required : list CodeGenField) (b : JavaDeclarationBlock)
    (pk : Packages) :
  foldiM (fun decl field idx =>
            let isLastStep := (Z.of_nat idx =? Z.of_nat (length required) - 1)%Z in
            let fieldName := getFieldName E field in
            let methodName := getStepFunctionName E field in
            returnType <- (if isLastStep then ret (getStepInterfaceName E "Build")
                           else nextName <- nameAt required (idx + 1) ;;
                                ret (getStepInterfaceName E nextName)) ;;
            argumentType <- getNativeType E field ;;
            let argumentName := getStepFunctionArgumentName E field in
            let body :=
              join nl [ "Objects.requireNonNull(" ++ fieldName ++ ");";
                        "this." ++ fieldName ++ " = " ++ argumentName ++ ";";
                        "return this;" ] in
            ret (Block.addClassMethod methodName (Some returnType) (indentMultiline body)
                   [mkArg argumentName argumentType] [] "public" noFlags ["Override"] [] ""
                   decl))
         required b pk
  = (Returned (fold_left (fun s y => Block.pushMethod y s)
                 (mapi_from 0 (stepMethod E required) required) b),
     registerTypes E required pk).
Proof.
  unfold foldiM.
  rewrite (@foldiM_from_pushes _ _ _ Block.pushMethod _ (stepMethod E required)
             (registerType E)); [reflexivity|].
  intros i x acc' pk' Hi. simpl in Hi |- *.
  rewrite (isLastStep_spec _ _ Hi).
  unfold stepMethod, nextStepName, nameAt. rewrite Nat.add_1_r.
  destruct (nth_error required (S i)) as [next|]; unfold bind, ret;
    rewrite getNativeType_returns; reflexivity.
Qed.

(** The loop over the optional fields. *)
Lemma builder_optionals_loop (fields : list CodeGenField) (b : JavaDeclarationBlock)
    (pk : Packages) :
  foldM (fun decl field =>
           let fieldName := getFieldName E field in
           let methodName := getStepFunctionName E field in
           let returnType := getStepInterfaceName E "Build" in
           argumentType <- getNativeType E field ;;
           let argumentName := getStepFunctionArgumentName E field in
           let body :=
             join nl [ "this." ++ fieldName ++ " = " ++ argumentName ++ ";";
                       "return this;" ] in
           ret (Block.addClassMethod methodName (Some returnType) (indentMultiline body)
                  [mkArg argumentName argumentType] [] "public" noFlags ["Override"] [] ""
                  decl))
        fields b pk
  = (Returned (fold_left (fun s y => Block.pushMethod y s) (map (optionalMethod E) fields) b),
     registerTypes E fields pk).
Proof.
  unfold foldM, foldiM.
  rewrite (@foldiM_from_pushes _ _ _ Block.pushMethod _ (fun _ f => optionalMethod E f)
             (registerType E)).
  - now rewrite mapi_from_const.
  - intros i x acc' pk' _. unfold bind. now rewrite getNativeType_returns.
Qed.

(** With a first required field, [generateBuilderClass] returns: it nests
    the builder class described by [builderClassOf]. *)
Lemma generateBuilderClass_returns (model : CodeGenModel) (classDeclaration : JavaDeclarationBlock)
    (pk : Packages) (first : CodeGenField) (rest : list CodeGenField) :
  requiredFields model = first :: rest ->
  generateBuilderClass E model classDeclaration pk
  = (Returned (Block.nestedClass (builderClassOf E model (f_name first)) classDeclaration),
     registerTypes E (nullableFieldsOf model)
       (registerTypes E (requiredFields model)
          (registerTypes E (builderSlotFields model) pk))).
Proof.
  intros Hreq. unfold generateBuilderClass. rewrite stepFieldsOf_required.
  cbv zeta. unfold bind at 1. rewrite builder_slots_loop.
  unfold bind at 1. rewrite Hreq at 1. cbn [nameAt nth_error ret].
  unfold bind at 1. rewrite builder_steps_loop.
  unfold bind at 1. rewrite builder_optionals_loop.
  unfold ret. f_equal. f_equal.
  unfold Block.addClassMethod.
  cbv beta iota delta [Block.implements Block.withName Block.asKind Block.static Block.access
                        Block.new _kind _name _access _final _static _implements
                        _annotations _comment _block _members _methods _nestedClasses].
  rewrite pushMembers_fold, !pushMethod_mk, !pushMethods_fold, pushMethod_mk.
  unfold builderClassOf. f_equal. cbn [app]. rewrite <- !app_assoc. reflexivity.
Qed.

(** Without a required field, the entry method cannot be typed:
    [stepFields[0].name] reads a property of [undefined]. *)
Lemma generateBuilderClass_throws (model : CodeGenModel) (classDeclaration : JavaDeclarationBlock)
    (pk : Packages) :
  requiredFields model = [] ->
  generateBuilderClass E model classDeclaration pk
  = (Thrown (TypeError "Cannot read property 'name' of undefined"),
     registerTypes E (builderSlotFields model) pk).
Proof.
  intros Hreq. unfold generateBuilderClass. rewrite stepFieldsOf_required.
  cbv zeta. unfold bind at 1. rewrite builder_slots_loop.
  unfold bind at 1. rewrite Hreq at 1. reflexivity.
Qed.

End BuilderClass.

(** C3.  A model with no required field after the identity is left out:
    the specification wants a builder whose entry method returns the
    terminal "Build" interface.  On [Note] (fields [id: ID!] and
    [body: String]) the filtered required list is empty and
    [generateBuilderClass] throws while it types the entry method, so no
    builder and no class is produced. *)
Theorem C3_builder_entry_faults_without_required_fields :
  requiredFields Sample.Note = []
  /\ (forall (classDeclaration : JavaDeclarationBlock) (pk : Packages),
        fst (generateBuilderClass Sample.env Sample.Note classDeclaration pk)
        = Thrown (TypeError "Cannot read property 'name' of undefined"))
  /\ fst (generateClassDeclaration Sample.env Sample.Note [])
     = Thrown (TypeError "Cannot read property 'name' of undefined").
Proof.
  split; [reflexivity|]. split.
  - intros classDeclaration pk.
    now rewrite (generateBuilderClass_throws Sample.env Sample.Note classDeclaration pk eq_refl).
  - vm_compute. reflexivity.
Qed.

(* ================================================================== *)
(** ** Field order in the emitted members *)
(* ================================================================== *)

Section FieldOrder.

Variable E : Collaborators.

Lemma trimStart_indentation (n : nat) (s : string) :
  trimStart (indentation n ++ s) = trimStart s.
Proof.
  induction n as [|n IH]; [reflexivity|].
  change (indentation (S n) ++ s) with (String " " (String " " (indentation n ++ s))).
  cbn [trimStart]. change (isSpace " ") with true. cbn iota. exact IH.
Qed.

Lemma trimStart_app (y : string) (c : ascii) (z : string) :
  isSpace c = false -> trimStart (y ++ String c z) = trimStart y ++ String c z.
Proof.
  intros Hc. induction y as [|d y IH].
  - cbn [append trimStart]. now rewrite Hc.
  - change (String d y ++ String c z) with (String d (y ++ String c z)).
    cbn [trimStart]. destruct (isSpace d); [exact IH|reflexivity].
Qed.

Lemma trimStart_word (c : ascii) (s : string) :
  isSpace c = false -> trimStart (String c s) = String c s.
Proof.
  intros Hc. cbn [trimStart]. now rewrite Hc.
Qed.

Lemma join_cons (sep a : string) (rest : list string) :
  join sep (a :: rest) = a ++ match rest with [] => "" | _ => sep ++ join sep rest end.
Proof.
  destruct rest; [|reflexivity]. simpl. now rewrite string_app_nil_r.
Qed.

(** Trimming the start of an indented text whose first line starts with a
    visible character removes the first line's indentation. *)
Lemma trimStart_indented_join (n : nat) (c : ascii) (h : string) (rest : list string) :
  isSpace c = false ->
  trimStart (join nl (indentN n (String c h) :: rest)) = join nl (String c h :: rest).
Proof.
  intros Hc. rewrite !join_cons. unfold indentN.
  rewrite string_app_assoc, trimStart_indentation.
  change (String c h ++ ?t) with (String c (h ++ t)).
  now apply trimStart_word.
Qed.

Lemma forallb_map_implied {A B : Type} (h : A -> bool) (f : B -> bool) (g : A -> B)
    (xs : list A) :
  (forall x, h x = true -> f (g x) = true) ->
  forallb h xs = true -> forallb f (map g xs) = true.
Proof.
  intros Himp. induction xs as [|x xs IH]; simpl; [reflexivity|].
  intros H. apply andb_true_iff in H as [Hx H]. now rewrite (Himp x Hx), IH.
Qed.

(** The lines of [hashCode()]: one [append] per field, in declared order. *)
Lemma hashCode_lines (model : CodeGenModel) (declarationBlock : JavaDeclarationBlock) :
  forallb (fun field => nl_free (pascalCase E (f_name field))) (m_fields model) = true ->
  exists m,
    generateHashCodeMethod E model declarationBlock = Block.pushMethod m declarationBlock
    /\ method_name m = "hashCode"
    /\ lines (method_implementation m)
       = ("return new StringBuilder()"
            :: map (fun field => indent (hashAppend E field)) (m_fields model)
            ++ [indent ".hashCode();"])%list.
Proof.
  intros Hnl. unfold generateHashCodeMethod, Block.addClassMethod.
  eexists. split; [reflexivity|]. split; [reflexivity|].
  cbn [method_implementation].
  change (["return new StringBuilder()"] ++ map (hashAppend E) (m_fields model)
          ++ [".hashCode();"])%list
    with ("return new StringBuilder()"
            :: (map (hashAppend E) (m_fields model) ++ [".hashCode();"]))%list.
  assert (Hall : forallb nl_free
                   ("return new StringBuilder()"
                      :: (map (hashAppend E) (m_fields model) ++ [".hashCode();"]))%list = true).
  { cbn [forallb]. change (nl_free "return new StringBuilder()") with true. cbn [andb].
    rewrite forallb_app. apply andb_true_iff. split; [|reflexivity].
    revert Hnl. apply forallb_map_implied.
    intros f Hf. unfold hashAppend, getFieldGetterName.
    rewrite !nl_free_app, Hf. reflexivity. }
  unfold indentMultiline. rewrite (indentMultilineN_join 1 _ _ Hall).
  change (map (indentN 1) ("return new StringBuilder()" :: ?l)) with
    (indentN 1 "return new StringBuilder()" :: map (indentN 1) l).
  rewrite (trimStart_indented_join 1 _ _ _ (eq_refl : isSpace "r" = false)).
  rewrite lines_join.
  - rewrite map_app, map_map. reflexivity.
  - change (forallb nl_free (map (indentN 1) ("return new StringBuilder()"
              :: (map (hashAppend E) (m_fields model) ++ [".hashCode();"]))%list) = true)
      in |- *.
    now rewrite forallb_nl_free_indent.
Qed.

Lemma punctuate_head_visible (sep : string) (c : ascii) (l : string)
    (checks : list string) :
  isSpace c = false -> forallb startsVisible checks = true ->
  exists d p ps, punctuate sep (String c l) checks = String d p :: ps /\ isSpace d = false.
Proof.
  intros Hc Hv. destruct checks as [|x [|y ys]].
  - exists c, l, []. now split.
  - cbn [forallb] in Hv. destruct x as [|d x]; [discriminate|].
    exists d, (x ++ String c l), []. split; [reflexivity|].
    cbn [startsVisible] in Hv. now destruct (isSpace d).
  - cbn [forallb] in Hv. destruct x as [|d x]; [discriminate|].
    exists d, (x ++ sep), (punctuate sep (String c l) (y :: ys)). split; [reflexivity|].
    cbn [startsVisible] in Hv. now destruct (isSpace d).
Qed.

Lemma equalsReturnLines_cons (checks : list string) :
  exists r rs, equalsReturnLines checks = r :: rs.
Proof.
  unfold equalsReturnLines. destruct checks as [|x [|y ys]]; cbn [punctuate]; eauto.
Qed.

(** The [return] statement of [equals], line by line. *)
Lemma equals_return_text (checks : list string) :
  forallb nl_free checks = true -> forallb startsVisible checks = true ->
  "return " ++ trimStart (indentMultilineN 4 (join (" &&" ++ nl) checks)) ++ ";"
  = join nl (equalsReturnLines checks)
  /\ forallb nl_free (equalsReturnLines checks) = true.
Proof.
  intros Hnl Hv.
  rewrite <- (trimStart_app _ ";" "" (eq_refl : isSpace ";" = false)).
  assert (Hin : indentMultilineN 4 (join (" &&" ++ nl) checks) ++ ";"
                = indentMultilineN 4 (join (" &&" ++ nl) checks ++ ";")).
  { unfold indentMultilineN. rewrite string_app_assoc, replace_nl_app. reflexivity. }
  rewrite Hin, join_punctuate.
  pose proof (punctuate_nl_free " &&" ";" checks eq_refl eq_refl Hnl) as Hp.
  destruct (punctuate_head_visible " &&" ";"%char "" checks eq_refl Hv)
    as (d & p & ps & Hpun & Hd).
  unfold equalsReturnLines. rewrite Hpun in *.
  rewrite (indentMultilineN_join 4 _ _ Hp).
  change (map (indentN 4) (String d p :: ps)) with (indentN 4 (String d p) :: map (indentN 4) ps).
  rewrite (trimStart_indented_join 4 _ _ _ Hd). split.
  - rewrite !join_cons. now rewrite string_app_assoc.
  - cbn [forallb] in Hp |- *. apply andb_true_iff in Hp as [Hp1 Hp2].
    rewrite nl_free_app, Hp1, forallb_nl_free_indent, Hp2. reflexivity.
Qed.

Lemma equalsChecks_wellformed (inst : string) (fields : list CodeGenField) :
  nl_free inst = true ->
  forallb (fun field => nl_free (pascalCase E (f_name field))) fields = true ->
  forallb nl_free (map (equalsCheck E inst) fields) = true
  /\ forallb startsVisible (map (equalsCheck E inst) fields) = true.
Proof.
  intros Hi Hnl. split.
  - revert Hnl. apply forallb_map_implied. intros f Hf.
    unfold equalsCheck, getFieldGetterName. rewrite !nl_free_app, Hf, Hi. reflexivity.
  - clear. induction fields as [|f fs IH]; [reflexivity|].
    cbn [map forallb]. now rewrite IH.
Qed.

(** The lines of [equals(Object)]: one conjunct per field, in declared
    order. *)
Lemma equals_lines (model : CodeGenModel) (declarationBlock : JavaDeclarationBlock) :
  nl_free (getModelName E model) = true ->
  nl_free (camelCase E (m_name model)) = true ->
  forallb (fun field => nl_free (pascalCase E (f_name field))) (m_fields model) = true ->
  exists m,
    generateEqualsMethod E model declarationBlock = Block.pushMethod m declarationBlock
    /\ method_name m = "equals"
    /\ lines (method_implementation m)
       = map indent
           (equalsHeadLines E model
            ++ equalsReturnLines (map (equalsCheck E (camelCase E (m_name model)))
                                      (m_fields model))
            ++ ["}"])%list.
Proof.
  intros Hcls Hinst Hnl. unfold generateEqualsMethod, Block.addClassMethod.
  eexists. split; [reflexivity|]. split; [reflexivity|].
  cbn [method_implementation].
  destruct (equalsChecks_wellformed _ _ Hinst Hnl) as [Hc1 Hc2].
  destruct (equals_return_text _ Hc1 Hc2) as [Hret Hretnl].
  cbv zeta. rewrite Hret. clear Hret.
  unfold indentMultiline. rewrite lines_indentMultiline. unfold indent. f_equal.
  cbn [app]. rewrite lines_join_flat. cbn [flat_map].
  destruct (equalsReturnLines_cons
              (map (equalsCheck E (camelCase E (m_name model))) (m_fields model)))
    as (r & rs & Hr).
  rewrite Hr in *. rewrite (lines_join _ _ Hretnl).
  assert (Hcast : nl_free (getModelName E model ++ " " ++ camelCase E (m_name model)
                           ++ " = (" ++ getModelName E model ++ ") " ++ "obj" ++ ";") = true).
  { now rewrite !nl_free_app, Hcls, Hinst. }
  rewrite (lines_one _ Hcast).
  rewrite (lines_one ("if (this == " ++ "obj" ++ ") {") eq_refl),
    (lines_one "  return true;" eq_refl),
    (lines_one ("} else if(" ++ "obj" ++ " == null || getClass() != " ++ "obj"
                ++ ".getClass()) {") eq_refl),
    (lines_one "  return false;" eq_refl), (lines_one "} else {" eq_refl),
    (lines_one "}" eq_refl).
  reflexivity.
Qed.

(** The constructor takes one argument per field. *)
Lemma generateConstructor_returns (model : CodeGenModel) (declarationsBlock : JavaDeclarationBlock)
    (pk : Packages) :
  fst (generateConstructor E model declarationsBlock pk)
  = Returned
      (Block.pushMethod
         (mkMethod (getModelName E model) None
            (join nl (map (fun field => "this." ++ getFieldName E field ++ " = "
                                        ++ getFieldName E field ++ ";")
                          (m_fields model)))
            (map (fun field => mkArg (getFieldName E field) (nativeTypeName E field))
                 (m_fields model))
            [] "private" noFlags [] [] "")
         declarationsBlock).
Proof.
  unfold generateConstructor. cbv zeta. unfold bind at 1, mapM, mapiM.
  match goal with |- context [mapiM_from 0 ?f ?xs pk] =>
    pose proof (@mapiM_from_returns _ _ f
                  (fun _ field => mkArg (getFieldName E field) (nativeTypeName E field))
                  xs 0 pk) as Hmap;
    destruct (mapiM_from 0 f xs pk) as [[args|e] pk1]
  end; cbn [fst] in Hmap.
  - rewrite mapi_from_const in Hmap.
    assert (Hargs : Returned args
                    = Returned (map (fun field => mkArg (getFieldName E field)
                                                    (nativeTypeName E field))
                                    (m_fields model))).
    { apply Hmap. intros i x pk' _. unfold bind. now rewrite getNativeType_returns. }
    injection Hargs as ->. reflexivity.
  - assert (Habs : @Thrown (list MethodArgument) e
                   = Returned (mapi_from 0 (fun _ field =>
                                 mkArg (getFieldName E field) (nativeTypeName E field))
                                 (m_fields model))); [|discriminate].
    apply Hmap. intros i x pk' _. unfold bind. now rewrite getNativeType_returns.
Qed.

(** C2, as the code has it.  For a model whose builder is generated (it has
    a first required field) and whose names hold no line feed: the
    constructor's positional arguments, the conjuncts of [equals] and the
    appends of [hashCode] follow the model's declared field order; the
    builder's private slots are declared with the non-nullable fields first
    and the nullable fields after them, each group in declared order. *)
Theorem C2_field_order (model : CodeGenModel) (classDeclaration : JavaDeclarationBlock)
    (pk : Packages) (first : CodeGenField) (rest : list CodeGenField) :
  requiredFields model = first :: rest ->
  nl_free (getModelName E model) = true ->
  nl_free (camelCase E (m_name model)) = true ->
  forallb (fun field => nl_free (pascalCase E (f_name field))) (m_fields model) = true ->
  (exists ctor,
     fst (generateConstructor E model classDeclaration pk)
     = Returned (Block.pushMethod ctor classDeclaration)
     /\ method_name ctor = getModelName E model
     /\ map arg_name (method_args ctor) = map (getFieldName E) (m_fields model))
  /\ (exists builder,
        fst (generateBuilderClass E model classDeclaration pk)
        = Returned (Block.nestedClass builder classDeclaration)
        /\ _name builder = "Builder"
        /\ map member_name (_members builder)
           = map (getFieldName E)
               (filter (fun field => negb (f_isNullable field)) (m_fields model)
                ++ filter (fun field => f_isNullable field) (m_fields model)))
  /\ (exists eq,
        generateEqualsMethod E model classDeclaration = Block.pushMethod eq classDeclaration
        /\ method_name eq = "equals"
        /\ lines (method_implementation eq)
           = map indent
               (equalsHeadLines E model
                ++ equalsReturnLines (map (equalsCheck E (camelCase E (m_name model)))
                                          (m_fields model))
                ++ ["}"]))
  /\ (exists hash,
        generateHashCodeMethod E model classDeclaration
        = Block.pushMethod hash classDeclaration
        /\ method_name hash = "hashCode"
        /\ lines (method_implementation hash)
           = "return new StringBuilder()"
               :: map (fun field => indent (hashAppend E field)) (m_fields model)
               ++ [indent ".hashCode();"]).
Proof.
  intros Hreq Hcls Hinst Hnl. split; [|split; [|split]].
  - eexists. split; [apply generateConstructor_returns|]. split; [reflexivity|].
    cbn [method_args]. now rewrite map_map.
  - exists (builderClassOf E model (f_name first)). split; [|split].
    + now rewrite (generateBuilderClass_returns E model classDeclaration pk Hreq).
    + reflexivity.
    + unfold builderClassOf, builderSlotFields, nonNullableFieldsOf, nullableFieldsOf.
      cbn [_members]. now rewrite map_map.
  - now apply equals_lines.
  - now apply hashCode_lines.
Qed.

End FieldOrder.

(** C2 as the specification words it fails on [Draft], whose
    optional field [summary] is declared first: the builder declares its
    slots in the order id, title, summary. *)
Lemma C2_builder_slots_leave_declared_order :
  fst (generateBuilderClass Sample.env Sample.Draft Block.new [])
  = Returned (Block.nestedClass (builderClassOf Sample.env Sample.Draft "title") Block.new)
  /\ map member_name (_members (builderClassOf Sample.env Sample.Draft "title"))
     = ["id"; "title"; "summary"]
  /\ map (getFieldName Sample.env) (m_fields Sample.Draft) = ["summary"; "id"; "title"]
  /\ map member_name (_members (builderClassOf Sample.env Sample.Draft "title"))
     <> map (getFieldName Sample.env) (m_fields Sample.Draft).
Proof.
  split; [|split; [|split]].
  - now rewrite (generateBuilderClass_returns Sample.env Sample.Draft Block.new []
                   (first := Sample.field "title" "String" false) (rest := []) eq_refl).
  - reflexivity.
  - reflexivity.
  - discriminate.
Qed.

(** C2, an instance: [C2_field_order] at [Draft]: the constructor takes summary, id, title;
    the builder declares id, title, summary. *)
Lemma C2_field_order_witness :
  (exists ctor,
     fst (generateConstructor Sample.env Sample.Draft Block.new [])
     = Returned (Block.pushMethod ctor Block.new)
     /\ map arg_name (method_args ctor) = ["summary"; "id"; "title"])
  /\ (exists builder,
        fst (generateBuilderClass Sample.env Sample.Draft Block.new [])
        = Returned (Block.nestedClass builder Block.new)
        /\ map member_name (_members builder) = ["id"; "title"; "summary"]).
Proof.
  destruct (C2_field_order Sample.env Sample.Draft Block.new []
              (first := Sample.field "title" "String" false) (rest := [])
              eq_refl eq_refl eq_refl eq_refl)
    as ((ctor & Hc & _ & Hargs) & (builder & Hb & _ & Hslots) & _).
  split.
  - exists ctor. split; [exact Hc|exact Hargs].
  - exists builder. split; [exact Hb|exact Hslots].
Defined.

(* ================================================================== *)
(** ** The identity setter at run time *)
(* ================================================================== *)

Section IdentitySetter.

Import Java.

Variable E : Collaborators.

(** What [java.util.UUID] does in the running program. *)
Variable validUUID : string -> bool.
Variable randomUUID : string.
Variable invalidUUID : string -> Value.

(** The emitted body of [id(String)] is the text of [idSetterProgram]. *)
Lemma idSetter_tokens :
  lex (method_implementation (idMethod E)) = programTokens idSetterProgram.
Proof. vm_compute. reflexivity. Qed.

Lemma lookup_assign (x : string) (v : Value) (env : Env) :
  lookup x (assign x v env) = Some v.
Proof.
  induction env as [|[y w] env IH]; cbn [assign lookup].
  - now rewrite String.eqb_refl.
  - destruct (String.eqb y x) eqn:Hy; cbn [lookup]; rewrite ?String.eqb_refl, ?Hy; auto.
Qed.

Lemma idSetter_rejects (value : string) (sl : Env) :
  validUUID value = false ->
  invoke validUUID randomUUID invalidUUID idSetterProgram [("id", VStr value)] sl
  = (Throws (malformedIdError (invalidUUID value)),
     mkState (assign "id" (VStr value) sl)
       [("id", VStr value); ("exception", invalidUUID value)]).
Proof.
  intros Hbad. unfold invoke, idSetterProgram.
  cbn [run exec eval andThen locals slots lookup String.eqb Ascii.eqb Bool.eqb setSlot
       setLocal assign callStatic andb].
  rewrite Hbad.
  cbn [run exec eval andThen locals slots lookup String.eqb Ascii.eqb Bool.eqb setSlot
       setLocal assign callStatic andb nth idErrorHintParts].
  reflexivity.
Qed.

Lemma idSetter_accepts (value : string) (sl : Env) :
  validUUID value = true ->
  invoke validUUID randomUUID invalidUUID idSetterProgram [("id", VStr value)] sl
  = (Returns VThis, mkState (assign "id" (VStr value) sl) [("id", VStr value)]).
Proof.
  intros Hok. unfold invoke, idSetterProgram.
  cbn [run exec eval andThen locals slots lookup String.eqb Ascii.eqb Bool.eqb setSlot
       setLocal assign callStatic andb].
  rewrite Hok. reflexivity.
Qed.

(** [UUID.fromString(null)] dereferences null: the setter raises the
    malformed-id error for a null argument too, with the id slot null. *)
Lemma idSetter_null (sl : Env) :
  invoke validUUID randomUUID invalidUUID idSetterProgram [("id", VNull)] sl
  = (Throws (malformedIdError (VObject "NullPointerException" [])),
     mkState (assign "id" VNull sl)
       [("id", VNull); ("exception", VObject "NullPointerException" [])]).
Proof. reflexivity. Qed.

(** The builder's last method is the identity setter. *)
Lemma builder_ends_with_idMethod (model : CodeGenModel) (first : string) :
  exists others, _methods (builderClassOf E model first) = (others ++ [idMethod E])%list.
Proof.
  unfold builderClassOf. cbn [_methods].
  eexists. rewrite !app_assoc. reflexivity.
Qed.



End IdentitySetter.





(* ================================================================== *)
(** ** The tokens of [build()] *)
(* ================================================================== *)

Section BuildTokens.

Import Java.

Lemma wordChar_plain (c : ascii) :
  isWordChar c = true ->
  isSpace c = false /\ Ascii.eqb c dq_char = false /\ Ascii.eqb c nl_char = false.
Proof.
  destruct c as [[] [] [] [] [] [] [] []]; vm_compute; intros H;
    try discriminate H; repeat split.
Qed.

Lemma allWordChars_nl_free (w : string) : allWordChars w = true -> nl_free w = true.
Proof.
  unfold nl_free. induction w as [|c w IH]; [reflexivity|].
  cbn [allWordChars includes_char]. intros H. apply andb_true_iff in H as [Hc Hw].
  destruct (wordChar_plain c Hc) as (_ & _ & ->). cbn [orb]. now apply IH.
Qed.

Lemma isWord_nl_free (w : string) : isWord w = true -> nl_free w = true.
Proof.
  destruct w; [discriminate|]. apply allWordChars_nl_free.
Qed.

(** A word in progress runs up to the first character that is not a word
    character. *)
Lemma lex_word_from (w : string) :
  forall (acc : string) (c : ascii) (rest : string),
    allWordChars w = true -> isWordChar c = false ->
    lexFrom (InWord acc) (w ++ String c rest)
    = TWord (acc ++ w) :: lexFrom InCode (String c rest).
Proof.
  induction w as [|d w IH]; intros acc c rest Hw Hc.
  - rewrite string_app_nil_r. cbn [append lexFrom]. rewrite Hc. reflexivity.
  - cbn [allWordChars] in Hw. apply andb_true_iff in Hw as [Hd Hw].
    change (String d w ++ String c rest) with (String d (w ++ String c rest)).
    cbn [lexFrom]. rewrite Hd. rewrite (IH _ _ _ Hw Hc). unfold snoc.
    now rewrite string_app_assoc.
Qed.

Lemma lex_word (w : string) (c : ascii) (rest : string) :
  isWord w = true -> isWordChar c = false ->
  lexFrom InCode (w ++ String c rest) = TWord w :: lexFrom InCode (String c rest).
Proof.
  destruct w as [|d w]; [discriminate|]. cbn [isWord allWordChars].
  intros Hw Hc. apply andb_true_iff in Hw as [Hd Hw].
  change (String d w ++ String c rest) with (String d (w ++ String c rest)).
  destruct (wordChar_plain d Hd) as (Hs & Hq & _).
  cbn [lexFrom]. rewrite Hs, Hq, Hd. now rewrite (@lex_word_from w _ _ _ Hw Hc).
Qed.

Lemma lex_skip_indent (s : string) :
  lexFrom InCode (indentN 1 (indentN 1 s)) = lexFrom InCode s.
Proof. reflexivity. Qed.

(** The tokens of the argument lines: the names, separated by commas, then
    the closing parenthesis and the semicolon. *)
Lemma lex_argumentLines (names : list string) :
  forallb isWord names = true ->
  lexFrom InCode (join nl (argumentLines names))
  = (commaSep (map (fun n => [TWord n]) names) ++ [sym ")"; sym ";"])%list.
Proof.
  unfold argumentLines.
  induction names as [|x [|y ys] IH]; intros H.
  - reflexivity.
  - cbn [forallb] in H. rewrite andb_true_r in H.
    cbn [punctuate map join commaSep app]. rewrite lex_skip_indent.
    change (x ++ ");") with (x ++ String ")" ";").
    now rewrite (@lex_word x ")"%char ";" H eq_refl).
  - change (forallb isWord (x :: y :: ys)) with (isWord x && forallb isWord (y :: ys)) in H.
    apply andb_true_iff in H as [Hx H]. specialize (IH H).
    change (punctuate "," ");" (x :: y :: ys))
      with ((x ++ ",") :: punctuate "," ");" (y :: ys)).
    cbn [map]. rewrite join_cons.
    destruct (map (fun p => indentN 1 (indentN 1 p)) (punctuate "," ");" (y :: ys)))
      as [|p ps] eqn:Hp.
    { destruct ys; discriminate Hp. }
    change (indentN 1 (indentN 1 (x ++ ",")) ++ nl ++ join nl (p :: ps))
      with (indentN 1 (indentN 1 ((x ++ ",") ++ nl ++ join nl (p :: ps)))).
    rewrite lex_skip_indent, string_app_assoc.
    change ("," ++ nl ++ join nl (p :: ps)) with (String "," (nl ++ join nl (p :: ps))).
    rewrite (@lex_word x ","%char _ Hx eq_refl).
    change (lexFrom InCode (String "," (nl ++ join nl (p :: ps))))
      with (sym "," :: lexFrom InCode (join nl (p :: ps))).
    rewrite IH. reflexivity.
Qed.

Variable E : Collaborators.

(** The text of [build()], line by line. *)
Lemma build_text (model : CodeGenModel) :
  nl_free (getModelName E model) = true ->
  forallb nl_free (map (getFieldName E) (m_fields model)) = true ->
  method_implementation (buildMethod E model)
  = join nl (indentN 1 buildIdStatement
               :: indentN 1 ""
               :: indentN 1 ("return new " ++ getModelName E model ++ "(")
               :: argumentLines (map (getFieldName E) (m_fields model))).
Proof.
  intros Hm Hn. unfold buildMethod, buildImplementation. cbn [method_implementation].
  set (names := map (getFieldName E) (m_fields model)) in *.
  assert (Hin : indentMultiline (join ("," ++ nl) names) ++ ");"
                = indentMultilineN 1 (join ("," ++ nl) names ++ ");")).
  { unfold indentMultiline, indentMultilineN.
    rewrite string_app_assoc, replace_nl_app. reflexivity. }
  pose proof (punctuate_nl_free "," ");" names eq_refl eq_refl Hn) as Hp.
  assert (Hcall : "return new " ++ getModelName E model ++ "(" ++ nl
                  ++ indentMultiline (join ("," ++ nl) names) ++ ");"
                  = join nl (("return new " ++ getModelName E model ++ "(")
                               :: map (indentN 1) (punctuate "," ");" names))).
  { rewrite Hin, join_punctuate.
    destruct (punctuate "," ");" names) as [|p ps] eqn:Hpun.
    { destruct names as [|? [|? ?]]; discriminate Hpun. }
    rewrite (indentMultilineN_join 1 _ _ Hp), join_cons.
    cbn [map]. now rewrite !string_app_assoc. }
  rewrite Hcall. clear Hcall Hin.
  assert (Hflat : join nl [buildIdStatement; "";
                           join nl (("return new " ++ getModelName E model ++ "(")
                                      :: map (indentN 1) (punctuate "," ");" names))]
                  = join nl (buildIdStatement :: ""
                               :: ("return new " ++ getModelName E model ++ "(")
                               :: map (indentN 1) (punctuate "," ");" names))).
  { reflexivity. }
  rewrite Hflat. clear Hflat.
  unfold indentMultiline. rewrite indentMultilineN_join.
  - cbn [map]. unfold argumentLines. now rewrite map_map.
  - cbn [forallb]. change (nl_free buildIdStatement) with true. change (nl_free "") with true.
    rewrite !nl_free_app, Hm, forallb_nl_free_indent, Hp. reflexivity.
Qed.

Lemma lex_build_prefix (rest : string) :
  lexFrom InCode (indentN 1 buildIdStatement ++ nl ++ indentN 1 "" ++ nl
                  ++ indentN 1 ("return new " ++ rest))
  = (stmtTokens (SLocal "String" "id"
                   (ECond (ENe (EField "id") ENull) (EField "id")
                          (ECall (EStatic "UUID" "randomUUID" []) "toString" [])))
     ++ [TWord "return"; TWord "new"] ++ lexFrom InCode rest)%list.
Proof. vm_compute. reflexivity. Qed.

(** The emitted body of [build()] is the text of [buildProgram]. *)
Lemma build_tokens (model : CodeGenModel) :
  isWord (getModelName E model) = true ->
  forallb isWord (map (getFieldName E) (m_fields model)) = true ->
  lex (method_implementation (buildMethod E model)) = programTokens (buildProgram E model).
Proof.
  intros Hm Hn.
  assert (Hnl : forallb nl_free (map (getFieldName E) (m_fields model)) = true).
  { revert Hn. generalize (map (getFieldName E) (m_fields model)) as names.
    induction names as [|n ns IH]; [reflexivity|]. cbn [forallb].
    intros H. apply andb_true_iff in H as [H1 H2].
    now rewrite (isWord_nl_free _ H1), IH. }
  rewrite (build_text model (isWord_nl_free _ Hm) Hnl). unfold lex.
  set (names := map (getFieldName E) (m_fields model)) in *.
  rewrite !join_cons.
  destruct (argumentLines names) as [|a as_] eqn:Ha.
  { unfold argumentLines in Ha. destruct names as [|? [|? ?]]; discriminate Ha. }
  assert (Hshape : indentN 1 ("return new " ++ getModelName E model ++ "(")
                   ++ nl ++ join nl (a :: as_)
                   = indentN 1 ("return new "
                                ++ (getModelName E model
                                    ++ String "(" (nl ++ join nl (a :: as_))))).
  { unfold indentN. rewrite !string_app_assoc. reflexivity. }
  cbv iota. rewrite Hshape, lex_build_prefix.
  rewrite (@lex_word (getModelName E model) "("%char _ Hm eq_refl).
  change (lexFrom InCode (String "(" (nl ++ join nl (a :: as_))))
    with (sym "(" :: lexFrom InCode (join nl (a :: as_))).
  rewrite <- Ha, (lex_argumentLines names Hn).
  unfold programTokens, buildProgram. cbn [flat_map stmtTokens exprTokens].
  subst names. rewrite !map_map. cbn [exprTokens app].
  rewrite app_nil_r, <- !app_assoc. reflexivity.
Qed.

End BuildTokens.


(* ================================================================== *)
(** ** [build()] at run time *)
(* ================================================================== *)

Section BuildRun.

Import Java.

Variable E : Collaborators.
Variable validUUID : string -> bool.
Variable randomUUID : string.
Variable invalidUUID : string -> Value.

(** The first statement of [build()] binds the local [id]. *)
Lemma build_binds_identity (sl : Env) (current : Value) :
  lookup "id" sl = Some current ->
  exec validUUID randomUUID invalidUUID
    (SLocal "String" "id"
       (ECond (ENe (EField "id") ENull) (EField "id")
              (ECall (EStatic "UUID" "randomUUID" []) "toString" [])))
    (mkState sl [])
  = (Normal, mkState sl [("id", buildArgument randomUUID sl "id")]).
Proof.
  intros Hid. unfold buildArgument, slotValue. rewrite Hid.
  cbn [exec eval andThen slots locals]. rewrite Hid.
  destruct current; reflexivity.
Qed.

(** Names resolve to the local [id] and to the slots. *)
Lemma eval_new_names (cls : string) (sl : Env) (names : list string) :
  (forall x, In x names -> lookup x sl <> None) ->
  eval validUUID randomUUID invalidUUID (mkState sl [("id", buildArgument randomUUID sl "id")])
    (ENew cls (map EName names))
  = Val (VObject cls (map (buildArgument randomUUID sl) names)).
Proof.
  intros Hall. cbn [eval].
  match goal with
  | |- match ?F (map EName names) with _ => _ end = _ =>
      assert (HF : F (map EName names) = Val (map (buildArgument randomUUID sl) names))
  end.
  { induction names as [|x xs IH]; [reflexivity|].
    cbn [map]. rewrite IH by (intros y Hy; apply Hall; now right).
    cbn [eval locals slots lookup].
    destruct (String.eqb "id" x) eqn:Hx.
    - apply String.eqb_eq in Hx. subst x. reflexivity.
    - assert (Hb : buildArgument randomUUID sl x = slotValue sl x).
      { unfold buildArgument. now rewrite Hx. }
      rewrite Hb. unfold slotValue. pose proof (Hall x (or_introl eq_refl)) as Hs.
      destruct (lookup x sl); [reflexivity|contradiction]. }
  now rewrite HF.
Qed.

Lemma build_runs (model : CodeGenModel) (sl : Env) (current : Value) :
  lookup "id" sl = Some current ->
  (forall field, In field (m_fields model) -> lookup (getFieldName E field) sl <> None) ->
  fst (invoke validUUID randomUUID invalidUUID (buildProgram E model) [] sl)
  = Returns (VObject (getModelName E model)
               (map (fun field => buildArgument randomUUID sl (getFieldName E field))
                    (m_fields model))).
Proof.
  intros Hid Hall. unfold invoke, buildProgram. cbn [run].
  rewrite (build_binds_identity sl Hid).
  cbn [exec andThen]. rewrite <- (map_map (getFieldName E) EName), eval_new_names.
  - rewrite map_map. reflexivity.
  - intros x Hx. apply in_map_iff in Hx as (f & <- & Hf). now apply Hall.
Qed.

Lemma builder_finds_build (model : CodeGenModel) (first : string) :
  Block.findMethod "build" (builderClassOf E model first) = Some (buildMethod E model).
Proof. reflexivity. Qed.

Lemma sameNames_eq (xs ys : list string) : sameNames xs ys = true -> xs = ys.
Proof.
  revert ys. induction xs as [|x xs IH]; intros [|y ys]; cbn [sameNames];
    try discriminate; [reflexivity|].
  intros H. apply andb_true_iff in H as [Hx H]. apply String.eqb_eq in Hx.
  now rewrite Hx, (IH ys H).
Qed.

Lemma lookup_declared (x : string) (sl : Env) : In x (keys sl) -> lookup x sl <> None.
Proof.
  induction sl as [|[k v] sl IH]; cbn [keys map fst In lookup]; [intros []|].
  intros [->|H]; [now rewrite String.eqb_refl|].
  destruct (String.eqb k x); [discriminate|now apply IH].
Qed.

(** The builder declares one slot per field of the model. *)
Lemma builder_declares_every_field (model : CodeGenModel) (first : string)
    (field : CodeGenField) :
  In field (m_fields model) ->
  In (getFieldName E field) (slotNames (builderClassOf E model first)).
Proof.
  intros Hin. unfold slotNames, builderClassOf. cbn [_members]. rewrite map_map.
  change (fun x => member_name (builderSlot E x)) with (getFieldName E).
  apply in_map. unfold builderSlotFields, nonNullableFieldsOf, nullableFieldsOf.
  apply in_or_app. destruct (f_isNullable field) eqn:Hn.
  - right. apply filter_In. now split.
  - left. apply filter_In. split; [exact Hin|now rewrite Hn].
Qed.

Lemma mem_In (x : string) (xs : list string) : mem x xs = true -> In x xs.
Proof.
  unfold mem. intros H. apply existsb_exists in H as (y & Hy & Heq).
  apply String.eqb_eq in Heq. now subst y.
Qed.

(** An object of the builder of a model that declares "id" has the slots
    [build()] reads. *)
Lemma instance_has_slots (model : CodeGenModel) (first : string) (sl : Env) :
  mem "id" (map (getFieldName E) (m_fields model)) = true ->
  instanceOf (builderClassOf E model first) sl = true ->
  lookup "id" sl <> None
  /\ (forall field, In field (m_fields model) -> lookup (getFieldName E field) sl <> None).
Proof.
  intros Hid Hinst. apply sameNames_eq in Hinst.
  assert (Hall : forall field, In field (m_fields model) ->
                   lookup (getFieldName E field) sl <> None).
  { intros field Hin. apply lookup_declared. rewrite Hinst.
    now apply builder_declares_every_field. }
  split; [|exact Hall].
  apply mem_In, in_map_iff in Hid as (field & Hname & Hin).
  rewrite <- Hname. now apply Hall.
Qed.


End BuildRun.


(** C4.  The specification speaks of every model, so also of one that
    has no required field once the identity is left out.  On [Note] (fields
    [id: ID!] and [body: String]) the terminal interface is generated and
    declares [Note build();], but [generateBuilderClass] throws while it
    types the entry method, before it adds [build()]: no builder and no
    class is emitted, so there is no [build()] body at all. *)
Theorem C4_no_build_without_required_fields :
  requiredFields Sample.Note = []
  /\ (exists terminal,
        fst (generateStepBuilderInterfaces Sample.env Sample.Note []) = Returned [terminal]
        /\ _name terminal = "IBuildStep"
        /\ nth_error (lines (_block terminal)) 0 = Some "  Note build();")
  /\ (forall (classDeclaration : JavaDeclarationBlock) (pk : Packages),
        fst (generateBuilderClass Sample.env Sample.Note classDeclaration pk)
        = Thrown (TypeError "Cannot read property 'name' of undefined"))
  /\ fst (generateClass Sample.env Sample.Note [])
     = Thrown (TypeError "Cannot read property 'name' of undefined").
Proof.
  split; [reflexivity|]. split; [|split].
  - eexists. split; [vm_compute; reflexivity|]. split; vm_compute; reflexivity.
  - intros classDeclaration pk.
    now rewrite (generateBuilderClass_throws Sample.env Sample.Note classDeclaration pk eq_refl).
  - vm_compute. reflexivity.
Qed.


(* ================================================================== *)
(** ** The connection annotation *)
(* ================================================================== *)

Section ConnectionAnnotation.

Variable E : Collaborators.

Lemma connection_key_cases (key : string) :
  mem key connectionStringKeys = true ->
  key = "name" \/ key = "keyField" \/ key = "sortField" \/ key = "keyName".
Proof.
  unfold mem, connectionStringKeys. cbn [existsb]. rewrite orb_false_r.
  intros H. repeat (apply orb_true_iff in H as [H|H]); apply String.eqb_eq in H; auto.
Qed.

Lemma stringArgs_render (arguments : DirectiveArgs) (key : string) (ks : list string) :
  mem key connectionStringKeys = true ->
  rendersArgument key (stringArgsOf arguments ks) = mem key ks.
Proof.
  intros Hkey. unfold rendersArgument, stringArgsOf.
  induction ks as [|k ks IH]; [reflexivity|].
  cbn [flat_map]. rewrite existsb_app, IH. unfold mem at 3. cbn [existsb]. fold (mem key ks).
  f_equal. destruct (mem k connectionStringKeys) eqn:Hk.
  - cbn [existsb]. rewrite orb_false_r.
    destruct (connection_key_cases _ Hkey) as [-> | [-> | [-> | ->]]];
      destruct (connection_key_cases _ Hk) as [-> | [-> | [-> | ->]]]; reflexivity.
  - cbn [existsb]. symmetry. apply String.eqb_neq. intros ->. congruence.
Qed.

Lemma stringArgs_other (arguments : DirectiveArgs) (key : string) (ks : list string) :
  key = "limit" \/ key = "fields" ->
  rendersArgument key (stringArgsOf arguments ks) = false.
Proof.
  intros Hkey. unfold rendersArgument, stringArgsOf.
  induction ks as [|k ks IH]; [reflexivity|].
  cbn [flat_map]. rewrite existsb_app, IH, orb_false_r.
  destruct (mem k connectionStringKeys) eqn:Hk; [|reflexivity].
  cbn [existsb]. rewrite orb_false_r.
  destruct Hkey as [-> | ->];
    destruct (connection_key_cases _ Hk) as [-> | [-> | [-> | ->]]]; reflexivity.
Qed.

Lemma prefix_append (s t : string) : String.prefix s (s ++ t) = true.
Proof.
  induction s as [|a s IH]; cbn [append String.prefix].
  - now destruct t.
  - destruct (ascii_dec a a) as [_|Hne]; [exact IH|now elim Hne].
Qed.

Lemma prefix_limit_limit (t : string) :
  String.prefix ("limit" ++ " = ") ("limit = " ++ t) = true.
Proof. exact (prefix_append "limit = " t). Qed.

Lemma prefix_limit_fields (t : string) :
  String.prefix ("limit" ++ " = ") ("fields = {{" ++ t) = false.
Proof. reflexivity. Qed.

Lemma prefix_fields_limit (t : string) :
  String.prefix ("fields" ++ " = ") ("limit = " ++ t) = false.
Proof. reflexivity. Qed.

Lemma prefix_fields_fields (t : string) :
  String.prefix ("fields" ++ " = ") ("fields = {{" ++ t) = true.
Proof. exact (prefix_append "fields = " ("{{" ++ t)). Qed.

Lemma absent_lookup (key : string) (arguments : DirectiveArgs) :
  present key arguments = false -> lookup key arguments = None.
Proof.
  unfold present, mem, keys.
  induction arguments as [|[k v] rest IH]; [reflexivity|].
  cbn [map fst existsb lookup]. intros H. apply orb_false_iff in H as [H1 H2].
  destruct (String.eqb k key) eqn:Hk; [|exact (IH H2)].
  apply String.eqb_eq in Hk. subst k. now rewrite String.eqb_refl in H1.
Qed.

Lemma connectionArgs_split (arguments : DirectiveArgs) :
  connectionArgs arguments
  = (stringArgsOf arguments (keys arguments)
     ++ (if truthy (lookup "limit" arguments)
         then [("limit = " ++ toString (lookup "limit" arguments))%string] else [])
     ++ (if isArray (lookup "fields" arguments)
         then match lookup "fields" arguments with
              | Some (AList l) => [("fields = {{" ++ join ", " (map quoted l) ++ "}")%string]
              | _ => []
              end
         else []))%list.
Proof.
  unfold connectionArgs, stringArgsOf. do 2 f_equal.
  destruct (lookup "fields" arguments) as [[|b| n|s|l]|]; cbn [truthy isArray andb];
    try reflexivity.
  - now destruct b.
  - now destruct (negb (n =? 0)%Z).
  - now destruct (negb (String.eqb s "")).
Qed.

(** C8, as the code has it.  For a "connection" directive the rendered
    argument list holds an argument for one of the keys name, keyField,
    sortField, keyName exactly when the key is present in the directive;
    it holds a limit exactly when the directive's limit is truthy (present
    and not 0, null, false or the empty string); it holds the fields list
    exactly when the directive's fields value is an array.  So an absent
    key is never rendered.  The annotation is emitted when at least one
    argument is rendered. *)
Theorem C8_connection_arguments (d : CodeGenDirective) :
  d_name d = "connection" ->
  directiveAnnotations d
  = match connectionArgs (d_arguments d) with
    | [] => []
    | _ => ["Connection(" ++ join ", " (connectionArgs (d_arguments d)) ++ ")"]
    end
  /\ (forall key, In key ["name"; "keyField"; "sortField"; "keyName"] ->
        rendersArgument key (connectionArgs (d_arguments d)) = present key (d_arguments d))
  /\ rendersArgument "limit" (connectionArgs (d_arguments d))
     = truthy (lookup "limit" (d_arguments d))
  /\ rendersArgument "fields" (connectionArgs (d_arguments d))
     = isArray (lookup "fields" (d_arguments d))
  /\ (forall key, In key ["name"; "keyField"; "sortField"; "keyName"; "limit"; "fields"] ->
        present key (d_arguments d) = false ->
        rendersArgument key (connectionArgs (d_arguments d)) = false).
Proof.
  intros Hname.
  assert (Hstr : forall key, In key ["name"; "keyField"; "sortField"; "keyName"] ->
            rendersArgument key (connectionArgs (d_arguments d))
            = present key (d_arguments d)).
  { intros key Hkey.
    assert (Hmem : mem key connectionStringKeys = true).
    { cbn [In] in Hkey. destruct Hkey as [<- | [<- | [<- | [<- | []]]]]; reflexivity. }
    rewrite connectionArgs_split. unfold rendersArgument. rewrite !existsb_app.
    fold (rendersArgument key (stringArgsOf (d_arguments d) (keys (d_arguments d)))).
    rewrite (stringArgs_render _ _ _ Hmem). unfold present.
    assert (Hrest : forall a b : list string,
              (forall x, In x a -> exists t, x = "limit = " ++ t) ->
              (forall x, In x b -> exists t, x = "fields = {{" ++ t) ->
              existsb (String.prefix (key ++ " = ")) a
              || existsb (String.prefix (key ++ " = ")) b = false).
    { intros a b Ha Hb. apply orb_false_iff. split.
      - destruct (existsb _ a) eqn:Hex; [|reflexivity].
        apply existsb_exists in Hex as (x & Hx & Hp). destruct (Ha x Hx) as [t ->].
        destruct (connection_key_cases _ Hmem) as [-> | [-> | [-> | ->]]]; discriminate Hp.
      - destruct (existsb _ b) eqn:Hex; [|reflexivity].
        apply existsb_exists in Hex as (x & Hx & Hp). destruct (Hb x Hx) as [t ->].
        destruct (connection_key_cases _ Hmem) as [-> | [-> | [-> | ->]]]; discriminate Hp. }
    rewrite Hrest; [now rewrite orb_false_r| |].
    - intros x Hx. destruct (truthy _); [|contradiction].
      destruct Hx as [<-|[]]. eauto.
    - intros x Hx. destruct (isArray _); [|contradiction].
      destruct (lookup "fields" (d_arguments d)) as [[| | | |l]|]; try contradiction.
      destruct Hx as [<-|[]]. eauto. }
  assert (Hlimit : rendersArgument "limit" (connectionArgs (d_arguments d))
                   = truthy (lookup "limit" (d_arguments d))).
  { rewrite connectionArgs_split. unfold rendersArgument. rewrite !existsb_app.
    fold (rendersArgument "limit" (stringArgsOf (d_arguments d) (keys (d_arguments d)))).
    rewrite stringArgs_other by now left. cbn [orb].
    destruct (truthy _); cbn [existsb]; rewrite ?prefix_limit_limit; [reflexivity|].
    destruct (isArray _); [|reflexivity].
    destruct (lookup "fields" (d_arguments d)) as [[| | | |l]|]; cbn [existsb orb];
      rewrite ?prefix_limit_fields; reflexivity. }
  assert (Hfields : rendersArgument "fields" (connectionArgs (d_arguments d))
                    = isArray (lookup "fields" (d_arguments d))).
  { rewrite connectionArgs_split. unfold rendersArgument. rewrite !existsb_app.
    fold (rendersArgument "fields" (stringArgsOf (d_arguments d) (keys (d_arguments d)))).
    rewrite stringArgs_other by now right. cbn [orb].
    assert (Hl : existsb (String.prefix ("fields" ++ " = "))
                   (if truthy (lookup "limit" (d_arguments d))
                    then [("limit = " ++ toString (lookup "limit" (d_arguments d)))%string]
                    else []) = false).
    { destruct (truthy _); cbn [existsb]; rewrite ?prefix_fields_limit; reflexivity. }
    rewrite Hl. cbn [orb].
    destruct (lookup "fields" (d_arguments d)) as [[| | | |l]|]; cbn [isArray existsb];
      rewrite ?prefix_fields_fields; reflexivity. }
  split; [|split; [exact Hstr|split; [exact Hlimit|split; [exact Hfields|]]]].
  - unfold directiveAnnotations. rewrite Hname. reflexivity.
  - intros key Hkey Habsent.
    pose proof (fun k => @absent_lookup k (d_arguments d)) as Hlook.
    cbn [In] in Hkey.
    destruct Hkey as [<- | [<- | [<- | [<- | [<- | [<- | []]]]]]].
    1-4: rewrite Hstr by (cbn [In]; auto 10); exact Habsent.
    + now rewrite Hlimit, (Hlook _ Habsent).
    + now rewrite Hfields, (Hlook _ Habsent).
Qed.

End ConnectionAnnotation.

(** C8 as the specification words it fails on a directive whose
    limit is present with the value 0, and on one whose fields value is
    present but is no array: neither is rendered. *)
Lemma C8_present_limit_zero_is_not_rendered :
  present "limit" [("name", AStr "PostComments"); ("limit", ANum 0)] = true
  /\ rendersArgument "limit"
       (connectionArgs [("name", AStr "PostComments"); ("limit", ANum 0)]) = false
  /\ directiveAnnotations
       (mkDirective "connection" [("name", AStr "PostComments"); ("limit", ANum 0)])
     = ["Connection(name = " ++ quoted "PostComments" ++ ")"]
  /\ present "fields" [("fields", AStr "postId")] = true
  /\ directiveAnnotations (mkDirective "connection" [("fields", AStr "postId")]) = [].
Proof.
  repeat split; vm_compute; reflexivity.
Qed.

(** C8, an instance: [C8_connection_arguments] at
    [@connection(name: "PostComments", limit: 10, fields: ["postId", "createdAt"])]. *)
Lemma C8_connection_arguments_witness :
  directiveAnnotations
    (mkDirective "connection"
       [("name", AStr "PostComments"); ("limit", ANum 10);
        ("fields", AList ["postId"; "createdAt"])])
  = ["Connection(name = " ++ quoted "PostComments" ++ ", limit = 10, fields = {{"
     ++ quoted "postId" ++ ", " ++ quoted "createdAt" ++ "})"]
  /\ rendersArgument "keyField"
       (connectionArgs [("name", AStr "PostComments"); ("limit", ANum 10);
                        ("fields", AList ["postId"; "createdAt"])]) = false.
Proof.
  destruct (@C8_connection_arguments
              (mkDirective "connection"
                 [("name", AStr "PostComments"); ("limit", ANum 10);
                  ("fields", AList ["postId"; "createdAt"])]) eq_refl)
    as (Hann & Hstr & _).
  split.
  - exact Hann.
  - exact (Hstr "keyField" (or_intror (or_introl eq_refl))).
Defined.


(* ================================================================== *)
(** ** The loader *)
(* ================================================================== *)

Section Loader.

Import Java.

Variable E : Collaborators.

Lemma lex_classList (names : list string) (c : ascii) (rest : string) :
  forallb isWord names = true -> isWordChar c = false ->
  lexFrom InCode (join ", " (map (fun n => n ++ ".class") names) ++ String c rest)
  = (commaSep (map classReference names) ++ lexFrom InCode (String c rest))%list.
Proof.
  intros Hn Hc. induction names as [|x [|y ys] IH].
  - reflexivity.
  - cbn [forallb] in Hn. rewrite andb_true_r in Hn.
    cbn [map join commaSep]. rewrite string_app_assoc.
    change (".class" ++ String c rest) with (String "." ("class" ++ String c rest)).
    rewrite (@lex_word x "."%char _ Hn eq_refl).
    change (lexFrom InCode (String "." ("class" ++ String c rest)))
      with (sym "." :: lexFrom InCode ("class" ++ String c rest)).
    rewrite (@lex_word "class" c rest eq_refl Hc). reflexivity.
  - change (forallb isWord (x :: y :: ys)) with (isWord x && forallb isWord (y :: ys)) in Hn.
    apply andb_true_iff in Hn as [Hx Hn]. specialize (IH Hn).
    change (map (fun n => n ++ ".class") (x :: y :: ys))
      with ((x ++ ".class") :: map (fun n => n ++ ".class") (y :: ys)).
    change (map classReference (x :: y :: ys))
      with (classReference x :: map classReference (y :: ys)).
    set (tail := map (fun n => n ++ ".class") (y :: ys)) in *.
    assert (Hj : join ", " ((x ++ ".class") :: tail)
                 = (x ++ ".class") ++ ", " ++ join ", " tail) by reflexivity.
    rewrite Hj, !string_app_assoc.
    change (".class" ++ ", " ++ join ", " tail ++ String c rest)
      with (String "." ("class" ++ String "," (String " " (join ", " tail ++ String c rest)))).
    rewrite (@lex_word x "."%char _ Hx eq_refl).
    change (lexFrom InCode
              (String "." ("class" ++ String "," (String " " (join ", " tail ++ String c rest)))))
      with (sym "." :: lexFrom InCode
                         ("class" ++ String "," (String " " (join ", " tail ++ String c rest)))).
    rewrite (@lex_word "class" ","%char _ eq_refl eq_refl).
    change (lexFrom InCode (String "," (String " " (join ", " tail ++ String c rest))))
      with (sym "," :: lexFrom InCode (join ", " tail ++ String c rest)).
    rewrite IH. reflexivity.
Qed.

Lemma modelsMethodImplementation_text :
  modelsMethodImplementation E = modelsPrefix ++ classList E ++ modelsSuffix.
Proof.
  unfold modelsMethodImplementation, modelsPrefix, modelsSuffix. cbn [join].
  rewrite !string_app_assoc. reflexivity.
Qed.

Lemma lex_modelsPrefix (rest : string) :
  lexFrom InCode (modelsPrefix ++ rest) = (lex modelsPrefix ++ lexFrom InCode rest)%list.
Proof. vm_compute. reflexivity. Qed.

(** C6, as the code has it.  The loader's [models()] (its third method)
    lists one class reference per entry of the visitor's type map, in the
    map's iteration order, whatever the selection of the pass is; the list
    is handed to a [HashSet] by the emitted code, the generator removes no
    duplicate itself. *)
Theorem C6_loader_lists_type_map :
  forallb isWord (map (getModelName E) (values (typeMap E))) = true ->
  exists m,
    nth_error (_methods (loaderClassDeclaration E)) 2 = Some m
    /\ method_name m = "models"
    /\ method_returnType m = Some "Set<Class<? extends Model>>"
    /\ lex (method_implementation m)
       = (lex modelsPrefix
          ++ commaSep (map (fun model => classReference (getModelName E model))
                           (values (typeMap E)))
          ++ lex modelsSuffix)%list
    /\ (forall selected : CodeGenModelMap,
          loaderClassDeclaration (withSelection selected E) = loaderClassDeclaration E).
Proof.
  intros Hw. exists (mkMethod "models" (Some "Set<Class<? extends Model>>")
                       (modelsMethodImplementation E) [] [] "public" noFlags ["Override"] []
                       (modelsMethodDocString)).
  split; [reflexivity|]. split; [reflexivity|]. split; [reflexivity|]. split; [|reflexivity].
  cbn [method_implementation]. rewrite modelsMethodImplementation_text.
  unfold lex at 1. rewrite lex_modelsPrefix. f_equal.
  unfold classList.
  rewrite <- (map_map (getModelName E) (fun n => n ++ ".class")).
  change modelsSuffix with (String ")" (nl ++ "    );" ++ nl ++ nl
                                        ++ "    return Immutable.of(modifiableSet);"
                                        ++ nl ++ "    ")) at 1.
  rewrite (@lex_classList _ ")"%char _ Hw eq_refl).
  now rewrite map_map.
Qed.

End Loader.

(** C6 as the specification words it fails when the pass selects
    one model of a schema of two: the loader lists both. *)
Lemma C6_loader_lists_unselected_models :
  map (getModelName (Sample.collaborators Sample.schema [("Post", Sample.Post)]))
      (values (getSelectedModels (Sample.collaborators Sample.schema [("Post", Sample.Post)])))
  = ["Post"]
  /\ classList (Sample.collaborators Sample.schema [("Post", Sample.Post)])
     = "Post.class, Comment.class"
  /\ classList (Sample.collaborators Sample.schema [("Post", Sample.Post)])
     <> join ", "
          (map (fun model => m_name model ++ ".class")
               (values (getSelectedModels
                          (Sample.collaborators Sample.schema [("Post", Sample.Post)])))).
Proof.
  split; [reflexivity|]. split; [reflexivity|]. discriminate.
Qed.

(** C6, an instance: [C6_loader_lists_type_map] at the sample schema of [Post] and
    [Comment]. *)
Lemma C6_loader_lists_type_map_witness :
  exists m,
    nth_error (_methods (loaderClassDeclaration Sample.env)) 2 = Some m
    /\ Java.lex (method_implementation m)
       = (Java.lex modelsPrefix
          ++ [Java.TWord "Post"; Java.sym "."; Java.TWord "class"; Java.sym ",";
              Java.TWord "Comment"; Java.sym "."; Java.TWord "class"]
          ++ Java.lex modelsSuffix)%list.
Proof.
  destruct (C6_loader_lists_type_map Sample.env eq_refl) as (m & Hm & _ & _ & Hlex & _).
  exists m. split; [exact Hm|exact Hlex].
Defined.


(* ================================================================== *)
(** ** The additional-import set *)
(* ================================================================== *)

Section ImportSet.

Variable E : Collaborators.

Lemma In_set_add (x y : string) (s : Packages) :
  In x (set_add y s) <-> x = y \/ In x s.
Proof.
  unfold set_add, mem. destruct (existsb (String.eqb y) s) eqn:Hm.
  - split; [now right|]. intros [->|H]; [|exact H].
    apply existsb_exists in Hm as (z & Hz & Heq). apply String.eqb_eq in Heq. now subst z.
  - rewrite in_app_iff. cbn [In]. intuition auto.
Qed.

Lemma Grows_refl (fields : list CodeGenField) (pk : Packages) : Grows E fields pk pk.
Proof. split; auto. Qed.

Lemma Grows_trans (fields : list CodeGenField) (a b c : Packages) :
  Grows E fields a b -> Grows E fields b c -> Grows E fields a c.
Proof.
  intros [H1 H2] [H3 H4]. split; [auto|].
  intros x Hx. destruct (H4 x Hx) as [Hb|Hq]; [auto|now right].
Qed.

Lemma Grows_more (fields fields' : list CodeGenField) (a b : Packages) :
  incl fields fields' -> Grows E fields a b -> Grows E fields' a b.
Proof.
  intros Hi [H1 H2]. split; [exact H1|].
  intros x Hx. destruct (H2 x Hx) as [Ha|(f & Hf & Ht & Hq)]; [now left|right].
  exists f. auto.
Qed.

Lemma registers_ret (fields : list CodeGenField) {A : Type} (a : A) :
  Registers E fields (ret a).
Proof. intros pk. apply Grows_refl. Qed.

Lemma registers_throw (fields : list CodeGenField) {A : Type} (e : JsError) :
  Registers E fields (@throw A e).
Proof. intros pk. apply Grows_refl. Qed.

Lemma registers_bind (fields : list CodeGenField) {A B : Type} (c : Gen A) (k : A -> Gen B) :
  Registers E fields c -> (forall a, Registers E fields (k a)) ->
  Registers E fields (bind c k).
Proof.
  intros Hc Hk pk. unfold bind. specialize (Hc pk).
  destruct (c pk) as [[a|e] pk1]; cbn [snd] in *; [|exact Hc].
  eapply Grows_trans; [exact Hc|apply Hk].
Qed.

Lemma registers_getNativeType (fields : list CodeGenField) (field : CodeGenField) :
  In field fields -> Registers E fields (getNativeType E field).
Proof.
  intros Hf pk. rewrite getNativeType_returns. cbn [snd]. unfold registerType.
  destruct (includes "." (super_getNativeType E field)) eqn:Hq; [|apply Grows_refl].
  split.
  - intros x Hx. apply In_set_add. now right.
  - intros x Hx. apply In_set_add in Hx as [->|Hx]; [right|now left].
    exists field. auto.
Qed.

Lemma registers_foldiM_from (fields : list CodeGenField) {A St : Type}
    (f : St -> A -> nat -> Gen St) (xs : list A) :
  (forall acc x i, In x xs -> Registers E fields (f acc x i)) ->
  forall start acc, Registers E fields (foldiM_from start f xs acc).
Proof.
  induction xs as [|x xs IH]; intros H start acc; cbn [foldiM_from].
  - apply registers_ret.
  - apply registers_bind; [apply H; now left|].
    intros a. apply IH. intros acc' y i Hy. apply H. now right.
Qed.

Lemma registers_mapiM_from (fields : list CodeGenField) {A B : Type}
    (f : A -> nat -> Gen B) (xs : list A) :
  (forall x i, In x xs -> Registers E fields (f x i)) ->
  forall start, Registers E fields (mapiM_from start f xs).
Proof.
  induction xs as [|x xs IH]; intros H start; cbn [mapiM_from].
  - apply registers_ret.
  - apply registers_bind; [apply H; now left|].
    intros y. apply registers_bind; [|intros ys; apply registers_ret].
    apply IH. intros z i Hz. apply H. now right.
Qed.

Lemma registers_nameAt (fields xs : list CodeGenField) (i : nat) :
  Registers E fields (nameAt xs i).
Proof.
  unfold nameAt. destruct (nth_error xs i); [apply registers_ret|apply registers_throw].
Qed.

Lemma registers_mapArray (fields : list CodeGenField) (f : string -> string)
    (v : option ArgValue) :
  Registers E fields (mapArray f v).
Proof.
  unfold mapArray. destruct v as [[| | | |l]|];
    first [apply registers_ret | apply registers_throw].
Qed.

End ImportSet.

(** One step of the search for [Registers]. *)
Ltac registers_step :=
  first
    [ apply registers_ret
    | apply registers_throw
    | apply registers_nameAt
    | apply registers_mapArray
    | apply registers_getNativeType; solve [auto]
    | apply registers_bind; [|intros ?]
    | match goal with
      | |- Registers _ _ (if ?b then _ else _) => destruct b
      end ].

Ltac registers := repeat registers_step.

Section ClassEmission.

Variable E : Collaborators.

Lemma In_nonNullable (model : CodeGenModel) (field : CodeGenField) :
  In field (nonNullableFieldsOf model) -> In field (m_fields model).
Proof. unfold nonNullableFieldsOf. intros H. now apply filter_In in H. Qed.

Lemma In_nullable (model : CodeGenModel) (field : CodeGenField) :
  In field (nullableFieldsOf model) -> In field (m_fields model).
Proof. unfold nullableFieldsOf. intros H. now apply filter_In in H. Qed.

Lemma In_stepFields (model : CodeGenModel) (field : CodeGenField) :
  In field (stepFieldsOf model) -> In field (m_fields model).
Proof.
  unfold stepFieldsOf. intros H. apply filter_In in H as [H _]. now apply In_nonNullable.
Qed.

Lemma registers_generateModelAnnotations (model : CodeGenModel) :
  Registers E (m_fields model) (generateModelAnnotations model).
Proof.
  unfold generateModelAnnotations. apply registers_bind; [|intros; apply registers_ret].
  unfold mapM, mapiM. apply registers_mapiM_from. intros d i _. registers.
Qed.

Lemma registers_generateField (model : CodeGenModel) (field : CodeGenField)
    (b : JavaDeclarationBlock) :
  In field (m_fields model) -> Registers E (m_fields model) (generateField E field b).
Proof. intros Hf. unfold generateField. registers. Qed.

Lemma registers_generateStepBuilderInterfaces (model : CodeGenModel) :
  Registers E (m_fields model) (generateStepBuilderInterfaces E model).
Proof.
  unfold generateStepBuilderInterfaces. cbv zeta. apply registers_bind.
  - unfold mapiM. apply registers_mapiM_from. intros x i Hx.
    apply In_stepFields in Hx. registers.
  - intros interfaces. apply registers_bind; [|intros; apply registers_ret].
    unfold foldM, foldiM. apply registers_foldiM_from. intros acc x i Hx.
    apply In_nullable in Hx. registers.
Qed.

Lemma registers_generateBuilderClass (model : CodeGenModel) (b : JavaDeclarationBlock) :
  Registers E (m_fields model) (generateBuilderClass E model b).
Proof.
  unfold generateBuilderClass. cbv zeta. apply registers_bind.
  { unfold foldM, foldiM. apply registers_foldiM_from. intros acc x i Hx.
    apply in_app_iff in Hx as [Hx|Hx]; [apply In_nonNullable in Hx|apply In_nullable in Hx];
      registers. }
  intros b1. apply registers_bind; [apply registers_nameAt|]. intros firstName.
  apply registers_bind.
  { unfold foldiM. apply registers_foldiM_from. intros acc x i Hx.
    apply In_stepFields in Hx. registers. }
  intros b2. apply registers_bind; [|intros; apply registers_ret].
  unfold foldM, foldiM. apply registers_foldiM_from. intros acc x i Hx.
  apply In_nullable in Hx. registers.
Qed.

Lemma registers_generateGetters (model : CodeGenModel) (b : JavaDeclarationBlock) :
  Registers E (m_fields model) (generateGetters E model b).
Proof.
  unfold generateGetters, foldM, foldiM. apply registers_foldiM_from.
  intros acc x i Hx. registers.
Qed.

Lemma registers_generateConstructor (model : CodeGenModel) (b : JavaDeclarationBlock) :
  Registers E (m_fields model) (generateConstructor E model b).
Proof.
  unfold generateConstructor. cbv zeta. apply registers_bind; [|intros; apply registers_ret].
  unfold mapM, mapiM. apply registers_mapiM_from. intros x i Hx. registers.
Qed.

(** Emitting one class only registers qualified native types of the
    model's fields, on top of what the set held before. *)
Lemma registers_generateClass (model : CodeGenModel) :
  Registers E (m_fields model) (generateClass E model).
Proof.
  unfold generateClass. apply registers_bind; [|intros; apply registers_ret].
  unfold generateClassDeclaration. cbv zeta.
  apply registers_bind; [apply registers_generateModelAnnotations|]. intros annotations.
  apply registers_bind.
  { unfold foldM, foldiM. apply registers_foldiM_from. intros acc x i Hx.
    now apply registers_generateField. }
  intros b1. apply registers_bind; [apply registers_generateStepBuilderInterfaces|].
  intros interfaces. apply registers_bind; [apply registers_generateBuilderClass|].
  intros b2. apply registers_bind; [apply registers_generateGetters|].
  intros b3. apply registers_bind; [apply registers_generateConstructor|].
  intros b4. apply registers_ret.
Qed.

Lemma mapiM_from_shift {A B : Type} (f : A -> Gen B) (xs : list A) (start : nat) :
  mapiM_from start (fun x _ => f x) xs = mapiM_from 0 (fun x _ => f x) xs.
Proof.
  revert start; induction xs as [|x xs IH]; intros start; cbn [mapiM_from]; [reflexivity|].
  now rewrite (IH (S start)), (IH 1).
Qed.

(** [xs.map(f)] runs [f] on the first item, and on the rest from the
    import set the first call left. *)
Lemma mapM_cons {A B : Type} (f : A -> Gen B) (x : A) (xs : list A) (pk : Packages) :
  mapM f (x :: xs) pk
  = match f x pk with
    | (Returned y, pk1) =>
        match mapM f xs pk1 with
        | (Returned ys, pk2) => (Returned (y :: ys), pk2)
        | (Thrown e, pk2) => (Thrown e, pk2)
        end
    | (Thrown e, pk1) => (Thrown e, pk1)
    end.
Proof.
  unfold mapM, mapiM. cbn [mapiM_from]. unfold bind at 1.
  destruct (f x pk) as [[y|e] pk1]; [|reflexivity].
  rewrite mapiM_from_shift. unfold bind, ret.
  now destruct (mapiM_from 0 (fun x0 _ => f x0) xs pk1) as [[ys|e] pk2].
Qed.

(** C9, as the code has it.  The additional-import set belongs to the
    visitor, not to one class: [generatePackageHeader] renders the set it
    is given and leaves it as it is; emitting a model's class removes
    nothing from the set and adds only qualified native types of that
    model's fields; in a pass the class of each selected model is emitted
    from the set the classes before it left, and the set after the pass
    still holds everything registered during it. *)
Theorem C9_import_set_accumulates :
  (forall pk : Packages,
     generatePackageHeader E pk
     = (Returned (join nl [ generatePackageName E; "";
                            generateImportStatements
                              (pk ++ [""] ++ CLASS_IMPORT_PACKAGES E)%list ]),
        pk))
  /\ (forall (model : CodeGenModel) (pk : Packages),
        Grows E (m_fields model) pk (snd (generateClass E model pk)))
  /\ (forall (model : CodeGenModel) (models : list CodeGenModel) (pk : Packages),
        mapM (generateClass E) (model :: models) pk
        = match generateClass E model pk with
          | (Returned text, pk1) =>
              match mapM (generateClass E) models pk1 with
              | (Returned texts, pk2) => (Returned (text :: texts), pk2)
              | (Thrown e, pk2) => (Thrown e, pk2)
              end
          | (Thrown e, pk1) => (Thrown e, pk1)
          end)
  /\ (forall pk : Packages,
        Grows E (flat_map m_fields (values (getSelectedModels E))) pk
          (snd (generateClasses E pk))).
Proof.
  split; [reflexivity|]. split; [intros model pk; apply registers_generateClass|].
  split; [intros model models pk; apply mapM_cons|].
  intros pk. revert pk. change (Registers E (flat_map m_fields (values (getSelectedModels E)))
                                   (generateClasses E)).
  unfold generateClasses. apply registers_bind.
  - unfold mapM, mapiM. apply registers_mapiM_from. intros model i Hm pk.
    apply Grows_more with (fields := m_fields model); [|apply registers_generateClass].
    intros f Hf. apply in_flat_map. eauto.
  - intros result. apply registers_bind; [intros pk; apply Grows_refl|].
    intros header. apply registers_ret.
Qed.

End ClassEmission.

(** C9 as the specification words it fails in a pass over [Event]
    and [Post]: [Event] registers "java.util.Date", [Post] registers
    nothing by itself, yet the emission of [Post] starts from and ends with
    a set that holds [Event]'s import; rendering the header leaves the set
    as it is, and after the pass the set still holds the import. *)
Lemma C9_imports_carry_over_between_models :
  snd (generateClass Sample.env Sample.Event []) = ["java.util.Date"]
  /\ snd (generateClass Sample.env Sample.Post []) = []
  /\ snd (generateClass Sample.env Sample.Post
            (snd (generateClass Sample.env Sample.Event [])))
     = ["java.util.Date"]
  /\ snd (generatePackageHeader Sample.env ["java.util.Date"]) = ["java.util.Date"]
  /\ (exists text,
        generateClasses
          (Sample.collaborators Sample.schema
             [("Event", Sample.Event); ("Post", Sample.Post)]) []
        = (Returned text, ["java.util.Date"])
        /\ includes "import java.util.Date;" text = true).
Proof.
  split; [vm_compute; reflexivity|]. split; [vm_compute; reflexivity|].
  split; [vm_compute; reflexivity|]. split; [reflexivity|].
  eexists. split; vm_compute; reflexivity.
Qed.

(* ================================================================== *)
(** ** Model annotations *)
(* ================================================================== *)

Section ModelAnnotations.

Lemma mapM_nil {A B : Type} (f : A -> Gen B) (pk : Packages) :
  mapM f [] pk = (Returned [], pk).
Proof. reflexivity. Qed.

(** One directive: its annotation when its arguments are well formed, a
    thrown error when a "key" directive has no array of fields. *)
Lemma modelAnnotation_round (model : CodeGenModel) (d : CodeGenDirective) (pk : Packages) :
  (if String.eqb (d_name d) "model" then
     ret ("ModelConfig(targetName = " ++ quoted (m_name model) ++ ")")
   else if String.eqb (d_name d) "key" then
     fs <- mapArray quoted (lookup "fields" (d_arguments d)) ;;
     ret ("Index(" ++ join ", " [ "name = " ++ quoted (toString (lookup "name" (d_arguments d)));
                                  "fields = {" ++ join "," fs ++ "}" ] ++ ")")
   else ret "") pk
  = if String.eqb (d_name d) "model" || negb (String.eqb (d_name d) "key")
       || isArray (lookup "fields" (d_arguments d))
    then (Returned (modelAnnotationOf model d), pk)
    else (Thrown (TypeError (match lookup "fields" (d_arguments d) with
                             | None | Some ANull => "Cannot read property 'map' of undefined"
                             | _ => "map is not a function"
                             end)), pk).
Proof.
  unfold modelAnnotationOf.
  destruct (String.eqb (d_name d) "model"); [reflexivity|].
  destruct (String.eqb (d_name d) "key"); [|reflexivity].
  cbn [orb negb].
  destruct (lookup "fields" (d_arguments d)) as [[| | | |l]|]; reflexivity.
Qed.

Lemma modelAnnotations_map (model : CodeGenModel) (ds : list CodeGenDirective)
    (pk : Packages) :
  let wellFormed := fun d => String.eqb (d_name d) "model"
                             || negb (String.eqb (d_name d) "key")
                             || isArray (lookup "fields" (d_arguments d)) in
  if forallb wellFormed ds
  then mapM (fun directive =>
               if String.eqb (d_name directive) "model" then
                 ret ("ModelConfig(targetName = " ++ quoted (m_name model) ++ ")")
               else if String.eqb (d_name directive) "key" then
                 let arg1 := "name = " ++ quoted (toString (lookup "name" (d_arguments directive))) in
                 fs <- mapArray quoted (lookup "fields" (d_arguments directive)) ;;
                 let arg2 := "fields = {" ++ join "," fs ++ "}" in
                 ret ("Index(" ++ join ", " [arg1; arg2] ++ ")")
               else ret "") ds pk
       = (Returned (map (modelAnnotationOf model) ds), pk)
  else exists message,
         mapM (fun directive =>
                 if String.eqb (d_name directive) "model" then
                   ret ("ModelConfig(targetName = " ++ quoted (m_name model) ++ ")")
                 else if String.eqb (d_name directive) "key" then
                   let arg1 := "name = " ++ quoted (toString (lookup "name" (d_arguments directive))) in
                   fs <- mapArray quoted (lookup "fields" (d_arguments directive)) ;;
                   let arg2 := "fields = {" ++ join "," fs ++ "}" in
                   ret ("Index(" ++ join ", " [arg1; arg2] ++ ")")
                 else ret "") ds pk
         = (Thrown (TypeError message), pk).
Proof.
  cbv zeta. induction ds as [|d ds IH]; [reflexivity|].
  rewrite mapM_cons. cbn [forallb].
  pose proof (modelAnnotation_round model d pk) as Hd. cbv zeta in Hd. rewrite Hd. clear Hd.
  destruct (String.eqb (d_name d) "model" || negb (String.eqb (d_name d) "key")
            || isArray (lookup "fields" (d_arguments d))); cbn [andb].
  - destruct (forallb _ ds).
    + now rewrite IH.
    + destruct IH as [message ->]. eauto.
  - eauto.
Qed.

(** The annotations that are not empty are those of the "model" and "key"
    directives. *)
Lemma modelAnnotations_filter (model : CodeGenModel) (ds : list CodeGenDirective) :
  forallb (fun d => String.eqb (d_name d) "model"
                    || negb (String.eqb (d_name d) "key")
                    || isArray (lookup "fields" (d_arguments d))) ds = true ->
  filter (fun a => negb (String.eqb a "")) (map (modelAnnotationOf model) ds)
  = map (modelAnnotationOf model) (filter isModelOrKey ds).
Proof.
  induction ds as [|d ds IH]; [reflexivity|].
  cbn [forallb map filter]. intros H. apply andb_true_iff in H as [Hd H].
  rewrite (IH H).
  assert (Hhead : negb (String.eqb (modelAnnotationOf model d) "") = isModelOrKey d).
  { unfold isModelOrKey, modelAnnotationOf.
    destruct (String.eqb (d_name d) "model"); [reflexivity|].
    destruct (String.eqb (d_name d) "key"); [|reflexivity].
    cbn [orb negb] in Hd |- *.
    destruct (lookup "fields" (d_arguments d)) as [[| | | |l]|]; try discriminate Hd.
    reflexivity. }
  rewrite Hhead. now destruct (isModelOrKey d).
Qed.

Lemma modelAnnotations_returned (model : CodeGenModel) (pk : Packages) :
  keyDirectivesWellFormed model = true ->
  generateModelAnnotations model pk
  = (Returned (("SuppressWarnings(" ++ quoted "all" ++ ")")
                 :: map (modelAnnotationOf model) (filter isModelOrKey (m_directives model))),
     pk).
Proof.
  unfold keyDirectivesWellFormed, generateModelAnnotations. intros Hwf.
  pose proof (modelAnnotations_map model (m_directives model) pk) as Hmap.
  cbv zeta in Hmap |- *. rewrite Hwf in Hmap.
  unfold bind at 1. rewrite Hmap. unfold ret.
  cbn [filter]. change (negb (String.eqb ("SuppressWarnings(" ++ quoted "all" ++ ")") ""))
    with true. cbn iota.
  now rewrite (modelAnnotations_filter model _ Hwf).
Qed.

Lemma modelAnnotations_thrown (model : CodeGenModel) (pk : Packages) :
  keyDirectivesWellFormed model = false ->
  exists message, generateModelAnnotations model pk = (Thrown (TypeError message), pk).
Proof.
  unfold keyDirectivesWellFormed, generateModelAnnotations. intros Hwf.
  pose proof (modelAnnotations_map model (m_directives model) pk) as Hmap.
  cbv zeta in Hmap |- *. rewrite Hwf in Hmap.
  destruct Hmap as [message Hmap]. exists message. unfold bind at 1. now rewrite Hmap.
Qed.

(** [generateModelAnnotations] returns exactly when every "key" directive
    carries an array of fields.  It then answers the warning suppression
    followed by one annotation per "model" or "key" directive, in the order
    of the directives, and drops every other directive; otherwise it throws
    a [TypeError].  The import set is left as it was in both cases. *)
Theorem generateModelAnnotations_outcome (model : CodeGenModel) (pk : Packages) :
  if keyDirectivesWellFormed model
  then generateModelAnnotations model pk
       = (Returned (("SuppressWarnings(" ++ quoted "all" ++ ")")
                      :: map (modelAnnotationOf model)
                           (filter isModelOrKey (m_directives model))),
          pk)
       /\ forallb (fun a => negb (String.eqb a ""))
            (map (modelAnnotationOf model) (filter isModelOrKey (m_directives model)))
          = true
  else exists message,
         generateModelAnnotations model pk = (Thrown (TypeError message), pk).
Proof.
  destruct (keyDirectivesWellFormed model) eqn:Hwf.
  - split; [exact (modelAnnotations_returned model pk Hwf)|].
    unfold keyDirectivesWellFormed in Hwf.
    rewrite <- (modelAnnotations_filter model _ Hwf). apply forallb_filter.
  - exact (modelAnnotations_thrown model pk Hwf).
Qed.

End ModelAnnotations.


(* ================================================================== *)
(** ** The emission of one class *)
(* ================================================================== *)

Section ClassParts.

Variable E : Collaborators.

Lemma mapiM_from_pure {A B : Type} (f : A -> nat -> Gen B) (g : nat -> A -> B)
    (reg : A -> Packages -> Packages) (xs : list A) :
  forall (start : nat) (pk : Packages),
    (forall i x pk', nth_error xs i = Some x ->
       f x (start + i) pk' = (Returned (g (start + i) x), reg x pk')) ->
    mapiM_from start f xs pk
    = (Returned (mapi_from start g xs), fold_left (fun p x => reg x p) xs pk).
Proof.
  induction xs as [|x xs IH]; intros start pk H; cbn [mapiM_from mapi_from fold_left].
  - reflexivity.
  - unfold bind at 1. pose proof (H 0 x pk eq_refl) as H0. rewrite Nat.add_0_r in H0.
    rewrite H0. unfold bind at 1. rewrite (IH (S start)); [reflexivity|].
    intros i y pk' Hi. rewrite Nat.add_succ_l, <- Nat.add_succ_r. now apply (H (S i)).
Qed.

Lemma fold_left_map {A B St : Type} (push : B -> St -> St) (g : A -> B) (xs : list A)
    (acc : St) :
  fold_left (fun s x => push (g x) s) xs acc = fold_left (fun s y => push y s) (map g xs) acc.
Proof.
  revert acc; induction xs as [|x xs IH]; intros acc; cbn [fold_left map]; auto.
Qed.

Lemma fold_left_snoc {A : Type} (xs base : list A) :
  fold_left (fun s y => (s ++ [y])%list) xs base = (base ++ xs)%list.
Proof.
  revert base; induction xs as [|x xs IH]; intros base; cbn [fold_left].
  - now rewrite app_nil_r.
  - now rewrite IH, <- app_assoc.
Qed.

Lemma nestedClasses_fold (ns : list JavaDeclarationBlock) k n a f st i an c bl mem meth nest :
  fold_left (fun decl builderInterface => Block.nestedClass builderInterface decl) ns
    (mkBlock k n a f st i an c bl mem meth nest)
  = mkBlock k n a f st i an c bl mem meth (nest ++ ns).
Proof.
  revert nest; induction ns as [|x ns IH]; intros nest; cbn [fold_left].
  - now rewrite app_nil_r.
  - unfold Block.nestedClass at 2. cbn [_kind _name _access _final _static _implements
      _annotations _comment _block _members _methods _nestedClasses].
    rewrite IH. now rewrite <- app_assoc.
Qed.

Lemma nestedClass_mk (x : JavaDeclarationBlock) k n a f st i an c bl mem meth nest :
  Block.nestedClass x (mkBlock k n a f st i an c bl mem meth nest)
  = mkBlock k n a f st i an c bl mem meth (nest ++ [x]).
Proof. reflexivity. Qed.

(** The loop of [generateField] over the fields. *)
Lemma generateField_loop (fields : list CodeGenField) (b : JavaDeclarationBlock)
    (pk : Packages) :
  foldM (fun decl field => generateField E field decl) fields b pk
  = (Returned (fold_left (fun s y => Block.pushMember y s) (map (dataMember E) fields) b),
     registerTypes E fields pk).
Proof.
  unfold foldM, foldiM.
  rewrite (@foldiM_from_pushes _ _ _ Block.pushMember _ (fun _ f => dataMember E f)
             (registerType E)).
  - now rewrite mapi_from_const.
  - intros i x acc' pk' _. unfold generateField, bind. now rewrite getNativeType_returns.
Qed.

(** [generateGetters] never throws: it adds one getter per field. *)
Lemma generateGetters_exact (model : CodeGenModel) (b : JavaDeclarationBlock) (pk : Packages) :
  generateGetters E model b pk
  = (Returned (fold_left (fun s y => Block.pushMethod y s)
                 (map (getterMethod E) (m_fields model)) b),
     registerTypes E (m_fields model) pk).
Proof.
  unfold generateGetters, foldM, foldiM.
  rewrite (@foldiM_from_pushes _ _ _ Block.pushMethod _ (fun _ f => getterMethod E f)
             (registerType E)).
  - now rewrite mapi_from_const.
  - intros i x acc' pk' _. unfold bind. now rewrite getNativeType_returns.
Qed.

(** [generateConstructor] never throws: it adds the constructor. *)
Lemma generateConstructor_exact (model : CodeGenModel) (b : JavaDeclarationBlock)
    (pk : Packages) :
  generateConstructor E model b pk
  = (Returned (Block.pushMethod (constructorMethod E model) b),
     registerTypes E (m_fields model) pk).
Proof.
  unfold generateConstructor. cbv zeta. unfold bind at 1, mapM, mapiM.
  rewrite (@mapiM_from_pure _ _ _ (fun _ f => constructorArgument E f) (registerType E)).
  - now rewrite mapi_from_const.
  - intros i x pk' _. unfold bind. now rewrite getNativeType_returns.
Qed.

(** [generateStepBuilderInterfaces] never throws: it answers the step
    interfaces and the terminal interface. *)
Lemma generateStepBuilderInterfaces_exact (model : CodeGenModel) (pk : Packages) :
  generateStepBuilderInterfaces E model pk
  = (Returned (mapi_from 0 (stepInterfaceDecl E (requiredFields model)) (requiredFields model)
               ++ [terminalInterface E model])%list,
     registerTypes E (nullableFieldsOf model) (registerTypes E (requiredFields model) pk)).
Proof.
  unfold generateStepBuilderInterfaces. rewrite stepFieldsOf_required. cbv zeta.
  set (required := requiredFields model).
  unfold bind at 1, mapiM.
  rewrite (@mapiM_from_pure _ _ _ (stepInterfaceDecl E required) (registerType E)).
  - unfold bind at 1, foldM, foldiM.
    rewrite (@foldiM_from_pushes _ _ _ (fun (y : string) s => (s ++ [y])%list) _
               (fun _ f => optionalSignature E f) (registerType E)).
    + rewrite mapi_from_const, fold_left_snoc. reflexivity.
    + intros i x acc' pk' _. unfold bind. now rewrite getNativeType_returns.
  - intros i x pk' Hi. cbn [Nat.add].
    rewrite (isLast_spec _ _ Hi).
    unfold stepInterfaceDecl, stepSignature, nextStepName, nameAt. rewrite Nat.add_1_r.
    destruct (nth_error required (S i)) as [next|]; unfold bind, ret;
      rewrite getNativeType_returns; reflexivity.
Qed.

End ClassParts.


Section ClassDeclaration.

Variable E : Collaborators.

Lemma generateEqualsMethod_pushes (model : CodeGenModel) :
  exists m, method_name m = "equals" /\ method_returnType m = Some "boolean"
            /\ forall b, generateEqualsMethod E model b = Block.pushMethod m b.
Proof.
  unfold generateEqualsMethod, Block.addClassMethod. cbv zeta.
  eexists. split; [|split; [|intros b; reflexivity]]; reflexivity.
Qed.

Lemma generateHashCodeMethod_pushes (model : CodeGenModel) :
  exists m, method_name m = "hashCode" /\ method_returnType m = Some "int"
            /\ forall b, generateHashCodeMethod E model b = Block.pushMethod m b.
Proof.
  unfold generateHashCodeMethod, Block.addClassMethod. cbv zeta.
  eexists. split; [|split; [|intros b; reflexivity]]; reflexivity.
Qed.

Lemma pushMember_mk (m : ClassMember) k n a f st i an c bl mem meth nest :
  Block.pushMember m (mkBlock k n a f st i an c bl mem meth nest)
  = mkBlock k n a f st i an c bl (mem ++ [m]) meth nest.
Proof. reflexivity. Qed.

(** The whole of [generateClass] before rendering, for a model whose "key"
    directives are well formed. *)
Lemma generateClassDeclaration_exact (model : CodeGenModel) (pk : Packages) :
  keyDirectivesWellFormed model = true ->
  exists equalsMethod hashCodeMethod,
    method_name equalsMethod = "equals" /\ method_name hashCodeMethod = "hashCode"
    /\ generateClassDeclaration E model pk
       = match requiredFields model with
         | [] =>
             (Thrown (TypeError "Cannot read property 'name' of undefined"),
              registerTypes E (builderSlotFields model)
                (registerTypes E (nullableFieldsOf model)
                   (registerTypes E (requiredFields model)
                      (registerTypes E (m_fields model) pk))))
         | first :: _ =>
             (Returned
                (mkBlock "class" (getModelName E model) "public" true false ["Model"]
                   (("SuppressWarnings(" ++ quoted "all" ++ ")")
                      :: map (modelAnnotationOf model)
                           (filter isModelOrKey (m_directives model)))
                   ("This is an auto generated class representing the " ++ m_name model
                    ++ " type in your schema.")
                   ""
                   (map (queryMember E) (m_fields model)
                    ++ map (dataMember E) (m_fields model))
                   (map (getterMethod E) (m_fields model)
                    ++ [constructorMethod E model; equalsMethod; hashCodeMethod])
                   (nestedTypesOf E model (f_name first))),
              registeredByClass E model pk)
         end.
Proof.
  intros Hwf.
  destruct (generateEqualsMethod_pushes model) as (eqm & Heqn & _ & Heq).
  destruct (generateHashCodeMethod_pushes model) as (hm & Hhn & _ & Hh).
  exists eqm, hm. split; [exact Heqn|]. split; [exact Hhn|].
  unfold generateClassDeclaration. cbv zeta.
  pose proof (modelAnnotations_returned model pk Hwf) as Hann.
  unfold bind at 1. rewrite Hann.
  cbv beta iota delta [Block.final Block.withComment Block.implements Block.withName
                        Block.access Block.asKind Block.annotate Block.new
                        _kind _name _access _final _static _implements
                        _annotations _comment _block _members _methods _nestedClasses].
  unfold generateQueryFields, Block.addClassMember.
  rewrite (fold_left_map Block.pushMember
             (fun field => mkMember (constantCase E (f_name field)) "QueryField"
                             ("field(" ++ quoted (getFieldName E field) ++ ")") []
                             "public" flags_final_static)).
  rewrite pushMembers_fold. cbn [app].
  unfold bind at 1. rewrite generateField_loop, pushMembers_fold.
  unfold bind at 1. rewrite generateStepBuilderInterfaces_exact, nestedClasses_fold.
  cbn [app]. unfold bind at 1.
  destruct (requiredFields model) as [|first rest] eqn:Hreq.
  - rewrite (generateBuilderClass_throws E model _ _ Hreq). reflexivity.
  - rewrite (generateBuilderClass_returns E model _ _ Hreq), nestedClass_mk.
    unfold bind at 1. rewrite generateGetters_exact, pushMethods_fold. cbn [app].
    unfold bind at 1. rewrite generateConstructor_exact, pushMethod_mk.
    rewrite Heq, Hh, !pushMethod_mk. unfold ret, registeredByClass, nestedTypesOf.
    rewrite Hreq, <- !app_assoc. reflexivity.
Qed.

End ClassDeclaration.


Section ClassOutcome.

Variable E : Collaborators.

Lemma generateClass_cases (model : CodeGenModel) (pk : Packages) :
  if emittable model
  then exists text, fst (generateClass E model pk) = Returned text
  else exists message, fst (generateClass E model pk) = Thrown (TypeError message).
Proof.
  unfold emittable, generateClass, bind.
  destruct (keyDirectivesWellFormed model) eqn:Hwf; cbn [andb].
  - destruct (generateClassDeclaration_exact E model pk Hwf) as (eqm & hm & _ & _ & ->).
    destruct (requiredFields model) as [|first rest]; unfold ret;
      cbn [length Nat.eqb negb fst]; eauto.
  - destruct (modelAnnotations_thrown model pk Hwf) as [message Hann].
    unfold generateClassDeclaration, bind.
    rewrite Hann. cbv beta iota. cbn [fst]. eauto.
Qed.

(** [generateClass] emits a class only for a model whose "key" directives
    all carry an array of fields and that keeps a required field once the
    identity is left out: for no other model does it return. *)
Theorem generateClass_emits_only_emittable (model : CodeGenModel) (pk : Packages)
    (text : string) :
  fst (generateClass E model pk) = Returned text ->
  keyDirectivesWellFormed model = true /\ requiredFields model <> [].
Proof.
  intros Hret. pose proof (generateClass_cases model pk) as Hcase.
  unfold emittable in Hcase.
  destruct (keyDirectivesWellFormed model); cbn [andb] in Hcase.
  - split; [reflexivity|].
    destruct (requiredFields model) as [|first rest]; [|discriminate].
    cbn [length Nat.eqb negb] in Hcase. destruct Hcase as [message Hm].
    rewrite Hm in Hret. discriminate Hret.
  - destruct Hcase as [message Hm]. rewrite Hm in Hret. discriminate Hret.
Qed.

Lemma map_name_stepInterfaces (required xs : list CodeGenField) (start : nat) :
  map _name (mapi_from start (stepInterfaceDecl E required) xs)
  = map (fun field => getStepInterfaceName E (f_name field)) xs.
Proof.
  revert start; induction xs as [|x xs IH]; intros start; cbn [mapi_from map];
    [reflexivity|]. now rewrite IH.
Qed.

(** The layout of an emitted class.  It is a public final class of the
    model's name that implements [Model].  Its members are the query
    constants of all fields, then their data members.  Its nested types
    are the step interfaces in chain order ("I" + PascalCase(name) +
    "Step"), the terminal interface and the builder.  Its methods are the
    getters in field order ("get" + PascalCase(name)), the constructor,
    [equals] and [hashCode]. *)
Theorem generateClass_layout (model : CodeGenModel) (pk : Packages) :
  emittable model = true ->
  exists cls,
    fst (generateClassDeclaration E model pk) = Returned cls
    /\ _kind cls = "class" /\ _access cls = "public" /\ _final cls = true
    /\ _static cls = false /\ _implements cls = ["Model"]
    /\ _name cls = getModelName E model
    /\ map member_name (_members cls)
       = (map (fun field => constantCase E (f_name field)) (m_fields model)
          ++ map (getFieldName E) (m_fields model))%list
    /\ map _name (_nestedClasses cls)
       = (map (fun field => ("I" ++ pascalCase E (f_name field) ++ "Step")%string)
              (requiredFields model)
          ++ [("I" ++ pascalCase E "Build" ++ "Step")%string; "Builder"])%list
    /\ map method_name (_methods cls)
       = (map (fun field => ("get" ++ pascalCase E (f_name field))%string) (m_fields model)
          ++ [getModelName E model; "equals"; "hashCode"])%list.
Proof.
  unfold emittable. intros Hem. apply andb_true_iff in Hem as [Hwf Hne].
  destruct (generateClassDeclaration_exact E model pk Hwf)
    as (eqm & hm & Heqn & Hhn & Hex).
  rewrite Hex. destruct (requiredFields model) as [|first rest] eqn:Hreq;
    [discriminate Hne|].
  eexists. split; [reflexivity|].
  cbn [_kind _access _final _static _implements _name _members _methods _nestedClasses].
  repeat split.
  - now rewrite map_app, !map_map.
  - unfold nestedTypesOf. rewrite map_app, map_name_stepInterfaces, Hreq. reflexivity.
  - rewrite map_app, map_map. cbn [map]. now rewrite Heqn, Hhn.
Qed.

Lemma registerType_keeps (field : CodeGenField) (pk : Packages) (x : string) :
  In x pk -> In x (registerType E field pk).
Proof.
  intros Hx. unfold registerType.
  destruct (includes "." (super_getNativeType E field)); [|exact Hx].
  apply In_set_add. now right.
Qed.

Lemma registerTypes_keeps (fields : list CodeGenField) (pk : Packages) (x : string) :
  In x pk -> In x (registerTypes E fields pk).
Proof.
  unfold registerTypes. revert pk; induction fields as [|f fs IH]; intros pk Hx;
    cbn [fold_left]; [exact Hx|]. apply IH. now apply registerType_keeps.
Qed.

Lemma registerTypes_registers (fields : list CodeGenField) (pk : Packages)
    (field : CodeGenField) :
  In field fields -> includes "." (super_getNativeType E field) = true ->
  In (super_getNativeType E field) (registerTypes E fields pk).
Proof.
  unfold registerTypes. revert pk; induction fields as [|f fs IH]; intros pk Hin Hq;
    [contradiction|]. cbn [fold_left]. destruct Hin as [->|Hin].
  - apply (registerTypes_keeps fs). unfold registerType. rewrite Hq.
    apply In_set_add. now left.
  - now apply IH.
Qed.

(** The import set after [generateClass], whatever its outcome. *)
Lemma generateClass_state (model : CodeGenModel) (pk : Packages) :
  snd (generateClass E model pk)
  = if keyDirectivesWellFormed model
    then match requiredFields model with
         | [] => registerTypes E (builderSlotFields model)
                   (registerTypes E (nullableFieldsOf model)
                      (registerTypes E (requiredFields model)
                         (registerTypes E (m_fields model) pk)))
         | _ :: _ => registeredByClass E model pk
         end
    else pk.
Proof.
  unfold generateClass, bind.
  destruct (keyDirectivesWellFormed model) eqn:Hwf.
  - destruct (generateClassDeclaration_exact E model pk Hwf) as (eqm & hm & _ & _ & ->).
    now destruct (requiredFields model).
  - destruct (modelAnnotations_thrown model pk Hwf) as [message Hann].
    unfold generateClassDeclaration, bind.
    now rewrite Hann.
Qed.

(** When [generateClass] emits the class of a model, the import set holds
    the native type of every field of the model whose type is qualified
    (holds a dot). *)
Theorem generateClass_registers_every_qualified_type (model : CodeGenModel) (pk : Packages)
    (field : CodeGenField) (text : string) :
  fst (generateClass E model pk) = Returned text ->
  In field (m_fields model) ->
  includes "." (super_getNativeType E field) = true ->
  In (super_getNativeType E field) (snd (generateClass E model pk)).
Proof.
  intros Hret Hin Hq.
  pose proof (generateClass_cases model pk) as Hcase. unfold emittable in Hcase.
  rewrite generateClass_state.
  destruct (keyDirectivesWellFormed model); cbn [andb] in Hcase;
    [|destruct Hcase as [message Hm]; rewrite Hm in Hret; discriminate Hret].
  assert (Hbase : In (super_getNativeType E field) (registerTypes E (m_fields model) pk))
    by now apply registerTypes_registers.
  destruct (requiredFields model); unfold registeredByClass;
    repeat (first [exact Hbase | apply registerTypes_keeps]).
Qed.

End ClassOutcome.

(** [generateClass_emits_only_emittable] at [Post], whose class is
    emitted. *)
Lemma generateClass_emits_only_emittable_witness :
  (exists text, fst (generateClass Sample.env Sample.Post []) = Returned text)
  /\ keyDirectivesWellFormed Sample.Post = true /\ requiredFields Sample.Post <> [].
Proof.
  destruct (fst (generateClass Sample.env Sample.Post [])) as [text|e] eqn:Hret.
  - split; [now exists text|].
    exact (@generateClass_emits_only_emittable Sample.env Sample.Post [] text Hret).
  - vm_compute in Hret. discriminate Hret.
Defined.

(** [generateClass_layout] at [Post]. *)
Lemma generateClass_layout_witness :
  exists cls,
    fst (generateClassDeclaration Sample.env Sample.Post []) = Returned cls
    /\ _access cls = "public"
    /\ map member_name (_members cls) = ["ID"; "TITLE"; "CONTENT"; "id"; "title"; "content"]
    /\ map _name (_nestedClasses cls) = ["ITitleStep"; "IBuildStep"; "Builder"]
    /\ map method_name (_methods cls)
       = ["getId"; "getTitle"; "getContent"; "Post"; "equals"; "hashCode"].
Proof.
  destruct (@generateClass_layout Sample.env Sample.Post [] eq_refl)
    as (cls & Hcls & _ & Haccess & _ & _ & _ & _ & Hmembers & Hnested & Hmethods).
  exists cls. split; [exact Hcls|]. split; [exact Haccess|]. split; [exact Hmembers|].
  split; [exact Hnested|exact Hmethods].
Defined.

(** [generateClass_registers_every_qualified_type] at [Event], whose
    [startsAt] is a date. *)
Lemma generateClass_registers_every_qualified_type_witness :
  (exists text, fst (generateClass Sample.env Sample.Event []) = Returned text)
  /\ In "java.util.Date" (snd (generateClass Sample.env Sample.Event [])).
Proof.
  destruct (fst (generateClass Sample.env Sample.Event [])) as [text|e] eqn:Hret.
  - split; [now exists text|].
    apply (@generateClass_registers_every_qualified_type Sample.env Sample.Event []
             (Sample.field "startsAt" "AWSDateTime" false) text Hret).
    + right. right. left. reflexivity.
    + reflexivity.
  - vm_compute in Hret. discriminate Hret.
Defined.


(* ================================================================== *)
(** ** A pass over the selected models *)
(* ================================================================== *)

Section ClassPass.

Variable E : Collaborators.

(** The classes of a list of models: all of them when every model is
    emittable, a thrown error as soon as one is not. *)
Lemma mapM_generateClass (models : list CodeGenModel) :
  forall pk : Packages,
    if forallb emittable models
    then exists texts final,
           mapM (generateClass E) models pk = (Returned texts, final)
           /\ length texts = length models
    else exists message final,
           mapM (generateClass E) models pk = (Thrown (TypeError message), final).
Proof.
  induction models as [|model models IH]; intros pk.
  - cbn [forallb]. exists [], pk. split; reflexivity.
  - cbn [forallb]. rewrite mapM_cons.
    pose proof (generateClass_cases E model pk) as Hm.
    destruct (generateClass E model pk) as [[text|e] pk1]; cbn [fst] in Hm.
    + destruct (emittable model); [|destruct Hm as [? Hm]; discriminate Hm].
      cbn [andb]. specialize (IH pk1).
      destruct (forallb emittable models).
      * destruct IH as (texts & final & -> & Hlen). exists (text :: texts), final.
        split; [reflexivity|]. cbn [length]. now rewrite Hlen.
      * destruct IH as (message & final & ->). eauto.
    + destruct (emittable model); [destruct Hm as [? Hm]; discriminate Hm|].
      destruct Hm as [message Hm]. injection Hm as ->. cbn [andb]. eauto.
Qed.


End ClassPass.



(* ================================================================== *)
(** ** The builder against its interfaces *)
(* ================================================================== *)

Section BuilderInterfaces.

Variable E : Collaborators.

(** The terminal interface declares [build()], the identity setter and one
    setter per optional field, in the order of the optional fields, each
    setter answering the terminal interface. *)
Theorem terminal_interface_lines (model : CodeGenModel) (pk : Packages) :
  nl_free (getModelName E model) = true ->
  nl_free (pascalCase E "Build") = true ->
  forallb (fun field => nl_free (getFieldName E field) && nl_free (nativeTypeName E field))
          (nullableFieldsOf model) = true ->
  exists steps terminal,
    fst (generateStepBuilderInterfaces E model pk) = Returned (steps ++ [terminal])%list
    /\ length steps = length (requiredFields model)
    /\ _name terminal = getStepInterfaceName E "Build"
    /\ lines (_block terminal)
       = indent (getModelName E model ++ " build();")
           :: indent (getStepInterfaceName E "Build"
                      ++ " id(String id) throws AmplifyException;")
           :: map (fun field =>
                     indent (getStepInterfaceName E "Build" ++ " " ++ getFieldName E field
                             ++ "(" ++ nativeTypeName E field ++ " "
                             ++ getFieldName E field ++ ");"))
                  (nullableFieldsOf model).
Proof.
  intros Hm Hb Hf.
  exists (mapi_from 0 (stepInterfaceDecl E (requiredFields model)) (requiredFields model)),
    (terminalInterface E model).
  rewrite generateStepBuilderInterfaces_exact. split; [reflexivity|].
  split; [apply mapi_from_length|]. split; [reflexivity|].
  unfold terminalInterface. cbn [Block.withBlock _block]. unfold indentMultiline.
  rewrite lines_indentMultiline. unfold terminalSignatures.
  rewrite lines_join.
  - cbn [map]. rewrite map_map. reflexivity.
  - assert (Hstep : nl_free (getStepInterfaceName E "Build") = true).
    { unfold getStepInterfaceName. now rewrite !nl_free_app, Hb. }
    cbn [forallb]. rewrite !nl_free_app, Hm, Hstep. cbn [andb].
    change (nl_free " build();") with true.
    change (nl_free " id(String id) throws AmplifyException;") with true. cbn [andb].
    revert Hf. apply forallb_map_implied. intros f Hx.
    apply andb_true_iff in Hx as [H1 H2].
    unfold optionalSignature. now rewrite !nl_free_app, Hstep, H1, H2.
Qed.

Lemma signatureOf_stepMethod (required : list CodeGenField) (i : nat) (field : CodeGenField) :
  signatureOf (stepMethod E required i field) = stepSignature E required i field.
Proof. reflexivity. Qed.

(** The builder implements exactly the interfaces that
    [generateStepBuilderInterfaces] declares, in their order, and its
    method for the i-th required field has the signature the i-th step
    interface declares: same name, same argument, same next step. *)
Theorem builder_implements_declared_interfaces (model : CodeGenModel)
    (classDeclaration : JavaDeclarationBlock) (pk pk' : Packages)
    (first : CodeGenField) (rest : list CodeGenField) :
  requiredFields model = first :: rest ->
  exists decls builder,
    fst (generateStepBuilderInterfaces E model pk) = Returned decls
    /\ fst (generateBuilderClass E model classDeclaration pk')
       = Returned (Block.nestedClass builder classDeclaration)
    /\ _implements builder = map _name decls
    /\ (forall (i : nat) (field : CodeGenField),
          nth_error (requiredFields model) i = Some field ->
          exists d m,
            nth_error decls i = Some d
            /\ nth_error (_methods builder) (2 + i) = Some m
            /\ _block d = indent (signatureOf m)
            /\ method_methodAnnotations m = ["Override"]
            /\ method_access m = "public").
Proof.
  intros Hreq.
  exists (mapi_from 0 (stepInterfaceDecl E (requiredFields model)) (requiredFields model)
          ++ [terminalInterface E model])%list,
    (builderClassOf E model (f_name first)).
  rewrite generateStepBuilderInterfaces_exact.
  rewrite (generateBuilderClass_returns E model classDeclaration pk' Hreq).
  split; [reflexivity|]. split; [reflexivity|]. split.
  - unfold builderClassOf. cbn [_implements].
    now rewrite map_app, map_name_stepInterfaces.
  - intros i field Hi.
    exists (stepInterfaceDecl E (requiredFields model) i field),
      (stepMethod E (requiredFields model) i field).
    assert (Hlt : i < length (requiredFields model)) by (apply nth_error_Some; congruence).
    split; [|split; [|split; [|split]]]; try reflexivity.
    + rewrite nth_error_app1 by now rewrite mapi_from_length.
      now rewrite mapi_from_nth, Hi.
    + unfold builderClassOf. cbn [_methods Nat.add app nth_error].
      rewrite nth_error_app1 by now rewrite mapi_from_length.
      now rewrite mapi_from_nth, Hi.
Qed.

(** Where the member name of a field is its step method name, the
    builder's setter for an optional field has the signature the terminal
    interface declares for it. *)
Theorem builder_optional_setters_match (model : CodeGenModel)
    (classDeclaration : JavaDeclarationBlock) (pk pk' : Packages)
    (first : CodeGenField) (rest : list CodeGenField) (j : nat) (field : CodeGenField) :
  requiredFields model = first :: rest ->
  nth_error (nullableFieldsOf model) j = Some field ->
  getFieldName E field = camelCase E (f_name field) ->
  exists steps terminal builder m signatures,
    fst (generateStepBuilderInterfaces E model pk) = Returned (steps ++ [terminal])%list
    /\ fst (generateBuilderClass E model classDeclaration pk')
       = Returned (Block.nestedClass builder classDeclaration)
    /\ nth_error (_methods builder) (2 + length (requiredFields model) + j) = Some m
    /\ method_name m = getStepFunctionName E field
    /\ method_methodAnnotations m = ["Override"]
    /\ _block terminal = indentMultiline (join nl signatures)
    /\ nth_error signatures (2 + j) = Some (signatureOf m).
Proof.
  intros Hreq Hj Hname.
  exists (mapi_from 0 (stepInterfaceDecl E (requiredFields model)) (requiredFields model)),
    (terminalInterface E model), (builderClassOf E model (f_name first)),
    (optionalMethod E field), (terminalSignatures E model).
  rewrite generateStepBuilderInterfaces_exact.
  rewrite (generateBuilderClass_returns E model classDeclaration pk' Hreq).
  split; [reflexivity|]. split; [reflexivity|].
  split; [|split; [reflexivity|split; [reflexivity|split; [reflexivity|]]]].
  - unfold builderClassOf. cbn [_methods Nat.add app nth_error].
    rewrite nth_error_app2 by (rewrite mapi_from_length; lia).
    rewrite mapi_from_length.
    replace (length (requiredFields model) + j - length (requiredFields model)) with j by lia.
    assert (Hlt : j < length (nullableFieldsOf model)) by (apply nth_error_Some; congruence).
    rewrite nth_error_app1 by now rewrite length_map.
    now rewrite nth_error_map, Hj.
  - unfold terminalSignatures. cbn [Nat.add nth_error].
    rewrite nth_error_map, Hj. cbn [option_map]. f_equal.
    unfold optionalSignature, signatureOf, optionalMethod, getStepFunctionName,
      getStepFunctionArgumentName.
    cbn [method_returnType method_args method_name arg_type arg_name].
    now rewrite Hname.
Qed.

End BuilderInterfaces.

(** [terminal_interface_lines] at [Post]. *)
Lemma terminal_interface_lines_witness :
  exists steps terminal,
    fst (generateStepBuilderInterfaces Sample.env Sample.Post []) = Returned (steps ++ [terminal])%list
    /\ length steps = 1
    /\ _name terminal = "IBuildStep"
    /\ lines (_block terminal)
       = [ "  Post build();";
           "  IBuildStep id(String id) throws AmplifyException;";
           "  IBuildStep content(String content);" ].
Proof.
  exact (@terminal_interface_lines Sample.env Sample.Post [] eq_refl eq_refl eq_refl).
Defined.

(** [builder_implements_declared_interfaces] at [Comment]: the builder
    implements the steps of [postId] and [text] and the terminal
    interface. *)
Lemma builder_implements_declared_interfaces_witness :
  exists decls builder,
    fst (generateStepBuilderInterfaces Sample.env Sample.Comment []) = Returned decls
    /\ fst (generateBuilderClass Sample.env Sample.Comment Block.new [])
       = Returned (Block.nestedClass builder Block.new)
    /\ _implements builder = ["IPostIdStep"; "ITextStep"; "IBuildStep"].
Proof.
  destruct (@builder_implements_declared_interfaces Sample.env Sample.Comment Block.new [] []
              (Sample.field "postId" "ID" false) [Sample.field "text" "String" false] eq_refl)
    as (decls & builder & Hdecls & Hbuilder & Himpl & _).
  exists decls, builder. split; [exact Hdecls|]. split; [exact Hbuilder|].
  rewrite Himpl. clear Hbuilder Himpl.
  vm_compute in Hdecls. injection Hdecls as <-. reflexivity.
Defined.

(** [builder_optional_setters_match] at the [content] of [Post]. *)
Lemma builder_optional_setters_match_witness :
  exists steps terminal builder m signatures,
    fst (generateStepBuilderInterfaces Sample.env Sample.Post [])
    = Returned (steps ++ [terminal])%list
    /\ fst (generateBuilderClass Sample.env Sample.Post Block.new [])
       = Returned (Block.nestedClass builder Block.new)
    /\ nth_error (_methods builder) 3 = Some m
    /\ method_name m = "content"
    /\ method_methodAnnotations m = ["Override"]
    /\ _block terminal = indentMultiline (join nl signatures)
    /\ nth_error signatures 2 = Some (signatureOf m).
Proof.
  exact (@builder_optional_setters_match Sample.env Sample.Post Block.new [] []
           (Sample.field "title" "String" false) [] 0
           (Sample.field "content" "String" true) eq_refl eq_refl eq_refl).
Defined.


(* ================================================================== *)
(** ** Native types *)
(* ================================================================== *)

Section NativeTypes.

Variable E : Collaborators.

Lemma split_not_nil (c : ascii) (s : string) : split c s <> [].
Proof.
  induction s as [|a s IH]; [discriminate|].
  cbn [split]. destruct (Ascii.eqb a c); [discriminate|].
  destruct (split c s); [contradiction|discriminate].
Qed.

Lemma last_cons_not_nil {A : Type} (x : A) (l : list A) (d : A) :
  l <> [] -> last (x :: l) d = last l d.
Proof. destruct l; [contradiction|reflexivity]. Qed.

Lemma last_In {A : Type} (l : list A) (d : A) : l <> [] -> In (last l d) l.
Proof.
  intros Hne. destruct (@exists_last _ l Hne) as (l' & z & ->).
  rewrite last_last. apply in_or_app. right. now left.
Qed.

(** No piece of a split holds the separator. *)
Lemma split_pieces (c : ascii) (s : string) :
  Forall (fun piece => includes_char c piece = false) (split c s).
Proof.
  induction s as [|a s IH]; [repeat constructor|].
  cbn [split]. destruct (Ascii.eqb a c) eqn:Ha.
  - constructor; [reflexivity|exact IH].
  - destruct (split c s) as [|hd tl]; [repeat constructor; cbn; now rewrite Ha|].
    inversion IH as [|? ? Hhd Htl]; subst. constructor; [|exact Htl].
    cbn [includes_char]. now rewrite Ha, Hhd.
Qed.

Lemma split_without_separator (c : ascii) (s : string) :
  includes_char c s = false -> split c s = [s].
Proof.
  induction s as [|a s IH]; [reflexivity|].
  cbn [includes_char split]. destruct (Ascii.eqb a c); [discriminate|].
  cbn [orb]. intros H. now rewrite (IH H).
Qed.

(** Joining the pieces of a split with the separator gives the text back. *)
Lemma join_split (c : ascii) (s : string) : join (String c "") (split c s) = s.
Proof.
  induction s as [|a s IH]; [reflexivity|].
  cbn [split]. destruct (Ascii.eqb a c) eqn:Ha.
  - apply Ascii.eqb_eq in Ha. subst a.
    pose proof (split_not_nil c s) as Hne.
    destruct (split c s) as [|hd tl]; [contradiction|].
    change (join (String c "") ("" :: hd :: tl))
      with (String c (join (String c "") (hd :: tl))).
    now rewrite IH.
  - pose proof (split_not_nil c s) as Hne.
    destruct (split c s) as [|hd tl]; [contradiction|].
    rewrite <- IH. now destruct tl.
Qed.

(** The last piece of a split is what follows the last separator. *)
Lemma split_last (c : ascii) (s : string) :
  exists pre,
    s = pre ++ last (split c s) ""
    /\ (pre = "" \/ exists pre', pre = pre' ++ String c "").
Proof.
  induction s as [|a s IH]; [exists ""; split; [reflexivity|now left]|].
  destruct IH as (pre & Hs & Hpre).
  pose proof (split_not_nil c s) as Hne.
  cbn [split]. destruct (Ascii.eqb a c) eqn:Ha.
  - apply Ascii.eqb_eq in Ha. subst a.
    rewrite (last_cons_not_nil _ _ Hne).
    exists (String c pre). split; [cbn [append]; now rewrite <- Hs|].
    right. destruct Hpre as [->|[pre' ->]]; [now exists ""|now exists (String c pre')].
  - destruct (split c s) as [|hd tl] eqn:Hsp; [contradiction|].
    destruct tl as [|t tl].
    + exists "". split; [|now left]. cbn [last append].
      pose proof (join_split c s) as Hj. rewrite Hsp in Hj. cbn [join] in Hj. now subst hd.
    + rewrite (last_cons_not_nil _ (l := t :: tl)) by discriminate.
      rewrite (last_cons_not_nil _ (l := t :: tl)) in Hs by discriminate.
      exists (String a pre). split; [cbn [append]; now rewrite <- Hs|].
      right. destruct Hpre as [->|[pre' ->]]; [|now exists (String a pre')].
      exfalso. cbn [append] in Hs.
      pose proof (split_pieces c s) as Hall. rewrite Hsp in Hall.
      assert (Hin : In (last (t :: tl) "") (hd :: t :: tl)).
      { right. apply last_In. discriminate. }
      rewrite Forall_forall in Hall. specialize (Hall _ Hin). rewrite <- Hs in Hall.
      rewrite (split_without_separator _ _ Hall) in Hsp. discriminate Hsp.
Qed.

Lemma includes_single (c : ascii) (s : string) :
  includes (String c "") s = includes_char c s.
Proof.
  induction s as [|a s IH]; [reflexivity|].
  cbn [includes includes_char String.prefix]. rewrite IH.
  destruct (ascii_dec c a) as [->|Hne].
  - rewrite Ascii.eqb_refl. now destruct s.
  - assert (Ha : Ascii.eqb a c = false) by (apply Ascii.eqb_neq; congruence).
    now rewrite Ha.
Qed.

(** What [getNativeType] answers for the type name the inherited mapping
    gives a field.  The answer holds no dot: it is the part of the mapped
    name after its last dot, and the whole name when there is none.  A
    mapped name that holds a dot is registered in the import set, which
    otherwise stays as it was. *)
Theorem getNativeType_simple_name (field : CodeGenField) (pk : Packages) :
  exists simple pk',
    getNativeType E field pk = (Returned simple, pk')
    /\ includes "." simple = false
    /\ (exists pre,
          super_getNativeType E field = pre ++ simple
          /\ (pre = "" \/ exists pre', pre = pre' ++ "."))
    /\ (forall x, In x pk' <->
                  In x pk \/ (includes "." (super_getNativeType E field) = true
                               /\ x = super_getNativeType E field)).
Proof.
  rewrite getNativeType_returns. eexists _, _. split; [reflexivity|].
  unfold nativeTypeName, registerType.
  set (native := super_getNativeType E field).
  change "." with (String "."%char "") at 1 2 3.
  destruct (includes (String "."%char "") native) eqn:Hq.
  - split; [|split].
    + rewrite includes_single.
      pose proof (split_pieces "."%char native) as Hall. rewrite Forall_forall in Hall.
      apply Hall, last_In, split_not_nil.
    + exact (split_last "."%char native).
    + intros x. rewrite In_set_add. intuition auto.
  - split; [exact Hq|]. split.
    + exists "". split; [reflexivity|now left].
    + intros x. intuition auto. discriminate.
Qed.

End NativeTypes.


(* ================================================================== *)
(** ** Field annotations *)
(* ================================================================== *)

Section FieldAnnotations.

Lemma directiveAnnotations_other (d : CodeGenDirective) :
  isConnection d = false -> directiveAnnotations d = [].
Proof. unfold isConnection, directiveAnnotations. now intros ->. Qed.

Lemma directiveAnnotations_bound (d : CodeGenDirective) :
  length (directiveAnnotations d) <= 1
  /\ Forall (fun a => String.prefix "Connection(" a = true) (directiveAnnotations d).
Proof.
  unfold directiveAnnotations. destruct (String.eqb (d_name d) "connection").
  - cbv zeta. destruct (connectionArgs (d_arguments d)); cbn [length]; split;
      try lia; repeat constructor; apply prefix_append.
  - cbn [length]. split; [lia|constructor].
Qed.

Lemma flat_map_connections (ds : list CodeGenDirective) :
  flat_map directiveAnnotations ds
  = flat_map directiveAnnotations (filter isConnection ds).
Proof.
  induction ds as [|d ds IH]; [reflexivity|].
  cbn [flat_map filter]. destruct (isConnection d) eqn:Hd.
  - cbn [flat_map]. now rewrite IH.
  - now rewrite (directiveAnnotations_other d Hd), IH.
Qed.

Lemma flat_map_connections_bound (ds : list CodeGenDirective) :
  length (flat_map directiveAnnotations ds) <= length ds
  /\ Forall (fun a => String.prefix "Connection(" a = true)
            (flat_map directiveAnnotations ds).
Proof.
  induction ds as [|d ds [IHl IHp]]; [split; [reflexivity|constructor]|].
  cbn [flat_map length]. rewrite length_app.
  destruct (directiveAnnotations_bound d) as [Hl Hp]. split; [lia|].
  apply Forall_app. now split.
Qed.

(** The annotations of a field: first the [ModelField] annotation, which
    names the field and its type and marks it required exactly when the
    field is not nullable; then at most one [Connection] annotation per
    [connection] directive, in the order of the directives.  Directives of
    any other name add nothing. *)
Theorem generateFieldAnnotations_shape (field : CodeGenField) :
  generateFieldAnnotations field
  = modelFieldAnnotation field
      :: flat_map directiveAnnotations (filter isConnection (f_directives field))
  /\ Forall (fun a => String.prefix "Connection(" a = true)
            (tl (generateFieldAnnotations field))
  /\ length (generateFieldAnnotations field)
     <= 1 + length (filter isConnection (f_directives field)).
Proof.
  assert (Heq : generateFieldAnnotations field
                = modelFieldAnnotation field
                    :: flat_map directiveAnnotations (filter isConnection (f_directives field))).
  { unfold generateFieldAnnotations, modelFieldAnnotation. cbv zeta.
    rewrite <- flat_map_connections. f_equal.
    destruct (f_isNullable field);
      cbn [negb filter String.eqb Ascii.eqb Bool.eqb join append];
      repeat (progress (rewrite ?string_app_assoc; cbn [append])); reflexivity. }
  split; [exact Heq|]. rewrite Heq. cbn [tl length].
  destruct (flat_map_connections_bound (filter isConnection (f_directives field))) as [Hl Hp].
  split; [exact Hp|lia].
Qed.

Lemma join_snoc (sep : string) (xs : list string) (y : string) :
  join sep (xs ++ [y])
  = match xs with
    | [] => y
    | _ => join sep xs ++ sep ++ y
    end.
Proof.
  induction xs as [|x xs IH]; [reflexivity|].
  destruct xs as [|x' xs]; [reflexivity|].
  change (join sep ((x :: x' :: xs) ++ [y])) with (x ++ sep ++ join sep ((x' :: xs) ++ [y])).
  rewrite IH. change (join sep (x :: x' :: xs)) with (x ++ sep ++ join sep (x' :: xs)).
  now rewrite !string_app_assoc.
Qed.

(** A [connection] directive whose [fields] argument is an array is always
    annotated, and the annotation ends with the array rendered after two
    opening braces and before one closing brace; whatever else is rendered
    comes before it, separated by a comma. *)
Theorem connection_fields_rendered_last (d : CodeGenDirective) (l : list string) :
  d_name d = "connection" ->
  lookup "fields" (d_arguments d) = Some (AList l) ->
  exists front,
    directiveAnnotations d
    = ["Connection(" ++ front ++ "fields = {{" ++ join ", " (map quoted l) ++ "})"]
    /\ (front = "" \/ exists before, front = before ++ ", ").
Proof.
  intros Hname Hfields. unfold directiveAnnotations. rewrite Hname. cbn [String.eqb Ascii.eqb Bool.eqb].
  cbv zeta. rewrite connectionArgs_split, Hfields. cbn [isArray].
  rewrite app_assoc.
  set (front := (stringArgsOf (d_arguments d) (keys (d_arguments d))
                 ++ (if truthy (lookup "limit" (d_arguments d))
                     then [("limit = " ++ toString (lookup "limit" (d_arguments d)))%string]
                     else []))%list).
  set (rendered := ("fields = {{" ++ join ", " (map quoted l) ++ "}")%string).
  exists (match front with [] => "" | _ => join ", " front ++ ", " end).
  assert (Hne : (front ++ [rendered])%list <> []) by (destruct front; discriminate).
  destruct (front ++ [rendered])%list as [|a rest] eqn:Happ; [contradiction|].
  rewrite <- Happ, join_snoc. split.
  - f_equal. unfold rendered. destruct front as [|f fs].
    + cbn [append]. now rewrite !string_app_assoc.
    + rewrite !string_app_assoc. reflexivity.
  - destruct front; [now left|right; eauto].
Qed.

End FieldAnnotations.

(** [connection_fields_rendered_last] at a connection to the comments of a
    post, named and keyed by [postId]. *)
Lemma connection_fields_rendered_last_witness :
  exists front,
    directiveAnnotations
      (mkDirective "connection" [("name", AStr "PostComments"); ("fields", AList ["postId"])])
    = ["Connection(" ++ front ++ "fields = {{" ++ join ", " (map quoted ["postId"]) ++ "})"]
    /\ (front = "" \/ exists before, front = before ++ ", ").
Proof.
  exact (@connection_fields_rendered_last
           (mkDirective "connection"
              [("name", AStr "PostComments"); ("fields", AList ["postId"])])
           ["postId"] eq_refl eq_refl).
Defined.


(* ================================================================== *)
(** ** Enums *)
(* ================================================================== *)

Section Enums.

Variable E : Collaborators.

Lemma punctuate_not_nil (sep last : string) (xs : list string) :
  punctuate sep last xs <> [].
Proof. destruct xs as [|x [|y ys]]; discriminate. Qed.

(** The enum file is the package line followed by one declaration per
    selected enum, in the order of the selection.  Each is a public enum
    of the name the enum is given, and its body lists the values one per
    line, indented once, every value but the last followed by a comma. *)
Theorem generateEnums_one_value_per_line (enumValue : CodeGenEnum) :
  forallb nl_free (values (e_values enumValue)) = true ->
  generateEnums E
  = join nl (generatePackageName E
               :: map (fun e => blockString E (enumDeclarationOf E e))
                      (values (getSelectedEnums E)))
  /\ _kind (enumDeclarationOf E enumValue) = "enum"
  /\ _access (enumDeclarationOf E enumValue) = "public"
  /\ _name (enumDeclarationOf E enumValue) = getEnumName E enumValue
  /\ lines (_block (enumDeclarationOf E enumValue))
     = map indent (punctuate "," "" (values (e_values enumValue))).
Proof.
  intros Hfree. split; [reflexivity|]. do 3 (split; [reflexivity|]).
  unfold enumDeclarationOf. cbn [Block.withBlock _block]. unfold indentMultiline.
  rewrite lines_indentMultiline. f_equal.
  rewrite <- (string_app_nil_r (join ("," ++ nl) (values (e_values enumValue)))).
  rewrite join_punctuate.
  pose proof (punctuate_not_nil "," "" (values (e_values enumValue))) as Hne.
  pose proof (@punctuate_nl_free "," "" (values (e_values enumValue)) eq_refl eq_refl Hfree)
    as Hp.
  destruct (punctuate "," "" (values (e_values enumValue))) as [|p ps]; [contradiction|].
  now apply lines_join.
Qed.

End Enums.

(** [generateEnums_one_value_per_line] at an enum of two values. *)
Lemma generateEnums_one_value_per_line_witness :
  lines (_block (enumDeclarationOf Sample.env
                   (mkEnum "Status" [("ACTIVE", "ACTIVE"); ("INACTIVE", "INACTIVE")])))
  = ["  ACTIVE,"; "  INACTIVE"].
Proof.
  destruct (@generateEnums_one_value_per_line Sample.env
              (mkEnum "Status" [("ACTIVE", "ACTIVE"); ("INACTIVE", "INACTIVE")]) eq_refl)
    as (_ & _ & _ & _ & Hlines).
  exact Hlines.
Defined.

(* ================================================================== *)
(** ** The identity setter, then [build()] *)
(* ================================================================== *)

Section IdentityThenBuild.

Import Java.

Variable E : Collaborators.
Variable validUUID : string -> bool.
Variable randomUUID : string.
Variable invalidUUID : string -> Value.

Lemma lookup_assign_other (x y : string) (v : Value) (env : Env) :
  String.eqb x y = false -> lookup y (assign x v env) = lookup y env.
Proof.
  intros Hxy. induction env as [|[z w] env IH]; cbn [assign lookup].
  - now rewrite Hxy.
  - destruct (String.eqb z x) eqn:Hz; cbn [lookup].
    + apply String.eqb_eq in Hz. subst z. now rewrite Hxy.
    + now rewrite IH.
Qed.

(** Assigning a declared slot leaves the slots of the object the same. *)
Lemma keys_assign (x : string) (v : Value) (env : Env) :
  In x (keys env) -> keys (assign x v env) = keys env.
Proof.
  induction env as [|[z w] env IH]; cbn [keys map fst In assign]; [intros []|].
  destruct (String.eqb z x) eqn:Hz.
  - apply String.eqb_eq in Hz. now subst z.
  - intros [Heq|Hin]; [subst z; now rewrite String.eqb_refl in Hz|].
    cbn [map fst]. f_equal. now apply IH.
Qed.

(** How the identity setter ends on an argument, and the slots it
    leaves: the id slot holds the argument in every case. *)
Lemma idSetter_outcome (argument : option string) (sl : Env) :
  invoke validUUID randomUUID invalidUUID idSetterProgram
    [("id", stringArgument argument)] sl
  = (match argument with
     | Some value =>
         if validUUID value then Returns VThis
         else Throws (malformedIdError (invalidUUID value))
     | None => Throws (malformedIdError (VObject "NullPointerException" []))
     end,
     mkState (assign "id" (stringArgument argument) sl)
       (match argument with
        | Some value =>
            if validUUID value then [("id", VStr value)]
            else [("id", VStr value); ("exception", invalidUUID value)]
        | None => [("id", VNull); ("exception", VObject "NullPointerException" [])]
        end)).
Proof.
  destruct argument as [value|]; cbn [stringArgument].
  - destruct (validUUID value) eqn:Hv.
    + exact (@idSetter_accepts validUUID randomUUID invalidUUID value sl Hv).
    + exact (@idSetter_rejects validUUID randomUUID invalidUUID value sl Hv).
  - exact (@idSetter_null validUUID randomUUID invalidUUID sl).
Qed.


End IdentityThenBuild.


(* ================================================================== *)
(** ** The scenarios of the specification *)
(* ================================================================== *)

(** "Post" with [title] required and [content] nullable: one step
    interface for [title], which returns the terminal interface; the
    terminal interface offers [build()], [id(...)] and [content(...)]; the
    builder is entered at the [title] step. *)
Example Post_scenario :
  (exists decls,
     fst (generateStepBuilderInterfaces Sample.env Sample.Post []) = Returned decls
     /\ map (fun d => (_name d, lines (_block d))) decls
        = [ ("ITitleStep", ["  IBuildStep title(String title);"]);
            ("IBuildStep", [ "  Post build();";
                             "  IBuildStep id(String id) throws AmplifyException;";
                             "  IBuildStep content(String content);" ]) ])
  /\ method_returnType (builderEntry Sample.env "title") = Some "ITitleStep".
Proof.
  split; [|reflexivity]. eexists. split; vm_compute; reflexivity.
Qed.

(** "Comment" with [postId] and [text] required, in that order: the step of
    [postId] returns the step of [text], which returns the terminal
    interface. *)
Example Comment_scenario :
  exists decls,
    fst (generateStepBuilderInterfaces Sample.env Sample.Comment []) = Returned decls
    /\ map (fun d => (_name d, lines (_block d))) decls
       = [ ("IPostIdStep", ["  ITextStep postId(String postId);"]);
           ("ITextStep", ["  IBuildStep text(String text);"]);
           ("IBuildStep", [ "  Comment build();";
                            "  IBuildStep id(String id) throws AmplifyException;" ]) ].
Proof.
  eexists. split; vm_compute; reflexivity.
Qed.
